(** * Satellite TLE reports: catalog fetch, fixed-column parsing, orbit derivation

    A shallow embedding of [tools/iridium_inclination_stats.py] and
    [tools/starlink_altitude_histogram.py].

    - Python [str] values are modelled as [string]; every [ascii] stands for
      the code point of the same number (U+0000 .. U+00FF).
    - Python [float] values are IEEE 754 binary64 numbers, modelled with the
      Standard Library's executable specification [spec_float] at precision
      53 and maximal exponent 1024.
    - Exceptions are explicit: a computation that can raise has type
      [outcome A], and [try: ... except Exception: ...] is [try_except].
    - [print] calls produce no value and are left out. *)

From Stdlib Require Import ZArith List String Ascii Bool Lia.
From Stdlib Require Import Floats.SpecFloat.
From stdpp Require Import gmap strings.

Local Open Scope string_scope.
Local Open Scope Z_scope.

(** ** Exceptions *)

Module Py.

Inductive exn : Type :=
  | ValueError
  | OverflowError
  | ZeroDivisionError
  | ConnectionError
  | DownloadFailed (status_code : Z)
  | OSError.

Inductive outcome (A : Type) : Type :=
  | Returns (a : A)
  | Raises (e : exn).
Arguments Returns {A} a.
Arguments Raises {A} e.

Definition bind {A B : Type} (c : outcome A) (k : A -> outcome B) : outcome B :=
  match c with
  | Returns a => k a
  | Raises e => Raises e
  end.

(** [try: body except Exception as e: handler]: every exception of [exn] is
    a subclass of [Exception]. *)
Definition try_except {A : Type} (body : outcome A) (handler : exn -> outcome A)
  : outcome A :=
  match body with
  | Returns a => Returns a
  | Raises e => handler e
  end.

Definition raised {A : Type} (c : outcome A) : bool :=
  match c with
  | Returns _ => false
  | Raises _ => true
  end.

(** ** Strings *)

(** [str.isspace] on one code point below 256: U+0009..U+000D,
    U+001C..U+001F, U+0020, U+0085 and U+00A0. *)
Definition is_space (c : ascii) : bool :=
  let n := nat_of_ascii c in
  ((9 <=? n) && (n <=? 13) || (28 <=? n) && (n <=? 32)
   || (n =? 133) || (n =? 160))%nat.

Fixpoint drop (n : nat) (s : string) : string :=
  match n, s with
  | O, _ => s
  | S n', EmptyString => EmptyString
  | S n', String _ s' => drop n' s'
  end.

Fixpoint take (n : nat) (s : string) : string :=
  match n, s with
  | O, _ => EmptyString
  | S n', EmptyString => EmptyString
  | S n', String c s' => String c (take n' s')
  end.

(** [s[lo:hi]] for non-negative constant bounds; out-of-range bounds are
    clipped, as Python does. *)
Definition slice (lo hi : nat) (s : string) : string :=
  take (hi - lo) (drop lo s).

Fixpoint lstrip_with (p : ascii -> bool) (s : string) : string :=
  match s with
  | EmptyString => EmptyString
  | String c s' => if p c then lstrip_with p s' else s
  end.

Fixpoint rstrip_with (p : ascii -> bool) (s : string) : string :=
  match s with
  | EmptyString => EmptyString
  | String c s' =>
      match rstrip_with p s' with
      | EmptyString => if p c then EmptyString else String c EmptyString
      | r => String c r
      end
  end.

Definition strip_with (p : ascii -> bool) (s : string) : string :=
  rstrip_with p (lstrip_with p s).

(** [s.strip()] *)
Definition strip (s : string) : string := strip_with is_space s.

(** [s.split(sep)] for a one-character separator: the result is never
    empty, and [''.split(sep)] is [['']]. *)
Fixpoint split (sep : ascii) (s : string) : list string :=
  match s with
  | EmptyString => [EmptyString]
  | String c s' =>
      if Ascii.eqb c sep then EmptyString :: split sep s'
      else match split sep s' with
           | [] => [String c EmptyString]
           | hd :: tl => String c hd :: tl
           end
  end.

Definition newline : ascii := ascii_of_nat 10.

(** [needle in hay] *)
Fixpoint contains (needle hay : string) : bool :=
  String.prefix needle hay
  || match hay with
     | EmptyString => false
     | String _ hay' => contains needle hay'
     end.

Fixpoint all_chars (p : ascii -> bool) (s : string) : bool :=
  match s with
  | EmptyString => true
  | String c s' => p c && all_chars p s'
  end.

Definition is_digit (c : ascii) : bool :=
  let n := nat_of_ascii c in ((48 <=? n) && (n <=? 57))%nat.


(** ** Floats: IEEE 754 binary64 *)

Definition float : Type := spec_float.
Definition prec : Z := 53.
Definition emax : Z := 1024.

Definition fadd : float -> float -> float := SFadd prec emax.
Definition fsub : float -> float -> float := SFsub prec emax.
Definition fmul : float -> float -> float := SFmul prec emax.
Definition fabs : float -> float := SFabs.
Definition fneg : float -> float := SFopp.
Definition feqb : float -> float -> bool := SFeqb.
Definition fltb : float -> float -> bool := SFltb.
Definition fleb : float -> float -> bool := SFleb.

Definition is_nan (x : float) : bool :=
  match x with S754_nan => true | _ => false end.
Definition is_inf (x : float) : bool :=
  match x with S754_infinity _ => true | _ => false end.
Definition is_zero (x : float) : bool :=
  match x with S754_zero _ => true | _ => false end.
Definition is_finite (x : float) : bool :=
  match x with S754_zero _ | S754_finite _ _ _ => true | _ => false end.

(** The binary64 number nearest to the integer [z] (ties to even). *)
Definition float_of_Z (z : Z) : float := binary_normalize prec emax z 0 false.

(** The binary64 number nearest to [(-1)^neg * m * 10^e10], ties to even:
    what [float(str)] and the compiler compute for a decimal literal with
    digits [m] and decimal exponent [e10]. *)
Definition float_of_decimal (neg : bool) (m : Z) (e10 : Z) : float :=
  match m with
  | Z0 => S754_zero neg
  | _ =>
      if 0 <=? e10
      then binary_normalize prec emax (cond_Zopp neg (m * 10 ^ e10)) 0 false
      else
        let '(q, e, l) := SFdiv_core_binary prec emax m 0 (10 ^ (- e10)) 0 in
        binary_round_aux prec emax neg q e l
  end.

(** [a / b] on floats: Python raises where IEEE 754 would return an
    infinity or a NaN for a zero divisor. *)
Definition fdiv (a b : float) : outcome float :=
  if is_zero b then Raises ZeroDivisionError
  else Returns (SFdiv prec emax a b).

(** [float(n)] for an [int], as used when an [int] meets a [float] in
    arithmetic. *)
Definition float_of_int (z : Z) : outcome float :=
  let f := float_of_Z z in
  if is_inf f then Raises OverflowError else Returns f.

(** Round-half-even of the rational [m * 2^e] to an integer, [m >= 0]. *)
Definition round_half_even (m e : Z) : Z :=
  if 0 <=? e then m * 2 ^ e
  else
    let d := 2 ^ (- e) in
    let q := m / d in
    let r := m mod d in
    match 2 * r ?= d with
    | Lt => q
    | Gt => q + 1
    | Eq => if Z.even q then q else q + 1
    end.

(** [round(x)]: the nearest [int], ties to even. *)
Definition round_int (x : float) : outcome Z :=
  match x with
  | S754_nan => Raises ValueError
  | S754_infinity _ => Raises OverflowError
  | S754_zero _ => Returns 0
  | S754_finite s m e => Returns (cond_Zopp s (round_half_even (Zpos m) e))
  end.

(** [round(x, ndigits)] for a small non-negative [ndigits]: the exact value
    of [x] is rounded to [ndigits] decimal places (ties to even) and the
    decimal result converted back to the nearest float. *)
Definition round_ndigits (x : float) (ndigits : nat) : float :=
  match x with
  | S754_finite s m e =>
      float_of_decimal s
        (round_half_even (Zpos m * 10 ^ Z.of_nat ndigits) e)
        (- Z.of_nat ndigits)
  | _ => x
  end.

(** Numbers a Python expression of these scripts can evaluate to. *)
Inductive pynum : Type :=
  | PInt (z : Z)
  | PFloat (f : float)
  | PComplex.

(** The exact integer value of a float, if it has one. *)
Definition Z_of_float_exact (x : float) : option Z :=
  match x with
  | S754_zero _ => Some 0
  | S754_finite s m e =>
      if 0 <=? e then Some (cond_Zopp s (Zpos m * 2 ^ e))
      else if Zpos m mod 2 ^ (- e) =? 0
           then Some (cond_Zopp s (Zpos m / 2 ^ (- e)))
           else None
  | _ => None
  end.

Definition is_integer (x : float) : bool :=
  match Z_of_float_exact x with Some _ => true | None => false end.

Definition is_odd_integer (x : float) : bool :=
  match Z_of_float_exact x with Some z => Z.odd z | None => false end.

(** ** Float literals of the scripts *)

Definition f_0 : float := S754_zero false.
Definition f_1 : float := float_of_decimal false 1 0.
Definition f_0_5 : float := float_of_decimal false 5 (-1).
Definition f_1440 : float := float_of_decimal false 14400 (-1).

(** ** [float(str)] *)

(** The characters [float] strips from both ends of a [str]: the ASCII
    blanks U+0009..U+000D and U+0020, and U+0085 and U+00A0, which the
    conversion first turns into spaces. *)
Definition is_float_space (c : ascii) : bool :=
  let n := nat_of_ascii c in
  ((9 <=? n) && (n <=? 13) || (n =? 32) || (n =? 133) || (n =? 160))%nat.

Definition underscore : ascii := ascii_of_nat 95.

(** Underscores are allowed between two digits only; they are removed. *)
Fixpoint remove_underscores (prev : ascii) (s : string) : option string :=
  match s with
  | EmptyString => if Ascii.eqb prev underscore then None else Some EmptyString
  | String c s' =>
      if Ascii.eqb c underscore
      then if is_digit prev then remove_underscores c s' else None
      else if Ascii.eqb prev underscore && negb (is_digit c) then None
           else option_map (String c) (remove_underscores c s')
  end.

Fixpoint span_digits (s : string) : string * string :=
  match s with
  | EmptyString => (EmptyString, EmptyString)
  | String c s' =>
      if is_digit c
      then let '(ds, r) := span_digits s' in (String c ds, r)
      else (EmptyString, s)
  end.

Definition digit_value (c : ascii) : Z := Z.of_nat (nat_of_ascii c) - 48.

Fixpoint digits_value_from (acc : Z) (s : string) : Z :=
  match s with
  | EmptyString => acc
  | String c s' => digits_value_from (10 * acc + digit_value c) s'
  end.

Definition digits_value (s : string) : Z := digits_value_from 0 s.

Definition lower (c : ascii) : ascii :=
  let n := nat_of_ascii c in
  if ((65 <=? n) && (n <=? 90))%nat then ascii_of_nat (n + 32) else c.

Fixpoint lower_str (s : string) : string :=
  match s with
  | EmptyString => EmptyString
  | String c s' => String (lower c) (lower_str s')
  end.

Definition parse_sign (s : string) : bool * string :=
  match s with
  | String c s' =>
      if Ascii.eqb c "-" then (true, s')
      else if Ascii.eqb c "+" then (false, s')
      else (false, s)
  | EmptyString => (false, s)
  end.

(** An exponent part [e|E [sign] digits]; when it is malformed nothing is
    consumed. *)
Definition parse_exponent (s : string) : option (Z * string) :=
  match s with
  | String c s' =>
      if Ascii.eqb (lower c) "e" then
        let '(neg, r1) := parse_sign s' in
        let '(ds, r2) := span_digits r1 in
        match ds with
        | EmptyString => None
        | _ => Some (cond_Zopp neg (digits_value ds), r2)
        end
      else None
  | EmptyString => None
  end.

Definition parse_float_literal (s : string) : option float :=
  let '(neg, r) := parse_sign s in
  let l := lower_str r in
  if String.eqb l "inf" || String.eqb l "infinity" then Some (S754_infinity neg)
  else if String.eqb l "nan" then Some S754_nan
  else
    let '(ip, r1) := span_digits r in
    let '(fp, r2) :=
      match r1 with
      | String c r' => if Ascii.eqb c "." then span_digits r' else (EmptyString, r1)
      | EmptyString => (EmptyString, r1)
      end in
    if String.eqb (ip ++ fp) EmptyString then None
    else
      let '(ex, r3) :=
        match parse_exponent r2 with
        | Some (e, r') => (e, r')
        | None => (0, r2)
        end in
      match r3 with
      | EmptyString =>
          Some (float_of_decimal neg (digits_value (ip ++ fp))
                  (ex - Z.of_nat (String.length fp)))
      | _ => None
      end.

(** [float(s)] for a [str] argument: [ValueError] unless the stripped
    string is a float literal. *)
Definition py_float (s : string) : outcome float :=
  match remove_underscores zero (strip_with is_float_space s) with
  | None => Raises ValueError
  | Some t =>
      match parse_float_literal t with
      | Some f => Returns f
      | None => Raises ValueError
      end
  end.

(** ** Arithmetic on numbers *)

Definition f_3 : float := float_of_Z 3.
Definition f_4 : float := float_of_Z 4.
Definition f_60 : float := float_of_Z 60.
Definition f_2 : float := float_of_Z 2.

Section Pow.
(** The platform's C [pow], called by [float.__pow__] only for a finite
    positive base other than 1 and a finite non-zero exponent.  It
    reports a range error by returning an infinity. *)
Variable libm_pow : float -> float -> float.

(** [v ** w] on floats, following [float_pow] of CPython case by case. *)
Definition float_pow (v w : float) : outcome pynum :=
  if is_zero w then Returns (PFloat f_1)
  else if is_nan v then Returns (PFloat v)
  else if is_nan w then Returns (PFloat (if feqb v f_1 then f_1 else w))
  else if is_inf w then
    if feqb (fabs v) f_1 then Returns (PFloat f_1)
    else if Bool.eqb (fltb f_0 w) (fltb f_1 (fabs v))
         then Returns (PFloat (fabs w))
         else Returns (PFloat f_0)
  else if is_inf v then
    if fltb f_0 w
    then Returns (PFloat (if is_odd_integer w then v else fabs v))
    else Returns (PFloat (if is_odd_integer w && fltb v f_0
                          then fneg f_0 else f_0))
  else if is_zero v then
    if fltb w f_0 then Raises ZeroDivisionError
    else Returns (PFloat (if is_odd_integer w then v else f_0))
  else if fltb v f_0 && negb (is_integer w) then Returns PComplex
  else
    let negate_result := fltb v f_0 && is_odd_integer w in
    if feqb (fabs v) f_1
    then Returns (PFloat (if negate_result then fneg f_1 else f_1))
    else
      let ix := libm_pow (fabs v) w in
      if is_inf ix then Raises OverflowError
      else Returns (PFloat (if negate_result then fneg ix else ix)).

(** An [int] operand of a mixed operation is converted with [float]. *)
Definition as_float (a : pynum) : outcome (option float) :=
  match a with
  | PInt z => bind (float_of_int z) (fun f => Returns (Some f))
  | PFloat f => Returns (Some f)
  | PComplex => Returns None
  end.

(** A binary operation with at least one [float] or [complex] operand.
    A [complex] operand makes the result [complex]; its value is not
    tracked. *)
Definition num_binop (op : float -> float -> outcome pynum) (a b : pynum)
  : outcome pynum :=
  bind (as_float a) (fun x =>
  bind (as_float b) (fun y =>
    match x, y with
    | Some x, Some y => op x y
    | _, _ => Returns PComplex
    end)).

Definition num_mul : pynum -> pynum -> outcome pynum :=
  num_binop (fun x y => Returns (PFloat (fmul x y))).
Definition num_sub : pynum -> pynum -> outcome pynum :=
  num_binop (fun x y => Returns (PFloat (fsub x y))).
Definition num_pow : pynum -> pynum -> outcome pynum :=
  num_binop float_pow.

(** [a / b]: a zero divisor raises whatever the dividend is. *)
Definition num_div (a b : pynum) : outcome pynum :=
  bind (as_float a) (fun x =>
  bind (as_float b) (fun y =>
    match y with
    | Some y =>
        if is_zero y then Raises ZeroDivisionError
        else match x with
             | Some x => Returns (PFloat (SFdiv prec emax x y))
             | None => Returns PComplex
             end
    | None => Returns PComplex
    end)).
End Pow.

(** [abs(x - n) <= tolerance] for a float [x] and an [int] [n]. *)
Definition within (x : float) (n : Z) (tolerance : float) : outcome bool :=
  bind (float_of_int n) (fun fn =>
    Returns (fleb (fabs (fsub x fn)) tolerance)).

End Py.

Import Py.

(** ** Catalog fetch with cache ([download_tle], the same in both scripts) *)

Module Catalog.

(** One 3-line TLE entry: the dict [{'name': .., 'line1': .., 'line2': ..}]. *)
Record satellite : Type := Satellite {
  name : string;
  line1 : string;
  line2 : string
}.

(** What [json.load] finds in a cache file. *)
Inductive cache_file : Type :=
  | Unreadable
  | CacheEntry (timestamp : Z) (satellites : list satellite).

Inductive http_result : Type :=
  | NetworkError
  | Response (status_code : Z) (text : string).

(** The part of the outside world the fetch touches: the [data] directory
    with its cache files and their modification time in seconds ([None]
    when the directory does not exist), the clock, the catalog service,
    whether a cache file can be written, and whether [os.makedirs] can
    create the directory. *)
Record world : Type := World {
  data_dir : option (gmap string (Z * cache_file));
  now : Z;
  http_get : string -> http_result;
  writable : bool;
  can_make_dirs : bool
}.

(** [os.path.exists("data")] *)
Definition data_dir_exists (w : world) : bool :=
  match data_dir w with Some _ => true | None => false end.

(** The cache files, by path. *)
Definition files (w : world) : gmap string (Z * cache_file) :=
  match data_dir w with Some cache_files => cache_files | None => ∅ end.

(** [os.makedirs] raises [OSError] when it cannot create the directory. *)
Definition ensure_data_dir (w : world) : outcome string * world :=
  if data_dir_exists w then (Returns "data", w)
  else if can_make_dirs w
       then (Returns "data",
             World (Some ∅) (now w) (http_get w) (writable w) (can_make_dirs w))
       else (Raises OSError, w).

Definition get_cache_file_path (satellite_group : string) (w : world)
  : outcome string * world :=
  match ensure_data_dir w with
  | (Returns data_dir, w') =>
      (Returns (data_dir ++ "/" ++ satellite_group ++ ".json")%string, w')
  | (Raises e, w') => (Raises e, w')
  end.

Definition path_exists (w : world) (path : string) : bool :=
  match files w !! path with Some _ => true | None => false end.

Definition is_cache_valid (w : world) (cache_file_path : string)
  (max_age_hours : Z) : bool :=
  match files w !! cache_file_path with
  | None => false
  | Some (file_mtime, _) => now w - file_mtime <? max_age_hours * 3600
  end.

(** [None] stands for Python's [None], returned when reading fails. *)
Definition load_satellites_from_cache (w : world) (cache_file_path : string)
  : option (list satellite) :=
  match files w !! cache_file_path with
  | Some (_, CacheEntry _ sats) => Some sats
  | _ => None
  end.

(** [open(.., 'w')] fails when the directory is missing or the file cannot
    be written; the error is caught and nothing is stored. *)
Definition save_satellites_to_cache (w : world) (cache_file_path : string)
  (satellites : list satellite) : world :=
  match data_dir w with
  | Some cache_files =>
      if writable w
      then World
             (Some (<[cache_file_path := (now w, CacheEntry (now w) satellites)]>
                      cache_files))
             (now w) (http_get w) (writable w) (can_make_dirs w)
      else w
  | None => w
  end.

(** [range(start, stop, step)] for a positive [step]. *)
Definition range (start stop step : nat) : list nat :=
  map (fun j => (start + j * step)%nat)
      (seq 0 ((stop - start + (step - 1)) / step)%nat).

(** The grouping loop of [download_tle]. *)
Definition group_lines (tle_data : list string) : list satellite :=
  flat_map
    (fun i =>
       if (i + 2 <? length tle_data)%nat
       then [Satellite (strip (nth i tle_data ""))
                       (strip (nth (i + 1) tle_data ""))
                       (strip (nth (i + 2) tle_data ""))]
       else [])
    (range 0 (length tle_data) 3).

(** [response.text.strip().split('\n')] followed by the grouping loop. *)
Definition parse_tle (text : string) : list satellite :=
  group_lines (split newline (strip text)).

Definition url_of (satellite_group : string) : string :=
  ("https://celestrak.org/NORAD/elements/gp.php?GROUP=" ++ satellite_group
   ++ "&FORMAT=tle")%string.

(** The body of the [try] block: fetch, parse, write the cache. *)
Definition fetch_and_cache (w : world) (cache_file_path satellite_group : string)
  : outcome (list satellite) * world :=
  match http_get w (url_of satellite_group) with
  | NetworkError => (Raises ConnectionError, w)
  | Response status_code text =>
      if negb (status_code =? 200) then (Raises (DownloadFailed status_code), w)
      else
        let satellites := parse_tle text in
        (Returns satellites,
         save_satellites_to_cache w cache_file_path satellites)
  end.

(** [get_cache_file_path] is called before the [try]: what it raises is
    not caught.  [if cached_satellites:] holds for a non-empty list only:
    [None] and the empty list are falsy. *)
Definition download_tle (w : world) (satellite_group : string)
  : outcome (list satellite) * world :=
  match get_cache_file_path satellite_group w with
  | (Raises e, w) => (Raises e, w)
  | (Returns cache_file_path, w) =>
      let fresh :=
        if is_cache_valid w cache_file_path 24
        then load_satellites_from_cache w cache_file_path
        else None in
      match fresh with
      | Some (sat :: sats) => (Returns (sat :: sats), w)
      | _ =>
          match fetch_and_cache w cache_file_path satellite_group with
          | (Returns satellites, w') => (Returns satellites, w')
          | (Raises _, w') =>
              let cached :=
                if path_exists w' cache_file_path
                then load_satellites_from_cache w' cache_file_path
                else None in
              match cached with
              | Some (sat :: sats) => (Returns (sat :: sats), w')
              | _ => (Returns [], w')
              end
          end
      end
  end.

End Catalog.

Import Catalog.

(** ** [iridium_inclination_stats.py] *)

Module Iridium.

Definition download_tle := Catalog.download_tle.

(** [None] in the result stands for Python's [None]. *)
Definition extract_inclination_from_tle (line2 : string) : outcome (option float) :=
  try_except
    (let inclination_str := strip (slice 8 16 line2) in
     bind (py_float inclination_str) (fun f => Returns (Some f)))
    (fun _ => Returns None).

Definition extract_eccentricity_from_tle (line2 : string) : outcome (option float) :=
  try_except
    (let eccentricity_str := strip (slice 26 33 line2) in
     bind (py_float ("0." ++ eccentricity_str)) (fun f => Returns (Some f)))
    (fun _ => Returns None).

Definition extract_mean_motion_from_tle (line2 : string) : outcome (option float) :=
  try_except
    (let mean_motion_str := strip (slice 52 63 line2) in
     bind (py_float mean_motion_str) (fun f => Returns (Some f)))
    (fun _ => Returns None).

Definition default_tolerance : float := f_0_5.

Definition round_inclination (inclination tolerance : float) : outcome pynum :=
  bind (round_int inclination) (fun rounded =>
  bind (within inclination rounded tolerance) (fun close =>
    if close then Returns (PInt rounded)
    else Returns (PFloat (round_ndigits inclination 1)))).

(** Equality of dict keys: an [int] and a [float] of the same value are
    the same key. *)
Definition key_eqb (a b : pynum) : bool :=
  match a, b with
  | PInt x, PInt y => x =? y
  | PInt x, PFloat f | PFloat f, PInt x =>
      match Z_of_float_exact f with Some y => x =? y | None => false end
  | PFloat f, PFloat g => feqb f g
  | _, _ => false
  end.

(** [counts[key] += 1] on a [defaultdict(int)], kept in insertion order. *)
Fixpoint increment (key : pynum) (counts : list (pynum * nat))
  : list (pynum * nat) :=
  match counts with
  | [] => [(key, 1%nat)]
  | (k, n) :: rest =>
      if key_eqb k key then (k, S n) :: rest
      else (k, n) :: increment key rest
  end.

(** The [for sat in satellites] loop that splits main and DTC records. *)
Definition classify (satellites : list satellite)
  : list satellite * list satellite :=
  fold_left
    (fun '(main_satellites, dtc_satellites) sat =>
       if contains "[DTC]" (name sat)
       then (main_satellites, (dtc_satellites ++ [sat])%list)
       else ((main_satellites ++ [sat])%list, dtc_satellites))
    satellites ([], []).

(** The loop that collects the inclinations of one subset and counts them
    by rounded value. *)
Definition tally_inclinations (subset : list satellite)
  : outcome (list float * list (pynum * nat)) :=
  fold_left
    (fun acc sat =>
       bind acc (fun '(inclinations, inclination_counts) =>
       bind (extract_inclination_from_tle (line2 sat)) (fun inclination =>
         match inclination with
         | Some inclination =>
             bind (round_inclination inclination default_tolerance)
               (fun rounded_inc =>
                  Returns ((inclinations ++ [inclination])%list,
                           increment rounded_inc inclination_counts))
         | None => Returns (inclinations, inclination_counts)
         end)))
    subset (Returns ([], [])).

(** The loop over the main records that collects eccentricities and mean
    motions. *)
Definition collect_parameters (subset : list satellite)
  : outcome (list float * list float) :=
  fold_left
    (fun acc sat =>
       bind acc (fun '(eccentricities, mean_motions) =>
       bind (extract_eccentricity_from_tle (line2 sat)) (fun ecc =>
       bind (extract_mean_motion_from_tle (line2 sat)) (fun mm =>
         Returns
           (match ecc with Some e => (eccentricities ++ [e])%list | None => eccentricities end,
            match mm with Some m => (mean_motions ++ [m])%list | None => mean_motions end)))))
    subset (Returns ([], [])).

(** Everything [analyze_iridium_inclinations] aggregates, and the average
    period it computes last ([None] when no mean motion was collected).
    The other figures it prints (counts, percentages, minima, maxima and
    means of these lists) are computed from non-empty lists by operations
    that do not raise. *)
Record report : Type := Report {
  total : nat;
  main_satellites : list satellite;
  dtc_satellites : list satellite;
  main_inclinations : list float;
  main_inclination_counts : list (pynum * nat);
  dtc_inclinations : list float;
  dtc_inclination_counts : list (pynum * nat);
  eccentricities : list float;
  mean_motions : list float;
  avg_period : option pynum
}.

Section Analysis.
(** The builtin [sum] on a list of floats: the additions from left to
    right starting from 0 before Python 3.12, the same sum with the
    rounding errors compensated since. *)
Variable float_sum : list float -> float.

(** [avg_period = (24 * 60) / (sum(mean_motions) / len(mean_motions))]
    under [if mean_motions:]; the division by a zero mean raises, outside
    any [try]. *)
Definition average_period (mean_motions : list float) : outcome (option pynum) :=
  match mean_motions with
  | [] => Returns None
  | _ =>
      bind (num_div (PFloat (float_sum mean_motions))
              (PInt (Z.of_nat (length mean_motions)))) (fun mean =>
      bind (num_div (PInt (24 * 60)) mean) (fun avg_period =>
        Returns (Some avg_period)))
  end.

(** [analyze_iridium_inclinations], given what [download_tle] returned;
    [None] is the early [return] on an empty catalog. *)
Definition analyze_iridium_inclinations (satellites : list satellite)
  : outcome (option report) :=
  match satellites with
  | [] => Returns None
  | _ =>
      let '(main_satellites, dtc_satellites) := classify satellites in
      bind (tally_inclinations main_satellites) (fun '(main_inc, main_counts) =>
      bind (match dtc_satellites with
            | [] => Returns ([], [])
            | _ => tally_inclinations dtc_satellites
            end) (fun '(dtc_inc, dtc_counts) =>
      bind (collect_parameters main_satellites) (fun '(eccs, mms) =>
      bind (average_period mms) (fun avg_period =>
        Returns (Some (Report (length satellites) main_satellites dtc_satellites
                         main_inc main_counts dtc_inc dtc_counts eccs mms
                         avg_period))))))
  end.
End Analysis.

(** A reference [sum] for worked examples: the additions from left to
    right, starting from 0. *)
Definition reference_sum (xs : list float) : float :=
  fold_left (SFadd prec emax) xs f_0.

End Iridium.

(** ** [starlink_altitude_histogram.py] *)

Module Starlink.

Definition download_tle := Catalog.download_tle.

(** The dict returned by [extract_orbital_elements_from_tle]. *)
Record orbital_elements : Type := OrbitalElements {
  inclination : float;
  mean_motion : float;
  orbital_period_minutes : float;
  semi_major_axis : pynum;
  altitude : pynum
}.

Definition EARTH_RADIUS : float := float_of_decimal false 6378137 (-3).
Definition MU : float := float_of_decimal false 3986004418 (-4).
(** The literal [3.14159265359]. *)
Definition PI_LITERAL : float := float_of_decimal false 314159265359 (-11).

Section Derive.
Variable libm_pow : float -> float -> float.

(** The arithmetic between the two [float(...)] calls and the [return]. *)
Definition derive (mean_motion inclination : float) : outcome orbital_elements :=
  bind (fdiv f_1440 mean_motion) (fun orbital_period_minutes =>
  bind (num_mul (PFloat orbital_period_minutes) (PInt 60)) (fun orbital_period_seconds =>
  bind (num_pow libm_pow orbital_period_seconds (PInt 2)) (fun squared =>
  bind (num_mul squared (PFloat MU)) (fun numerator =>
  bind (num_pow libm_pow (PFloat PI_LITERAL) (PInt 2)) (fun pi_squared =>
  bind (num_mul (PInt 4) pi_squared) (fun denominator =>
  bind (num_div numerator denominator) (fun a_cubed =>
  bind (num_div (PInt 1) (PInt 3)) (fun one_third =>
  bind (num_pow libm_pow a_cubed one_third) (fun semi_major_axis =>
  bind (num_sub semi_major_axis (PFloat EARTH_RADIUS)) (fun altitude =>
    Returns (OrbitalElements inclination mean_motion orbital_period_minutes
               semi_major_axis altitude))))))))))).

(** [None] in the result stands for Python's [None]. *)
Definition extract_orbital_elements_from_tle (line1 line2 : string)
  : outcome (option orbital_elements) :=
  try_except
    (bind (py_float (strip (slice 52 63 line2))) (fun mean_motion =>
     bind (py_float (strip (slice 8 16 line2))) (fun inclination =>
     bind (derive mean_motion inclination) (fun elements =>
       Returns (Some elements)))))
    (fun _ => Returns None).
End Derive.

Definition known_inclinations : list Z := [43; 53; 70; 97].

Definition default_tolerance : float := float_of_decimal false 10 (-1).

(** The [for known_inc in known_inclinations] loop: the first member
    within the tolerance, in list order. *)
Fixpoint snap (inclination tolerance : float) (known : list Z)
  : outcome (option Z) :=
  match known with
  | [] => Returns None
  | known_inc :: rest =>
      bind (within inclination known_inc tolerance) (fun close =>
        if close then Returns (Some known_inc)
        else snap inclination tolerance rest)
  end.

Definition round_inclination (inclination tolerance : float) : outcome pynum :=
  bind (snap inclination tolerance known_inclinations) (fun found =>
    match found with
    | Some known_inc => Returns (PInt known_inc)
    | None => Returns (PFloat (round_ndigits inclination 1))
    end).

(** The lists and the dict filled by the main loop of
    [create_altitude_histogram]. *)
Record groups : Type := Groups {
  main_satellites : list satellite;
  dtc_satellites : list satellite;
  main_altitudes : list pynum;
  dtc_altitudes : list pynum;
  main_by_inclination : gmap Z (list pynum)
}.

Definition no_groups : groups :=
  Groups [] [] [] []
    (<[43 := []]> (<[53 := []]> (<[70 := []]> (<[97 := []]> ∅)))).

(** The [int] a number is equal to, if any: the key it selects in a dict
    with [int] keys. *)
Definition dict_key (k : pynum) : option Z :=
  match k with
  | PInt z => Some z
  | PFloat f => Z_of_float_exact f
  | PComplex => None
  end.

(** [if rounded_inc in d: d[rounded_inc].append(altitude)] *)
Definition append_if_present (rounded_inc : pynum) (altitude : pynum)
  (d : gmap Z (list pynum)) : gmap Z (list pynum) :=
  match dict_key rounded_inc with
  | Some z =>
      match d !! z with
      | Some altitudes => <[z := (altitudes ++ [altitude])%list]> d
      | None => d
      end
  | None => d
  end.

Section Histogram.
Variable libm_pow : float -> float -> float.

(** One iteration of [for sat in satellites]. *)
Definition visit (g : groups) (sat : satellite) : outcome groups :=
  bind (extract_orbital_elements_from_tle libm_pow (line1 sat) (line2 sat))
    (fun orbital_elements =>
       match orbital_elements with
       | None => Returns g
       | Some orbital_elements =>
           bind (round_inclination (inclination orbital_elements) default_tolerance)
             (fun rounded_inc =>
                if contains "[DTC]" (name sat)
                then Returns
                       (Groups (main_satellites g)
                          (dtc_satellites g ++ [sat])%list
                          (main_altitudes g)
                          (dtc_altitudes g ++ [altitude orbital_elements])%list
                          (main_by_inclination g))
                else Returns
                       (Groups (main_satellites g ++ [sat])%list
                          (dtc_satellites g)
                          (main_altitudes g ++ [altitude orbital_elements])%list
                          (dtc_altitudes g)
                          (append_if_present rounded_inc
                             (altitude orbital_elements)
                             (main_by_inclination g))))
       end).

Definition visit_all (satellites : list satellite) : outcome groups :=
  fold_left (fun acc sat => bind acc (fun g => visit g sat))
    satellites (Returns no_groups).

(** [create_altitude_histogram] up to the two subset counts it prints,
    given what [download_tle] returned: the total it reports and the
    groups.  [None] is the early [return] on an empty catalog. *)
Definition create_altitude_histogram (satellites : list satellite)
  : outcome (option (nat * groups)) :=
  match satellites with
  | [] => Returns None
  | _ => bind (visit_all satellites) (fun g =>
           Returns (Some (length satellites, g)))
  end.
End Histogram.

(** *** A reference [pow] for worked examples *)

(** The largest [c] below [2^bits] with [c^3 <= n]. *)
Fixpoint cube_root_bits (bits : nat) (n acc : Z) : Z :=
  match bits with
  | O => acc
  | S b =>
      let c := acc + 2 ^ Z.of_nat b in
      cube_root_bits b n (if c * c * c <=? n then c else acc)
  end.

(** A [pow] that squares exactly-then-rounds for the exponent 2 and takes a
    cube root, good to the last bit or so, for every other exponent. *)
Definition reference_pow (x y : float) : float :=
  if feqb y f_2 then fmul x x
  else
    match x with
    | S754_finite false m e =>
        let t := e mod 3 in
        let c := cube_root_bits 90 (Zpos m * 2 ^ (t + 180)) 0 in
        binary_normalize prec emax c ((e - t) / 3 - 60) false
    | _ => x
    end.

End Starlink.

(** * Vocabulary of the statements and sample data *)

(** A well-formed line 2: inclination [53.0541], eccentricity field
    [0001234], mean motion [15.06391223]. *)
Definition sample_line2 : string :=
  "2 44713  53.0541 123.4567 0001234  90.1234 270.0000 15.06391223123456".

(** The same line with the eccentricity columns left blank. *)
Definition blank_eccentricity_line2 : string :=
  "2 44713  53.0541 123.4567          90.1234 270.0000 15.06391223123456".

(** A line 2 whose three fields are all malformed. *)
Definition malformed_line2 : string :=
  "2 44713  5x.0541 123.4567 00-1234  90.1234 270.0000 15.06.91223123456".

(** Record [k] as the specification describes it: the three trimmed lines
    starting at line [3k]. *)
Definition record_at (tle_data : list string) (k : nat) : satellite :=
  Satellite (strip (nth (3 * k) tle_data ""))
            (strip (nth (3 * k + 1) tle_data ""))
            (strip (nth (3 * k + 2) tle_data "")).

(** A catalog text with a leading blank line, two complete groups and an
    incomplete third one. *)
Definition sample_catalog : string :=
  String newline
    ("STARLINK-1008   " ++ String newline
       ("1 44714U 19074B" ++ String newline
          ("2 44714  53.0541" ++ String newline
             ("STARLINK-11 [DTC]" ++ String newline
                ("1 60000U" ++ String newline
                   ("2 60000  43.0000" ++ String newline
                      ("STARLINK-12" ++ String newline
                         ("1 60001U" ++ String newline ""))))))))%string.


(** The path [get_cache_file_path] computes for a group. *)
Definition cache_path (satellite_group : string) : string :=
  ("data/" ++ satellite_group ++ ".json")%string.

(** The records of a cache entry. *)
Definition sample_records : list satellite :=
  [Satellite "IRIDIUM 106" "1 41917U" "2 41917  86.3940"].



(** The [data] directory exists or can be created, so that [download_tle]
    gets as far as its cache file path. *)
Definition data_dir_ready (w : world) : bool :=
  data_dir_exists w || can_make_dirs w.

(** The test ['[DTC]' in sat['name']]. *)
Definition is_dtc (sat : satellite) : bool := contains "[DTC]" (name sat).

(** The values an extractor yields over a subset, in order: records whose
    field does not parse contribute nothing. *)
Definition parsed (extract : string -> outcome (option float))
  (subset : list satellite) : list float :=
  flat_map
    (fun sat =>
       match extract (line2 sat) with
       | Returns (Some f) => [f]
       | _ => []
       end)
    subset.

(** Whether orbital elements are derived for a record. *)
Definition derivable (libm_pow : float -> float -> float) (sat : satellite)
  : bool :=
  match Starlink.extract_orbital_elements_from_tle libm_pow (line1 sat) (line2 sat) with
  | Returns (Some _) => true
  | _ => false
  end.

(** A record whose line 2 is empty. *)
Definition unparsable_record : satellite := Satellite "STARLINK-1008" "" "".

(** A main record, a DTC record, and a main record whose line 2 is too
    short to hold any field. *)
Definition sample_run : list satellite :=
  [Satellite "IRIDIUM 106" "1 41917U" sample_line2;
   Satellite "IRIDIUM 9 [DTC]" "1 60000U" sample_line2;
   Satellite "IRIDIUM 7" "1 41918U" "2 41918"].

(** What the Iridium report aggregates over [sample_run], with
    [reference_sum] for [sum]. *)
Definition sample_report : Iridium.report :=
  Eval vm_compute in
    match Iridium.analyze_iridium_inclinations Iridium.reference_sum sample_run with
    | Returns (Some r) => r
    | _ => Iridium.Report 0 [] [] [] [] [] [] [] [] None
    end.

(** [1/3] *)
Definition one_third : float := SFdiv prec emax (float_of_Z 1) (float_of_Z 3).

(** The elements derived from [sample_line2] with [reference_pow]. *)
Definition sample_elements : Starlink.orbital_elements :=
  Eval vm_compute in
    match Starlink.extract_orbital_elements_from_tle Starlink.reference_pow
            "1 44713U" sample_line2 with
    | Returns (Some elements) => elements
    | _ => Starlink.OrbitalElements f_0 f_0 f_0 PComplex PComplex
    end.

(** A line 2 whose mean motion field reads [1e-200]. *)
Definition tiny_mean_motion_line2 : string :=
  "2 44713  53.0541 123.4567 0001234  90.1234 270.0000      1e-200123456".

(** ** [starlink_altitude_histogram.py], the altitude range table *)

Definition altitude_ranges : list (Z * Z) :=
  [(0, 400); (400, 450); (450, 500); (500, 550); (550, 600); (600, 1000);
   (1000, 2000)].

(** [low <= alt < high] for [int] bounds small enough to be floats exactly.
    [None] stands for the [TypeError] that comparing a complex number
    raises. *)
Definition in_range (low high : Z) (alt : pynum) : option bool :=
  match alt with
  | PInt z => Some ((low <=? z) && (z <? high))
  | PFloat x => Some (fleb (float_of_Z low) x && fltb x (float_of_Z high))
  | PComplex => None
  end.

(** [sum(1 for alt in altitudes if low <= alt < high)] *)
Fixpoint count_in_range (low high : Z) (altitudes : list pynum) : option nat :=
  match altitudes with
  | [] => Some 0%nat
  | alt :: rest =>
      match in_range low high alt with
      | None => None
      | Some hit =>
          match count_in_range low high rest with
          | None => None
          | Some n => Some (if hit then S n else n)
          end
      end
  end.

(** One printed block of the table. *)
Record range_row : Type := RangeRow {
  low : Z;
  high : Z;
  main_count : nat;
  dtc_count : nat;
  total_count : nat
}.

(** The [for low, high in altitude_ranges] loop: the blocks it prints, or
    [None] when a comparison raises. *)
Fixpoint range_table (ranges : list (Z * Z)) (main_altitudes dtc_altitudes : list pynum)
  : option (list range_row) :=
  match ranges with
  | [] => Some []
  | (low, high) :: rest =>
      match count_in_range low high main_altitudes with
      | None => None
      | Some main_count =>
          match count_in_range low high dtc_altitudes with
          | None => None
          | Some dtc_count =>
              let total_count := (main_count + dtc_count)%nat in
              match range_table rest main_altitudes dtc_altitudes with
              | None => None
              | Some rows =>
                  Some (if (0 <? total_count)%nat
                        then RangeRow low high main_count dtc_count total_count :: rows
                        else rows)
              end
          end
      end
  end.

(** ** Vocabulary of the further properties *)

(** The world [elapsed] seconds later, with the catalog service answering
    [http_get'] instead. *)
Definition later (w : world) (elapsed : Z) (http_get' : string -> http_result)
  : world :=
  World (data_dir w) (now w + elapsed) http_get' (writable w) (can_make_dirs w).

(** Whether the cache of a group would be used without a fetch: a fresh
    file holding at least one record. *)
Definition cache_hit (w : world) (satellite_group : string) : bool :=
  match files w !! cache_path satellite_group with
  | Some (file_mtime, CacheEntry _ (_ :: _)) => now w - file_mtime <? 24 * 3600
  | _ => false
  end.

(** A world with no [data] directory yet whose service answers 200 with
    [sample_catalog]. *)
Definition serving_world : world :=
  World None 1000 (fun _ => Response 200 sample_catalog) true true.


(** ['\n'.join(lines)] *)
Fixpoint join_lines (lines : list string) : string :=
  match lines with
  | [] => ""
  | [l] => l
  | l :: rest => l ++ String newline (join_lines rest)
  end.

(** The TLE text of a list of records: name, line 1 and line 2 of each
    record on a line of their own. *)
Definition render_tle (records : list satellite) : string :=
  join_lines (flat_map (fun r => [name r; line1 r; line2 r]) records).

Definition no_newline (s : string) : bool :=
  all_chars (fun c => negb (Ascii.eqb c newline)) s.

(** The lines of [sample_catalog] between its leading and its final
    newline. *)
Definition sample_lines : list string :=
  ["STARLINK-1008   "; "1 44714U 19074B"; "2 44714  53.0541";
   "STARLINK-11 [DTC]"; "1 60000U"; "2 60000  43.0000";
   "STARLINK-12"; "1 60001U"].

(** A field as it can appear on a catalog line: not empty, no white space
    at either end, no newline inside. *)
Definition clean_field (s : string) : Prop :=
  s <> "" /\ strip s = s /\ no_newline s = true.

Definition clean_record (r : satellite) : Prop :=
  clean_field (name r) /\ clean_field (line1 r) /\ clean_field (line2 r).

(** The satellites a count table accounts for. *)
Definition counted (counts : list (pynum * nat)) : nat :=
  list_sum (map snd counts).

(** [sum(values) / len(values)] *)
Definition mean_of (float_sum : list float -> float) (values : list float)
  : outcome pynum :=
  num_div (PFloat (float_sum values)) (PInt (Z.of_nat (length values))).

(** A line 2 whose mean motion field reads [0.00000000]. *)
Definition zero_mean_motion_line2 : string :=
  "2 44713  53.0541 123.4567 0001234  90.1234 270.0000  0.00000000123456".

(** A line 2 whose inclination field reads [nan]. *)
Definition nan_inclination_line2 : string :=
  "2 44713      nan 123.4567 0001234  90.1234 270.0000 15.06391223123456".

(** A line 2 whose mean motion field reads [nan]. *)
Definition nan_mean_motion_line2 : string :=
  "2 44713  53.0541 123.4567 0001234  90.1234 270.0000         nan123456".

(** The floats of a list that lie in [[low, high)]. *)
Definition hits (low high : Z) (altitudes : list float) : nat :=
  length (List.filter
            (fun x => fleb (float_of_Z low) x && fltb x (float_of_Z high))
            altitudes).

(** A key that orders the floats as their comparison does: sign class,
    then exponent, then mantissa.  A NaN has none. *)
Definition order_key (x : float) : option (Z * Z * Z) :=
  match x with
  | S754_nan => None
  | S754_infinity true => Some (-2, 0, 0)
  | S754_finite true m e => Some (-1, - e, Zneg m)
  | S754_zero _ => Some (0, 0, 0)
  | S754_finite false m e => Some (1, e, Zpos m)
  | S754_infinity false => Some (2, 0, 0)
  end.

Definition key_lt (a b : Z * Z * Z) : Prop :=
  let '(a1, a2, a3) := a in
  let '(b1, b2, b3) := b in
  a1 < b1 \/ (a1 = b1 /\ (a2 < b2 \/ (a2 = b2 /\ a3 < b3))).

(** [abs(inclination - known_inc) <= tolerance] *)
Definition within_tolerance (inclination tolerance : float) (known_inc : Z) : bool :=
  fleb (fabs (fsub inclination (float_of_Z known_inc))) tolerance.

(** The altitude a record contributes to its altitude list. *)
Definition altitude_of (libm_pow : float -> float -> float) (sat : satellite)
  : list pynum :=
  match Starlink.extract_orbital_elements_from_tle libm_pow (line1 sat) (line2 sat) with
  | Returns (Some elements) => [Starlink.altitude elements]
  | _ => []
  end.

(** The dict key the rounded inclination of a record selects, if any. *)
Definition bucket_of (libm_pow : float -> float -> float) (sat : satellite)
  : option Z :=
  match Starlink.extract_orbital_elements_from_tle libm_pow (line1 sat) (line2 sat) with
  | Returns (Some elements) =>
      match Starlink.round_inclination (Starlink.inclination elements)
              Starlink.default_tolerance with
      | Returns rounded_inc => Starlink.dict_key rounded_inc
      | Raises _ => None
      end
  | _ => None
  end.

Definition in_bucket (libm_pow : float -> float -> float) (k : Z)
  (sat : satellite) : bool :=
  match bucket_of libm_pow sat with
  | Some z => z =? k
  | None => false
  end.

Definition carriage_return : ascii := ascii_of_nat 13.

(** Lines in the layout of a catalog served with CR LF line ends: every
    line is followed by a carriage return and a newline. *)
Fixpoint crlf_lines (lines : list string) : string :=
  match lines with
  | [] => ""
  | l :: rest =>
      l ++ String carriage_return (String newline (crlf_lines rest))
  end.

Definition render_tle_crlf (records : list satellite) : string :=
  crlf_lines (flat_map (fun r => [name r; line1 r; line2 r]) records).

(** What [split] makes of such a text once its end is stripped: every line
    but the last keeps its carriage return. *)
Fixpoint crlf_pieces (lines : list string) : list string :=
  match lines with
  | [] => []
  | [l] => [l]
  | l :: rest => (l ++ String carriage_return "") :: crlf_pieces rest
  end.

(** * Properties *)

(** ** Slicing and stripping *)

Section StringFacts.

Lemma drop_short (n : nat) (s : string) :
  (String.length s <= n)%nat -> drop n s = "".
Proof.
  revert s; induction n as [|n IH]; intros [|c s] Hlen; simpl in *;
    try reflexivity; try lia.
  apply IH; lia.
Qed.

Lemma take_empty (n : nat) : take n "" = "".
Proof. destruct n; reflexivity. Qed.

Lemma slice_short (lo hi : nat) (s : string) :
  (String.length s <= lo)%nat -> slice lo hi s = "".
Proof.
  intros Hlen. unfold slice. rewrite drop_short by assumption.
  apply take_empty.
Qed.

Lemma lstrip_all (p : ascii -> bool) (s : string) :
  all_chars p s = true -> lstrip_with p s = "".
Proof.
  induction s as [|c s IH]; simpl; [reflexivity|].
  intros [Hc Hs]%andb_prop. rewrite Hc. auto.
Qed.

Lemma strip_blank (s : string) : all_chars is_space s = true -> strip s = "".
Proof.
  intros H. unfold strip, strip_with. rewrite lstrip_all by assumption.
  reflexivity.
Qed.

Lemma rstrip_keeps (p : ascii -> bool) (s : string) :
  all_chars (fun c => negb (p c)) s = true -> rstrip_with p s = s.
Proof.
  induction s as [|c s IH]; simpl; [reflexivity|].
  intros [Hc Hs]%andb_prop. rewrite IH by assumption.
  destruct s; [|reflexivity].
  apply negb_true_iff in Hc. rewrite Hc. reflexivity.
Qed.

Lemma lstrip_keeps (p : ascii -> bool) (s : string) :
  all_chars (fun c => negb (p c)) s = true -> lstrip_with p s = s.
Proof.
  destruct s as [|c s]; simpl; [reflexivity|].
  intros [Hc _]%andb_prop. apply negb_true_iff in Hc. rewrite Hc. reflexivity.
Qed.

Lemma all_chars_impl (p q : ascii -> bool) (s : string) :
  (forall c, p c = true -> q c = true) ->
  all_chars p s = true -> all_chars q s = true.
Proof.
  intros Hpq. induction s as [|c s IH]; simpl; [reflexivity|].
  intros [Hc Hs]%andb_prop. rewrite (Hpq _ Hc). auto.
Qed.

Lemma digit_not_space (c : ascii) : is_digit c = true -> negb (is_space c) = true.
Proof.
  unfold is_digit, is_space. intros H.
  apply andb_prop in H as [H1 H2].
  apply Nat.leb_le in H1, H2.
  apply negb_true_iff.
  repeat (apply orb_false_iff; split);
    try apply andb_false_iff;
    try (apply Nat.eqb_neq; lia).
  all: right; apply Nat.leb_gt; lia.
Qed.

Lemma digit_not_float_space (c : ascii) :
  is_digit c = true -> negb (is_float_space c) = true.
Proof.
  unfold is_digit, is_float_space. intros H.
  apply andb_prop in H as [H1 H2].
  apply Nat.leb_le in H1, H2.
  apply negb_true_iff.
  repeat (apply orb_false_iff; split);
    try apply andb_false_iff;
    try (apply Nat.eqb_neq; lia).
  right; apply Nat.leb_gt; lia.
Qed.

Lemma strip_digits (s : string) : all_chars is_digit s = true -> strip s = s.
Proof.
  intros H.
  assert (Hn : all_chars (fun c => negb (is_space c)) s = true)
    by (revert H; apply all_chars_impl, digit_not_space).
  unfold strip, strip_with. rewrite lstrip_keeps by assumption.
  apply rstrip_keeps; assumption.
Qed.

End StringFacts.

(** ** Parsing a digit field behind ["0."] *)

Section FloatLiteralFacts.

Lemma span_digits_all (d : string) :
  all_chars is_digit d = true -> span_digits d = (d, "").
Proof.
  induction d as [|c d IH]; simpl; [reflexivity|].
  intros [Hc Hd]%andb_prop. rewrite Hc, IH by assumption. reflexivity.
Qed.

Lemma remove_underscores_none (prev : ascii) (s : string) :
  Ascii.eqb prev underscore = false ->
  all_chars (fun c => negb (Ascii.eqb c underscore)) s = true ->
  remove_underscores prev s = Some s.
Proof.
  revert prev; induction s as [|c s IH]; simpl; intros prev Hprev Hs.
  - rewrite Hprev. reflexivity.
  - apply andb_prop in Hs as [Hc Hs]. apply negb_true_iff in Hc.
    rewrite Hc, Hprev. simpl. rewrite IH by assumption. reflexivity.
Qed.

Lemma digit_not_underscore (c : ascii) :
  is_digit c = true -> negb (Ascii.eqb c underscore) = true.
Proof.
  intros H. apply negb_true_iff.
  destruct (Ascii.eqb c underscore) eqn:E; [|reflexivity].
  apply Ascii.eqb_eq in E. subst c. discriminate H.
Qed.

Lemma append_dot_digits (d : string) : "0." ++ d = String "0" (String "." d).
Proof. reflexivity. Qed.

Lemma digits_value_leading_zero (d : string) :
  digits_value (String "0" d) = digits_value d.
Proof. reflexivity. Qed.

(** ["0." ++ d] is a valid literal for every digit string [d], the empty
    one included, and denotes [0.d]. *)
Lemma py_float_dot_digits (d : string) :
  all_chars is_digit d = true ->
  py_float ("0." ++ d)
  = Returns (float_of_decimal false (digits_value d)
               (- Z.of_nat (String.length d))).
Proof.
  intros Hd. rewrite append_dot_digits. unfold py_float.
  assert (Hstrip : strip_with is_float_space (String "0" (String "." d))
                   = String "0" (String "." d)).
  { unfold strip_with.
    change (lstrip_with is_float_space (String "0" (String "." d)))
      with (String "0" (String "." d)).
    apply rstrip_keeps.
    change (all_chars (fun c => negb (is_float_space c)) d = true).
    revert Hd. apply all_chars_impl, digit_not_float_space. }
  rewrite Hstrip.
  rewrite remove_underscores_none.
  - unfold parse_float_literal.
    change (parse_sign (String "0" (String "." d)))
      with (false, String "0" (String "." d)).
    cbv iota beta.
    change (String.eqb (lower_str (String "0" (String "." d))) "inf") with false.
    change (String.eqb (lower_str (String "0" (String "." d))) "infinity") with false.
    change (String.eqb (lower_str (String "0" (String "." d))) "nan") with false.
    cbv iota beta. unfold orb.
    change (span_digits (String "0" (String "." d)))
      with (String "0" EmptyString, String "." d).
    cbv iota beta.
    change (Ascii.eqb "." ".") with true. cbv iota.
    rewrite span_digits_all by assumption.
    change (String.eqb ("0" ++ d) "") with false. cbv iota.
    change (parse_exponent "") with (@None (Z * string)). cbv iota.
    change ("0" ++ d) with (String "0" d).
    rewrite digits_value_leading_zero.
    reflexivity.
  - reflexivity.
  - change (all_chars (fun c => negb (Ascii.eqb c underscore)) d = true).
    revert Hd. apply all_chars_impl, digit_not_underscore.
Qed.

End FloatLiteralFacts.

(** ** Field extractors *)

Lemma extractor_total {A : Type} (body : outcome A) :
  exists r, try_except (bind body (fun f => Returns (Some f))) (fun _ => Returns None)
            = Returns r.
Proof. destruct body; simpl; eauto. Qed.

Lemma extractor_absent {A : Type} (body : outcome A) :
  raised body = true ->
  try_except (bind body (fun f => Returns (Some f))) (fun _ => Returns None)
  = Returns None.
Proof. destruct body; simpl; [discriminate | reflexivity]. Qed.

(** C9: when characters [26:33) of [line2] are missing (the line has at
    most 26 characters) or are all whitespace, the stripped field is empty,
    ["0."] alone is a valid float, and eccentricity extraction returns [0.0]
    rather than [None]. *)
Theorem eccentricity_of_blank_field_is_zero (line2 : string) :
  (String.length line2 <= 26)%nat
  \/ all_chars is_space (slice 26 33 line2) = true ->
  strip (slice 26 33 line2) = ""
  /\ py_float "0." = Returns (S754_zero false)
  /\ Iridium.extract_eccentricity_from_tle line2
     = Returns (Some (S754_zero false)).
Proof.
  intros H.
  assert (Hstrip : strip (slice 26 33 line2) = "").
  { destruct H as [Hlen | Hblank].
    - rewrite slice_short by assumption. reflexivity.
    - apply strip_blank; assumption. }
  split; [assumption|]. split; [reflexivity|].
  unfold Iridium.extract_eccentricity_from_tle. rewrite Hstrip. reflexivity.
Qed.

Lemma eccentricity_of_blank_field_is_zero_witness :
  ((String.length "" <= 26)%nat
   /\ Iridium.extract_eccentricity_from_tle "" = Returns (Some (S754_zero false)))
  /\ (all_chars is_space (slice 26 33 blank_eccentricity_line2) = true
      /\ Iridium.extract_eccentricity_from_tle blank_eccentricity_line2
         = Returns (Some (S754_zero false))).
Proof.
  split; split.
  - simpl; lia.
  - apply (eccentricity_of_blank_field_is_zero ""). left. simpl; lia.
  - reflexivity.
  - apply (eccentricity_of_blank_field_is_zero blank_eccentricity_line2).
    right. reflexivity.
Defined.

(** C2, as stated, fails for the eccentricity extractor: on the empty
    [line2] the substring [26:33) is empty, which is not a valid float, yet
    the extractor returns [0.0]. *)
Lemma extractors_absent_on_invalid_substring_counterexample :
  ~ (forall line2 : string,
       raised (py_float (slice 26 33 line2)) = true ->
       Iridium.extract_eccentricity_from_tle line2 = Returns None).
Proof.
  intros H. specialize (H "" eq_refl). discriminate H.
Qed.

(** C2, amended: no extractor raises; inclination and mean motion are
    [None] whenever the stripped substring is not a valid float, and
    eccentricity is [None] whenever ["0."] followed by the stripped
    substring is not one; on a [line2] too short to reach the columns,
    inclination and mean motion are [None]. *)
Theorem extractors_absent_on_invalid_field (line2 : string) :
  ((exists r, Iridium.extract_inclination_from_tle line2 = Returns r)
   /\ (exists r, Iridium.extract_eccentricity_from_tle line2 = Returns r)
   /\ (exists r, Iridium.extract_mean_motion_from_tle line2 = Returns r))
  /\ (raised (py_float (strip (slice 8 16 line2))) = true ->
      Iridium.extract_inclination_from_tle line2 = Returns None)
  /\ (raised (py_float ("0." ++ strip (slice 26 33 line2))) = true ->
      Iridium.extract_eccentricity_from_tle line2 = Returns None)
  /\ (raised (py_float (strip (slice 52 63 line2))) = true ->
      Iridium.extract_mean_motion_from_tle line2 = Returns None)
  /\ ((String.length line2 <= 8)%nat ->
      Iridium.extract_inclination_from_tle line2 = Returns None)
  /\ ((String.length line2 <= 52)%nat ->
      Iridium.extract_mean_motion_from_tle line2 = Returns None).
Proof.
  refine (conj (conj _ (conj _ _)) (conj _ (conj _ (conj _ (conj _ _))))).
  - apply extractor_total.
  - apply extractor_total.
  - apply extractor_total.
  - apply extractor_absent.
  - apply extractor_absent.
  - apply extractor_absent.
  - intros Hlen. unfold Iridium.extract_inclination_from_tle.
    rewrite slice_short by assumption. reflexivity.
  - intros Hlen. unfold Iridium.extract_mean_motion_from_tle.
    rewrite slice_short by assumption. reflexivity.
Qed.

Lemma extractors_absent_on_invalid_field_witness :
  Iridium.extract_inclination_from_tle malformed_line2 = Returns None
  /\ Iridium.extract_eccentricity_from_tle malformed_line2 = Returns None
  /\ Iridium.extract_mean_motion_from_tle malformed_line2 = Returns None
  /\ Iridium.extract_inclination_from_tle "2 44713" = Returns None
  /\ Iridium.extract_mean_motion_from_tle "2 44713" = Returns None.
Proof.
  destruct (extractors_absent_on_invalid_field malformed_line2)
    as (_ & Hinc & Hecc & Hmm & _ & _).
  destruct (extractors_absent_on_invalid_field "2 44713")
    as (_ & _ & _ & _ & Hinc_short & Hmm_short).
  refine (conj _ (conj _ (conj _ (conj _ _)))).
  - apply Hinc. reflexivity.
  - apply Hecc. reflexivity.
  - apply Hmm. reflexivity.
  - apply Hinc_short. simpl; lia.
  - apply Hmm_short. simpl; lia.
Defined.

(** C5: when characters [26:33) of [line2] are a digit string [d], the
    eccentricity is the float that ["0." + d] denotes, the binary64 number
    nearest to [0.d]; the field ["0001234"] gives the float [0.0001234]. *)
Theorem eccentricity_of_digit_field (line2 d : string) :
  slice 26 33 line2 = d ->
  all_chars is_digit d = true ->
  py_float ("0." ++ d)
  = Returns (float_of_decimal false (digits_value d) (- Z.of_nat (String.length d)))
  /\ Iridium.extract_eccentricity_from_tle line2 = bind (py_float ("0." ++ d))
                                                     (fun f => Returns (Some f))
  /\ (d = "0001234" ->
      Iridium.extract_eccentricity_from_tle line2
      = Returns (Some (float_of_decimal false 1234 (-7)))).
Proof.
  intros Hslice Hd.
  assert (Hecc : Iridium.extract_eccentricity_from_tle line2
                 = bind (py_float ("0." ++ d)) (fun f => Returns (Some f))).
  { unfold Iridium.extract_eccentricity_from_tle.
    rewrite Hslice, strip_digits by assumption.
    rewrite py_float_dot_digits by assumption. reflexivity. }
  split; [apply py_float_dot_digits; assumption|].
  split; [assumption|].
  intros ->. rewrite Hecc. reflexivity.
Qed.

Lemma eccentricity_of_digit_field_witness :
  slice 26 33 sample_line2 = "0001234"
  /\ all_chars is_digit "0001234" = true
  /\ Iridium.extract_eccentricity_from_tle sample_line2
     = Returns (Some (float_of_decimal false 1234 (-7)))
  /\ float_of_decimal false 1234 (-7)
     = S754_finite false 4552656437391517 (-65).
Proof.
  split; [reflexivity|]. split; [reflexivity|]. split.
  - apply (eccentricity_of_digit_field sample_line2 "0001234");
      reflexivity.
  - reflexivity.
Defined.

(** ** Grouping catalog lines into records *)

Section Grouping.

Context {A B : Type}.

Lemma flat_map_singletons (f : A -> list B) (g : A -> B) (l : list A) :
  (forall x, In x l -> f x = [g x]) -> flat_map f l = map g l.
Proof.
  induction l as [|a l IH]; intros H; simpl; [reflexivity|].
  rewrite (H a) by (left; reflexivity). simpl. f_equal.
  apply IH. intros x Hx. apply H. right; assumption.
Qed.

Lemma flat_map_nils (f : A -> list B) (l : list A) :
  (forall x, In x l -> f x = []) -> flat_map f l = [].
Proof.
  induction l as [|a l IH]; intros H; simpl; [reflexivity|].
  rewrite (H a) by (left; reflexivity). simpl.
  apply IH. intros x Hx. apply H. right; assumption.
Qed.

End Grouping.

Lemma flat_map_of_map {A B C : Type} (f : B -> list C) (h : A -> B) (l : list A) :
  flat_map f (map h l) = flat_map (fun x => f (h x)) l.
Proof. induction l as [|a l IH]; simpl; [reflexivity | rewrite IH; reflexivity]. Qed.

Lemma group_lines_spec (tle_data : list string) :
  group_lines tle_data
  = map (record_at tle_data) (seq 0 (length tle_data / 3)).
Proof.
  unfold group_lines, range. set (n := length tle_data).
  rewrite flat_map_of_map.
  replace ((n - 0 + (3 - 1)) / 3)%nat
    with (n / 3 + ((n + 2) / 3 - n / 3))%nat.
  2:{ assert (n / 3 <= (n + 2) / 3)%nat
        by (apply Nat.Div0.div_le_mono; lia).
      replace (n - 0 + (3 - 1))%nat with (n + 2)%nat by lia. lia. }
  rewrite seq_app, flat_map_app.
  rewrite (flat_map_singletons _ (record_at tle_data)).
  - rewrite flat_map_nils; [apply app_nil_r|].
    intros j [Hlo Hhi]%in_seq.
    assert (Hge : (n <= 0 + j * 3 + 2)%nat).
    { pose proof (Nat.div_mod_eq n 3). pose proof (Nat.mod_upper_bound n 3). lia. }
    apply Nat.ltb_ge in Hge. rewrite Hge. reflexivity.
  - intros j [_ Hhi]%in_seq.
    assert (Hlt : (0 + j * 3 + 2 < n)%nat).
    { pose proof (Nat.div_mod_eq n 3). lia. }
    apply Nat.ltb_lt in Hlt. rewrite Hlt.
    unfold record_at.
    replace (0 + j * 3)%nat with (3 * j)%nat by lia. reflexivity.
Qed.

Example parse_tle_sample :
  parse_tle sample_catalog
  = [Satellite "STARLINK-1008" "1 44714U 19074B" "2 44714  53.0541";
     Satellite "STARLINK-11 [DTC]" "1 60000U" "2 60000  43.0000"].
Proof. reflexivity. Qed.

(** ** The data directory and the cache *)

Section CacheFacts.

(** A cache file lies in the [data] directory. *)
Lemma files_in_data_dir (w : world) (path : string) (entry : Z * cache_file) :
  files w !! path = Some entry -> data_dir_ready w = true.
Proof.
  unfold files, data_dir_ready, data_dir_exists.
  destruct (data_dir w); [reflexivity|]. rewrite lookup_empty. discriminate.
Qed.

(** The world once the data directory is there. *)
Lemma ensure_data_dir_spec (w : world) :
  data_dir_ready w = true ->
  fst (ensure_data_dir w) = Returns "data"
  /\ files (snd (ensure_data_dir w)) = files w
  /\ now (snd (ensure_data_dir w)) = now w
  /\ http_get (snd (ensure_data_dir w)) = http_get w
  /\ writable (snd (ensure_data_dir w)) = writable w
  /\ can_make_dirs (snd (ensure_data_dir w)) = can_make_dirs w
  /\ data_dir_exists (snd (ensure_data_dir w)) = true.
Proof.
  unfold data_dir_ready, ensure_data_dir, files, data_dir_exists.
  destruct (data_dir w) as [cache_files|] eqn:Hdir; cbn [orb fst snd].
  - intros _. rewrite Hdir. auto 10.
  - intros ->. cbn. auto 10.
Qed.


Lemma download_tle_unfold (w : world) (satellite_group : string) :
  data_dir_ready w = true ->
  download_tle w satellite_group
  = let w1 := snd (ensure_data_dir w) in
    let path := cache_path satellite_group in
    if cache_hit w satellite_group
    then (Returns match load_satellites_from_cache w1 path with
                  | Some sats => sats
                  | None => []
                  end, w1)
    else
      match fetch_and_cache w1 path satellite_group with
      | (Returns satellites, w') => (Returns satellites, w')
      | (Raises _, w') =>
          (Returns match load_satellites_from_cache w' path with
                   | Some sats => sats
                   | None => []
                   end, w')
      end.
Proof.
  intros Hready.
  destruct (ensure_data_dir_spec w Hready) as (Hdir & Hfiles & Hnow & _).
  unfold download_tle, get_cache_file_path.
  destruct (ensure_data_dir w) as [r w1]. cbn [fst snd] in *. subst r.
  change ("data" ++ "/" ++ satellite_group ++ ".json")%string
    with (cache_path satellite_group).
  unfold cache_hit, is_cache_valid, load_satellites_from_cache, path_exists.
  rewrite Hfiles, Hnow.
  destruct (files w !! cache_path satellite_group)
    as [[mtime [|ts [|sat sats]]]|] eqn:Hlookup; cbn zeta;
    try destruct (_ <? _); try reflexivity;
    (destruct (fetch_and_cache _ _ _) as [[r|e] w']; [reflexivity|]);
    destruct (files w' !! cache_path satellite_group) as [[? [|? [|? ?]]]|];
    reflexivity.
Qed.

Lemma save_satellites_world (w : world) (path : string)
  (satellites : list satellite) :
  let w' := save_satellites_to_cache w path satellites in
  files w'
  = (if data_dir_exists w && writable w
     then <[path := (now w, CacheEntry (now w) satellites)]> (files w)
     else files w)
  /\ now w' = now w /\ http_get w' = http_get w
  /\ writable w' = writable w /\ can_make_dirs w' = can_make_dirs w
  /\ data_dir_exists w' = data_dir_exists w.
Proof.
  unfold save_satellites_to_cache, files, data_dir_exists.
  destruct (data_dir w) as [cache_files|] eqn:Hdir; cbn [andb].
  - destruct (writable w) eqn:Hw; cbn; rewrite ?Hdir, ?Hw; auto 10.
  - cbn. rewrite Hdir. auto 10.
Qed.

Lemma fetch_and_cache_world (w : world) (path satellite_group : string) :
  let w' := snd (fetch_and_cache w path satellite_group) in
  (forall p, p <> path -> files w' !! p = files w !! p)
  /\ now w' = now w /\ http_get w' = http_get w
  /\ writable w' = writable w /\ can_make_dirs w' = can_make_dirs w
  /\ data_dir_exists w' = data_dir_exists w.
Proof.
  unfold fetch_and_cache.
  destruct (http_get w (url_of satellite_group)) as [|status_code text];
    [cbn; auto 10|].
  destruct (negb (status_code =? 200)); [cbn; auto 10|].
  cbn [snd].
  destruct (save_satellites_world w path (parse_tle text))
    as (Hfiles & Hrest).
  split; [|exact Hrest].
  intros p Hp. rewrite Hfiles.
  destruct (data_dir_exists w && writable w); [|reflexivity].
  apply lookup_insert_ne. congruence.
Qed.

Lemma cache_hit_later (w : world) (satellite_group : string)
  (elapsed : Z) (http_get' : string -> http_result) mtime timestamp sat sats :
  files w !! cache_path satellite_group
  = Some (mtime, CacheEntry timestamp (sat :: sats)) ->
  now w + elapsed - mtime < 86400 ->
  cache_hit (later w elapsed http_get') satellite_group = true.
Proof.
  intros Hfile Hage. unfold cache_hit.
  change (files (later w elapsed http_get')) with (files w).
  change (now (later w elapsed http_get')) with (now w + elapsed).
  rewrite Hfile. apply Z.ltb_lt. lia.
Qed.

Lemma download_tle_hit (w : world) (satellite_group : string)
  mtime timestamp sat sats :
  files w !! cache_path satellite_group
  = Some (mtime, CacheEntry timestamp (sat :: sats)) ->
  now w - mtime < 86400 ->
  fst (download_tle w satellite_group) = Returns (sat :: sats)
  /\ files (snd (download_tle w satellite_group)) = files w.
Proof.
  intros Hfile Hage.
  pose proof (files_in_data_dir _ _ _ Hfile) as Hready.
  rewrite download_tle_unfold by assumption. cbn zeta.
  destruct (ensure_data_dir_spec w Hready) as (_ & Hfiles & _).
  unfold cache_hit. rewrite Hfile.
  replace (now w - mtime <? 24 * 3600) with true
    by (symmetry; apply Z.ltb_lt; lia).
  cbn [fst snd]. unfold load_satellites_from_cache. rewrite Hfiles, Hfile.
  auto.
Qed.

Lemma download_tle_fetched (w : world) (satellite_group text : string) :
  data_dir_ready w = true ->
  cache_hit w satellite_group = false ->
  http_get w (url_of satellite_group) = Response 200 text ->
  fst (download_tle w satellite_group) = Returns (parse_tle text)
  /\ files (snd (download_tle w satellite_group))
     = if writable w
       then <[cache_path satellite_group
              := (now w, CacheEntry (now w) (parse_tle text))]> (files w)
       else files w.
Proof.
  intros Hready Hmiss Hget. rewrite download_tle_unfold, Hmiss by assumption.
  cbn zeta.
  destruct (ensure_data_dir_spec w Hready)
    as (_ & Hfiles & Hnow & Hhttp & Hwr & _ & Hdir).
  unfold fetch_and_cache. rewrite Hhttp, Hget.
  change (negb (200 =? 200)) with false. cbv iota. cbn [fst snd].
  destruct (save_satellites_world (snd (ensure_data_dir w))
              (cache_path satellite_group) (parse_tle text)) as (Hsaved & _).
  rewrite Hsaved, Hdir, Hwr, Hnow, Hfiles. cbn [andb]. split; reflexivity.
Qed.

Lemma download_tle_world (w : world) (satellite_group : string) :
  data_dir_ready w = true ->
  (exists satellites, fst (download_tle w satellite_group) = Returns satellites)
  /\ data_dir_exists (snd (download_tle w satellite_group)) = true
  /\ now (snd (download_tle w satellite_group)) = now w
  /\ http_get (snd (download_tle w satellite_group)) = http_get w
  /\ writable (snd (download_tle w satellite_group)) = writable w
  /\ (forall p, p <> cache_path satellite_group ->
        files (snd (download_tle w satellite_group)) !! p = files w !! p).
Proof.
  intros Hready. rewrite download_tle_unfold by assumption. cbn zeta.
  destruct (ensure_data_dir_spec w Hready)
    as (_ & Hfiles & Hnow & Hhttp & Hwr & _ & Hdir).
  destruct (cache_hit w satellite_group).
  { cbn [fst snd]. rewrite Hfiles. repeat split; eauto. }
  pose proof (fetch_and_cache_world (snd (ensure_data_dir w))
                (cache_path satellite_group) satellite_group) as Hworld.
  cbn zeta in Hworld.
  destruct (fetch_and_cache _ _ _) as [[r|e] w'] eqn:Hfetch; cbn [fst snd] in *;
    destruct Hworld as (Hf & Hn & Hh & Hwri & _ & Hd);
    rewrite Hn, Hh, Hwri, Hd, Hnow, Hhttp, Hwr, Hdir;
    (split; [eauto|]); repeat split;
    intros p Hp; rewrite Hf, Hfiles by assumption; reflexivity.
Qed.

End CacheFacts.

(** ** Fallback to the cache when the fetch fails *)





(** ** Snapping an inclination to the known values *)

Lemma within_known (x tolerance : float) (k : Z) :
  In k Starlink.known_inclinations ->
  within x k tolerance = Returns (fleb (fabs (fsub x (float_of_Z k))) tolerance).
Proof.
  unfold Starlink.known_inclinations.
  intros [<- | [<- | [<- | [<- | []]]]]; reflexivity.
Qed.

(** The loop returns the first member within the tolerance. *)
Lemma snap_known (x tolerance : float) :
  Starlink.snap x tolerance Starlink.known_inclinations
  = Returns
      (if fleb (fabs (fsub x (float_of_Z 43))) tolerance then Some 43
       else if fleb (fabs (fsub x (float_of_Z 53))) tolerance then Some 53
       else if fleb (fabs (fsub x (float_of_Z 70))) tolerance then Some 70
       else if fleb (fabs (fsub x (float_of_Z 97))) tolerance then Some 97
       else None).
Proof.
  unfold Starlink.known_inclinations, Starlink.snap.
  rewrite !within_known by (unfold Starlink.known_inclinations; simpl; tauto).
  unfold bind.
  repeat (destruct (fleb _ tolerance); [reflexivity|]).
  reflexivity.
Qed.

Lemma starlink_round_inclination_returns (x tolerance : float) :
  exists v, Starlink.round_inclination x tolerance = Returns v.
Proof.
  unfold Starlink.round_inclination. rewrite snap_known. unfold bind.
  repeat (destruct (fleb _ tolerance); [eauto|]). eauto.
Qed.

Example snap_96_6 :
  Starlink.round_inclination (float_of_decimal false 966 (-1))
    Starlink.default_tolerance
  = Returns (PInt 97).
Proof. reflexivity. Qed.

Example snap_60_0 :
  Starlink.round_inclination (float_of_decimal false 600 (-1))
    Starlink.default_tolerance
  = Returns (PFloat (float_of_decimal false 600 (-1))).
Proof. reflexivity. Qed.

(** C3: the policy is meant to return the nearest known inclination within
    the tolerance.  For the inclination [52.0] and the tolerance [10.0] the
    nearest member, [53], is within the tolerance, but the loop stops at
    the first member within it and returns [43]. *)
Theorem round_inclination_first_match_not_nearest :
  let inclination := float_of_decimal false 520 (-1) in
  let tolerance := float_of_decimal false 100 (-1) in
  Starlink.round_inclination inclination tolerance = Returns (PInt 43)
  /\ In 53 Starlink.known_inclinations
  /\ within inclination 53 tolerance = Returns true
  /\ fsub inclination (float_of_Z 53) = float_of_Z (-1)
  /\ fsub inclination (float_of_Z 43) = float_of_Z 9
  /\ fltb (fabs (fsub inclination (float_of_Z 53)))
          (fabs (fsub inclination (float_of_Z 43))) = true.
Proof.
  cbv zeta. refine (conj _ (conj _ (conj _ (conj _ (conj _ _)))));
    try (vm_compute; reflexivity).
  unfold Starlink.known_inclinations. simpl. tauto.
Qed.

(** ** Which records reach which aggregate *)

Section IridiumRun.

Lemma fold_bind_raises {S X : Type} (step : S -> X -> outcome S)
  (l : list X) (e : exn) :
  fold_left (fun acc x => bind acc (fun s => step s x)) l (Raises e) = Raises e.
Proof. induction l as [|x l IH]; simpl; [reflexivity | apply IH]. Qed.

Lemma classify_from (satellites main dtc : list satellite) :
  fold_left
    (fun '(main_satellites, dtc_satellites) sat =>
       if contains "[DTC]" (name sat)
       then (main_satellites, (dtc_satellites ++ [sat])%list)
       else ((main_satellites ++ [sat])%list, dtc_satellites))
    satellites (main, dtc)
  = ((main ++ List.filter (fun sat => negb (is_dtc sat)) satellites)%list,
     (dtc ++ List.filter is_dtc satellites)%list).
Proof.
  revert main dtc; induction satellites as [|sat sats IH]; intros main dtc; simpl.
  - rewrite !app_nil_r. reflexivity.
  - unfold is_dtc. destruct (contains "[DTC]" (name sat)); simpl;
      rewrite IH, <- ?app_assoc; reflexivity.
Qed.

Lemma classify_spec (satellites : list satellite) :
  Iridium.classify satellites
  = (List.filter (fun sat => negb (is_dtc sat)) satellites,
     List.filter is_dtc satellites).
Proof. unfold Iridium.classify. rewrite classify_from. reflexivity. Qed.

Lemma filter_partition_length (satellites : list satellite) :
  (length (List.filter (fun sat => negb (is_dtc sat)) satellites)
   + length (List.filter is_dtc satellites))%nat
  = length satellites.
Proof.
  induction satellites as [|sat sats IH]; simpl; [reflexivity|].
  destruct (is_dtc sat); simpl; lia.
Qed.

Lemma tally_inclinations_from (subset : list satellite)
  (incs0 : list float) (counts0 : list (pynum * nat))
  (incs : list float) (counts : list (pynum * nat)) :
  fold_left
    (fun acc sat =>
       bind acc (fun '(inclinations, inclination_counts) =>
       bind (Iridium.extract_inclination_from_tle (line2 sat)) (fun inclination =>
         match inclination with
         | Some inclination =>
             bind (Iridium.round_inclination inclination Iridium.default_tolerance)
               (fun rounded_inc =>
                  Returns ((inclinations ++ [inclination])%list,
                           Iridium.increment rounded_inc inclination_counts))
         | None => Returns (inclinations, inclination_counts)
         end)))
    subset (Returns (incs0, counts0))
  = Returns (incs, counts) ->
  incs = (incs0 ++ parsed Iridium.extract_inclination_from_tle subset)%list.
Proof.
  revert incs0 counts0; induction subset as [|sat sats IH];
    intros incs0 counts0; simpl.
  - intros [= <- <-]. rewrite app_nil_r. reflexivity.
  - destruct (Iridium.extract_inclination_from_tle (line2 sat))
      as [[inclination|]|e]; simpl.
    + destruct (Iridium.round_inclination inclination Iridium.default_tolerance)
        as [rounded_inc|e]; simpl.
      * intros H. apply IH in H. rewrite <- app_assoc in H. exact H.
      * rewrite fold_bind_raises. discriminate.
    + apply IH.
    + rewrite fold_bind_raises. discriminate.
Qed.

Lemma tally_inclinations_spec (subset : list satellite)
  (incs : list float) (counts : list (pynum * nat)) :
  Iridium.tally_inclinations subset = Returns (incs, counts) ->
  incs = parsed Iridium.extract_inclination_from_tle subset.
Proof. intros H. apply tally_inclinations_from in H. exact H. Qed.

Lemma collect_parameters_from (subset : list satellite) (eccs0 mms0 : list float) :
  fold_left
    (fun acc sat =>
       bind acc (fun '(eccentricities, mean_motions) =>
       bind (Iridium.extract_eccentricity_from_tle (line2 sat)) (fun ecc =>
       bind (Iridium.extract_mean_motion_from_tle (line2 sat)) (fun mm =>
         Returns
           (match ecc with Some e => (eccentricities ++ [e])%list | None => eccentricities end,
            match mm with Some m => (mean_motions ++ [m])%list | None => mean_motions end)))))
    subset (Returns (eccs0, mms0))
  = Returns ((eccs0 ++ parsed Iridium.extract_eccentricity_from_tle subset)%list,
             (mms0 ++ parsed Iridium.extract_mean_motion_from_tle subset)%list).
Proof.
  revert eccs0 mms0; induction subset as [|sat sats IH]; intros eccs0 mms0; simpl.
  - rewrite !app_nil_r. reflexivity.
  - destruct (extractor_total (py_float ("0." ++ strip (slice 26 33 (line2 sat)))))
      as [ecc Hecc].
    destruct (extractor_total (py_float (strip (slice 52 63 (line2 sat)))))
      as [mm Hmm].
    unfold Iridium.extract_eccentricity_from_tle,
      Iridium.extract_mean_motion_from_tle in *.
    rewrite Hecc, Hmm. simpl. rewrite IH.
    destruct ecc, mm; simpl; rewrite <- ?app_assoc, ?app_nil_r; reflexivity.
Qed.

Lemma collect_parameters_spec (subset : list satellite) :
  Iridium.collect_parameters subset
  = Returns (parsed Iridium.extract_eccentricity_from_tle subset,
             parsed Iridium.extract_mean_motion_from_tle subset).
Proof. unfold Iridium.collect_parameters. apply collect_parameters_from. Qed.

End IridiumRun.

Section StarlinkRun.

Variable libm_pow : float -> float -> float.

Lemma extract_orbital_elements_returns (line1 line2 : string) :
  exists r,
    Starlink.extract_orbital_elements_from_tle libm_pow line1 line2 = Returns r.
Proof.
  unfold Starlink.extract_orbital_elements_from_tle.
  destruct (bind _ _); simpl; eauto.
Qed.

Lemma visit_spec (g : Starlink.groups) (sat : satellite) :
  exists g',
    Starlink.visit libm_pow g sat = Returns g'
    /\ Starlink.main_satellites g'
       = (Starlink.main_satellites g
          ++ (if derivable libm_pow sat && negb (is_dtc sat) then [sat] else []))%list
    /\ Starlink.dtc_satellites g'
       = (Starlink.dtc_satellites g
          ++ (if derivable libm_pow sat && is_dtc sat then [sat] else []))%list
    /\ (length (Starlink.main_altitudes g) = length (Starlink.main_satellites g) ->
        length (Starlink.main_altitudes g') = length (Starlink.main_satellites g'))
    /\ (length (Starlink.dtc_altitudes g) = length (Starlink.dtc_satellites g) ->
        length (Starlink.dtc_altitudes g') = length (Starlink.dtc_satellites g')).
Proof.
  unfold Starlink.visit, derivable, is_dtc.
  destruct (extract_orbital_elements_returns (line1 sat) (line2 sat)) as [r ->].
  destruct r as [elements|]; simpl.
  - destruct (starlink_round_inclination_returns
                (Starlink.inclination elements) Starlink.default_tolerance)
      as [rounded_inc ->]; simpl.
    destruct (contains "[DTC]" (name sat)); simpl;
      (eexists; split; [reflexivity|]); simpl;
      rewrite ?app_nil_r, ?length_app; simpl;
      repeat split; auto; lia.
  - exists g. rewrite !app_nil_r. auto.
Qed.

Lemma visit_all_from (satellites : list satellite) (g0 : Starlink.groups) :
  exists g,
    fold_left (fun acc sat => bind acc (fun g => Starlink.visit libm_pow g sat))
      satellites (Returns g0) = Returns g
    /\ Starlink.main_satellites g
       = (Starlink.main_satellites g0
          ++ List.filter (fun sat => derivable libm_pow sat && negb (is_dtc sat)) satellites)%list
    /\ Starlink.dtc_satellites g
       = (Starlink.dtc_satellites g0
          ++ List.filter (fun sat => derivable libm_pow sat && is_dtc sat) satellites)%list
    /\ (length (Starlink.main_altitudes g0) = length (Starlink.main_satellites g0) ->
        length (Starlink.main_altitudes g) = length (Starlink.main_satellites g))
    /\ (length (Starlink.dtc_altitudes g0) = length (Starlink.dtc_satellites g0) ->
        length (Starlink.dtc_altitudes g) = length (Starlink.dtc_satellites g)).
Proof.
  revert g0; induction satellites as [|sat sats IH]; intros g0; simpl.
  - exists g0. rewrite !app_nil_r. auto.
  - destruct (visit_spec g0 sat) as (g1 & -> & Hmain1 & Hdtc1 & Hma1 & Hda1).
    destruct (IH g1) as (g & Hfold & Hmain & Hdtc & Hma & Hda).
    exists g. split; [exact Hfold|].
    refine (conj _ (conj _ (conj _ _))).
    + rewrite Hmain, Hmain1, <- app_assoc.
      destruct (derivable libm_pow sat && negb (is_dtc sat)); reflexivity.
    + rewrite Hdtc, Hdtc1, <- app_assoc.
      destruct (derivable libm_pow sat && is_dtc sat); reflexivity.
    + intros H0. apply Hma, Hma1, H0.
    + intros H0. apply Hda, Hda1, H0.
Qed.

Lemma visit_all_spec (satellites : list satellite) :
  exists g,
    Starlink.visit_all libm_pow satellites = Returns g
    /\ Starlink.main_satellites g
       = List.filter (fun sat => derivable libm_pow sat && negb (is_dtc sat)) satellites
    /\ Starlink.dtc_satellites g
       = List.filter (fun sat => derivable libm_pow sat && is_dtc sat) satellites
    /\ length (Starlink.main_altitudes g) = length (Starlink.main_satellites g)
    /\ length (Starlink.dtc_altitudes g) = length (Starlink.dtc_satellites g).
Proof.
  destruct (visit_all_from satellites Starlink.no_groups)
    as (g & Hfold & Hmain & Hdtc & Hma & Hda).
  exists g. repeat split; auto.
Qed.

End StarlinkRun.

(** C1, as stated, fails in the Starlink report: a record whose line 2 does
    not parse is skipped before the DTC/main split, so it is in neither
    subset. *)
Lemma parse_failure_keeps_subset_membership_counterexample :
  ~ (forall (libm_pow : float -> float -> float) (satellites : list satellite)
            (n : nat) (g : Starlink.groups) (sat : satellite),
       Starlink.create_altitude_histogram libm_pow satellites = Returns (Some (n, g)) ->
       In sat satellites ->
       Starlink.extract_orbital_elements_from_tle libm_pow (line1 sat) (line2 sat)
       = Returns None ->
       In sat (Starlink.main_satellites g) \/ In sat (Starlink.dtc_satellites g)).
Proof.
  intros H.
  destruct (H Starlink.reference_pow [unparsable_record] 1%nat Starlink.no_groups
              unparsable_record) as [[] | []].
  - reflexivity.
  - left; reflexivity.
  - reflexivity.
Qed.

(** C1, amended.  In the Iridium report every record counts in the total
    and in its DTC or main subset whatever parses, and a field that fails
    to parse leaves the record out of the list of that field only.  In the
    Starlink report every record counts in the total, and the DTC and main
    subsets and the altitude lists hold exactly the records whose orbital
    elements are derived. *)
Theorem parse_failure_exclusion_per_report :
  (forall (float_sum : list float -> float) (satellites : list satellite)
          (r : Iridium.report),
     Iridium.analyze_iridium_inclinations float_sum satellites = Returns (Some r) ->
     Iridium.total r = length satellites
     /\ Iridium.main_satellites r
        = List.filter (fun sat => negb (is_dtc sat)) satellites
     /\ Iridium.dtc_satellites r = List.filter is_dtc satellites
     /\ (length (Iridium.main_satellites r) + length (Iridium.dtc_satellites r))%nat
        = length satellites
     /\ Iridium.main_inclinations r
        = parsed Iridium.extract_inclination_from_tle (Iridium.main_satellites r)
     /\ Iridium.dtc_inclinations r
        = parsed Iridium.extract_inclination_from_tle (Iridium.dtc_satellites r)
     /\ Iridium.eccentricities r
        = parsed Iridium.extract_eccentricity_from_tle (Iridium.main_satellites r)
     /\ Iridium.mean_motions r
        = parsed Iridium.extract_mean_motion_from_tle (Iridium.main_satellites r))
  /\ (forall (libm_pow : float -> float -> float) (sat : satellite)
             (sats : list satellite),
        exists g,
          Starlink.create_altitude_histogram libm_pow (sat :: sats)
          = Returns (Some (length (sat :: sats), g))
          /\ Starlink.main_satellites g
             = List.filter (fun s => derivable libm_pow s && negb (is_dtc s))
                 (sat :: sats)
          /\ Starlink.dtc_satellites g
             = List.filter (fun s => derivable libm_pow s && is_dtc s) (sat :: sats)
          /\ length (Starlink.main_altitudes g) = length (Starlink.main_satellites g)
          /\ length (Starlink.dtc_altitudes g) = length (Starlink.dtc_satellites g)).
Proof.
  split.
  - intros float_sum satellites r. unfold Iridium.analyze_iridium_inclinations.
    destruct satellites as [|sat sats]; [discriminate|].
    set (satellites := sat :: sats).
    rewrite classify_spec.
    set (main := List.filter _ satellites).
    set (dtc := List.filter is_dtc satellites).
    destruct (Iridium.tally_inclinations main) as [[main_inc main_counts]|e] eqn:Hmain;
      [|discriminate].
    simpl bind.
    assert (Hdtc : forall dtc_inc dtc_counts,
               match dtc with
               | [] => Returns ([], [])
               | _ :: _ => Iridium.tally_inclinations dtc
               end = Returns (dtc_inc, dtc_counts) ->
               dtc_inc = parsed Iridium.extract_inclination_from_tle dtc).
    { intros dtc_inc dtc_counts. destruct dtc.
      - intros [= <- <-]. reflexivity.
      - apply tally_inclinations_spec. }
    destruct (match dtc with [] => _ | _ => _ end)
      as [[dtc_inc dtc_counts]|e]; [|discriminate].
    simpl bind. rewrite collect_parameters_spec. cbn [bind].
    destruct (Iridium.average_period float_sum _) as [period|e]; [|discriminate].
    cbn [bind]. intros [= <-]. simpl.
    refine (conj eq_refl (conj eq_refl (conj eq_refl (conj _ (conj _ (conj _
              (conj eq_refl eq_refl))))))).
    + apply filter_partition_length.
    + apply tally_inclinations_spec in Hmain. exact Hmain.
    + apply (Hdtc _ _ eq_refl).
  - intros libm_pow sat sats.
    destruct (visit_all_spec libm_pow (sat :: sats))
      as (g & Hg & Hmain & Hdtc & Hma & Hda).
    exists g. unfold Starlink.create_altitude_histogram.
    rewrite Hg. auto.
Qed.

Lemma parse_failure_exclusion_per_report_witness :
  Iridium.analyze_iridium_inclinations Iridium.reference_sum sample_run
  = Returns (Some sample_report)
  /\ Iridium.total sample_report = 3%nat
  /\ length (Iridium.main_satellites sample_report) = 2%nat
  /\ length (Iridium.dtc_satellites sample_report) = 1%nat
  /\ length (Iridium.main_inclinations sample_report) = 1%nat
  /\ Iridium.main_inclinations sample_report
     = parsed Iridium.extract_inclination_from_tle
         (Iridium.main_satellites sample_report).
Proof.
  assert (Hrun : Iridium.analyze_iridium_inclinations Iridium.reference_sum
                   sample_run
                 = Returns (Some sample_report)) by (vm_compute; reflexivity).
  destruct (proj1 parse_failure_exclusion_per_report Iridium.reference_sum
              sample_run sample_report Hrun)
    as (Htotal & _ & _ & _ & Hinc & _).
  refine (conj Hrun (conj Htotal (conj _ (conj _ (conj _ Hinc)))));
    vm_compute; reflexivity.
Defined.

(** ** Orbit derivation *)

Section Derivation.

Variable libm_pow : float -> float -> float.

(** The arithmetic of [derive] with the conversions of the [int] constants
    carried out. *)
Lemma derive_unfold (mean_motion inclination : float) :
  Starlink.derive libm_pow mean_motion inclination
  = bind (fdiv f_1440 mean_motion) (fun orbital_period_minutes =>
    bind (float_pow libm_pow (fmul orbital_period_minutes f_60) f_2) (fun squared =>
    bind (num_mul squared (PFloat Starlink.MU)) (fun numerator =>
    bind (float_pow libm_pow Starlink.PI_LITERAL f_2) (fun pi_squared =>
    bind (num_mul (PInt 4) pi_squared) (fun denominator =>
    bind (num_div numerator denominator) (fun a_cubed =>
    bind (num_pow libm_pow a_cubed (PFloat one_third)) (fun semi_major_axis =>
    bind (num_sub semi_major_axis (PFloat Starlink.EARTH_RADIUS)) (fun altitude =>
      Returns (Starlink.OrbitalElements inclination mean_motion
                 orbital_period_minutes semi_major_axis altitude))))))))).
Proof. reflexivity. Qed.

(** Squaring never yields a [complex]. *)
Lemma float_pow_2_is_float (v : float) (r : pynum) :
  float_pow libm_pow v f_2 = Returns r -> exists squared, r = PFloat squared.
Proof.
  unfold float_pow.
  change (is_zero f_2) with false. change (is_nan f_2) with false.
  change (is_inf f_2) with false. change (is_integer f_2) with true.
  change (negb true) with false. rewrite andb_false_r.
  cbv iota.
  repeat match goal with
         | |- context [if ?b then _ else _] => destruct b
         end;
    intros [= <-] || discriminate; eauto.
Qed.

Lemma num_mul_floats (a b : float) :
  num_mul (PFloat a) (PFloat b) = Returns (PFloat (fmul a b)).
Proof. reflexivity. Qed.

Lemma num_mul_4 (b : float) :
  num_mul (PInt 4) (PFloat b) = Returns (PFloat (fmul f_4 b)).
Proof. reflexivity. Qed.

Lemma num_div_floats (a b : float) :
  num_div (PFloat a) (PFloat b)
  = if is_zero b then Raises ZeroDivisionError
    else Returns (PFloat (SFdiv prec emax a b)).
Proof. reflexivity. Qed.

Lemma num_pow_floats (a b : float) :
  num_pow libm_pow (PFloat a) (PFloat b) = float_pow libm_pow a b.
Proof. reflexivity. Qed.

Lemma num_sub_float_r (a : pynum) (b : float) (r : pynum) :
  num_sub a (PFloat b) = Returns r ->
  r = match a with
      | PFloat x => PFloat (fsub x b)
      | PComplex => PComplex
      | PInt z => PFloat (fsub (float_of_Z z) b)
      end.
Proof.
  destruct a as [z|x|]; unfold num_sub, num_binop, as_float, float_of_int;
    cbn [bind].
  - destruct (is_inf (float_of_Z z)); cbn [bind]; [discriminate|].
    intros [= <-]. reflexivity.
  - intros [= <-]. reflexivity.
  - intros [= <-]. reflexivity.
Qed.

(** What [derive] returns, step by step. *)
Lemma derive_returns (mean_motion inclination : float)
  (elements : Starlink.orbital_elements) :
  Starlink.derive libm_pow mean_motion inclination = Returns elements ->
  is_zero mean_motion = false
  /\ Starlink.inclination elements = inclination
  /\ Starlink.mean_motion elements = mean_motion
  /\ Starlink.orbital_period_minutes elements
     = SFdiv prec emax f_1440 mean_motion
  /\ exists squared pi_squared : float,
       float_pow libm_pow
         (fmul (Starlink.orbital_period_minutes elements) f_60) f_2
       = Returns (PFloat squared)
       /\ float_pow libm_pow Starlink.PI_LITERAL f_2 = Returns (PFloat pi_squared)
       /\ is_zero (fmul f_4 pi_squared) = false
       /\ float_pow libm_pow
            (SFdiv prec emax (fmul squared Starlink.MU) (fmul f_4 pi_squared))
            one_third
          = Returns (Starlink.semi_major_axis elements)
       /\ Starlink.altitude elements
          = match Starlink.semi_major_axis elements with
            | PFloat a => PFloat (fsub a Starlink.EARTH_RADIUS)
            | PComplex => PComplex
            | PInt z => PFloat (fsub (float_of_Z z) Starlink.EARTH_RADIUS)
            end.
Proof.
  rewrite derive_unfold. unfold fdiv.
  destruct (is_zero mean_motion); [discriminate|]. cbn [bind].
  destruct (float_pow libm_pow (fmul _ f_60) f_2) as [r|e] eqn:Hsq;
    [|discriminate].
  destruct (float_pow_2_is_float _ _ Hsq) as [squared ->]. cbn [bind].
  rewrite num_mul_floats. cbn [bind].
  destruct (float_pow libm_pow Starlink.PI_LITERAL f_2) as [r|e] eqn:Hpi;
    [|discriminate].
  destruct (float_pow_2_is_float _ _ Hpi) as [pi_squared ->]. cbn [bind].
  rewrite num_mul_4. cbn [bind]. rewrite num_div_floats.
  destruct (is_zero (fmul f_4 pi_squared)) eqn:Hden; [discriminate|].
  cbn [bind]. rewrite num_pow_floats.
  destruct (float_pow libm_pow _ one_third) as [sma|e] eqn:Hsma; [|discriminate].
  cbn [bind].
  destruct (num_sub sma (PFloat Starlink.EARTH_RADIUS)) as [alt|e] eqn:Halt;
    [|discriminate].
  cbn [bind]. intros [= <-]. cbn.
  apply num_sub_float_r in Halt.
  refine (conj eq_refl (conj eq_refl (conj eq_refl (conj eq_refl _)))).
  exists squared, pi_squared. auto.
Qed.

Lemma extract_orbital_elements_some (line1 line2 : string)
  (elements : Starlink.orbital_elements) :
  Starlink.extract_orbital_elements_from_tle libm_pow line1 line2
  = Returns (Some elements) ->
  exists mean_motion inclination,
    py_float (strip (slice 52 63 line2)) = Returns mean_motion
    /\ py_float (strip (slice 8 16 line2)) = Returns inclination
    /\ Starlink.derive libm_pow mean_motion inclination = Returns elements.
Proof.
  unfold Starlink.extract_orbital_elements_from_tle.
  destruct (py_float (strip (slice 52 63 line2))) as [m|e]; [|discriminate].
  destruct (py_float (strip (slice 8 16 line2))) as [i|e]; [|discriminate].
  cbn [bind].
  destruct (Starlink.derive libm_pow m i) as [elems|e] eqn:Hd; [|discriminate].
  cbn. intros [= <-]. exists m, i. auto.
Qed.

(** A power of floats is a [float] or a [complex], never an [int]. *)
Lemma float_pow_not_int (v w : float) (z : Z) :
  float_pow libm_pow v w <> Returns (PInt z).
Proof.
  unfold float_pow.
  repeat match goal with
         | |- context [if ?b then _ else _] => destruct b
         end;
    discriminate.
Qed.

End Derivation.

(** C6: for a record whose mean motion parses to a non-zero float [m], the
    derived elements have [orbital_period_minutes = 1440.0 / m]; the
    semi-major axis is [a_cubed ** (1/3)] for
    [a_cubed = ((period * 60) ** 2 * 398600.4418) / (4 * 3.14159265359 ** 2)];
    the altitude is the semi-major axis minus [6378.137]; the literal for pi
    agrees with pi to 12 significant digits. *)
Theorem derived_elements_follow_kepler
  (libm_pow : float -> float -> float) (line1 line2 : string)
  (m : float) (elements : Starlink.orbital_elements) :
  py_float (strip (slice 52 63 line2)) = Returns m ->
  is_zero m = false ->
  Starlink.extract_orbital_elements_from_tle libm_pow line1 line2
  = Returns (Some elements) ->
  Starlink.mean_motion elements = m
  /\ fdiv (float_of_decimal false 14400 (-1)) m
     = Returns (Starlink.orbital_period_minutes elements)
  /\ (exists squared pi_squared : float,
        float_pow libm_pow
          (fmul (Starlink.orbital_period_minutes elements) (float_of_Z 60))
          (float_of_Z 2)
        = Returns (PFloat squared)
        /\ float_pow libm_pow (float_of_decimal false 314159265359 (-11))
             (float_of_Z 2)
           = Returns (PFloat pi_squared)
        /\ float_pow libm_pow
             (SFdiv prec emax
                (fmul squared (float_of_decimal false 3986004418 (-4)))
                (fmul (float_of_Z 4) pi_squared))
             (SFdiv prec emax (float_of_Z 1) (float_of_Z 3))
           = Returns (Starlink.semi_major_axis elements))
  /\ num_sub (Starlink.semi_major_axis elements)
       (PFloat (float_of_decimal false 6378137 (-3)))
     = Returns (Starlink.altitude elements)
  /\ (exists mantissa : positive,
        float_of_decimal false 314159265359 (-11) = S754_finite false mantissa (-51)
        /\ 3141592653589 * 2 ^ 51 < Zpos mantissa * 10 ^ 12
           < 3141592653591 * 2 ^ 51).
Proof.
  intros Hm Hnz Hex.
  destruct (extract_orbital_elements_some _ _ _ _ Hex) as (m' & i & Hm' & _ & Hd).
  rewrite Hm in Hm'. injection Hm' as <-.
  destruct (derive_returns _ _ _ _ Hd)
    as (_ & _ & Hmean & Hperiod & squared & pi_squared & Hsq & Hpi & _ & Hsma & Halt).
  refine (conj Hmean (conj _ (conj _ (conj _ _)))).
  - unfold fdiv. rewrite Hnz, Hperiod. reflexivity.
  - exists squared, pi_squared. auto.
  - rewrite Halt. destruct (Starlink.semi_major_axis elements) as [z|a|].
    + destruct (float_pow_not_int libm_pow _ _ _ Hsma).
    + reflexivity.
    + reflexivity.
  - eexists. split; [vm_compute; reflexivity|]. vm_compute. split; reflexivity.
Qed.

(** Mean motion 15.06391223 rev/day: a period of about 95.59 minutes and an
    altitude of about 547.2 km. *)
Lemma derived_elements_follow_kepler_witness :
  py_float (strip (slice 52 63 sample_line2))
  = Returns (float_of_decimal false 1506391223 (-8))
  /\ Starlink.extract_orbital_elements_from_tle Starlink.reference_pow
       "1 44713U" sample_line2
     = Returns (Some sample_elements)
  /\ fdiv (float_of_decimal false 14400 (-1)) (float_of_decimal false 1506391223 (-8))
     = Returns (Starlink.orbital_period_minutes sample_elements)
  /\ num_sub (Starlink.semi_major_axis sample_elements)
       (PFloat (float_of_decimal false 6378137 (-3)))
     = Returns (Starlink.altitude sample_elements)
  /\ Starlink.altitude sample_elements
     = PFloat (S754_finite false 4813560384619784 (-43)).
Proof.
  assert (Hm : py_float (strip (slice 52 63 sample_line2))
               = Returns (float_of_decimal false 1506391223 (-8)))
    by (vm_compute; reflexivity).
  assert (Hex : Starlink.extract_orbital_elements_from_tle Starlink.reference_pow
                  "1 44713U" sample_line2
                = Returns (Some sample_elements))
    by (vm_compute; reflexivity).
  destruct (derived_elements_follow_kepler Starlink.reference_pow
              "1 44713U" sample_line2 _ sample_elements Hm eq_refl Hex)
    as (_ & Hperiod & _ & Halt & _).
  refine (conj Hm (conj Hex (conj Hperiod (conj Halt _)))).
  vm_compute; reflexivity.
Defined.

(** ** When the derivation is absent *)

(** C7, as stated, fails: with mean motion [1e-200] both fields parse and
    the mean motion is not zero, but squaring the period of [8.64e204]
    seconds overflows, [**] raises [OverflowError], and the result is
    [None]. *)
Lemma derivation_absent_exactly_on_parse_or_zero_counterexample :
  ~ (forall (libm_pow : float -> float -> float) (line1 line2 : string),
       Starlink.extract_orbital_elements_from_tle libm_pow line1 line2 = Returns None
       <-> (raised (py_float (strip (slice 52 63 line2))) = true
            \/ raised (py_float (strip (slice 8 16 line2))) = true
            \/ exists m, py_float (strip (slice 52 63 line2)) = Returns m
                         /\ is_zero m = true)).
Proof.
  intros H.
  destruct (proj1 (H Starlink.reference_pow "1 44713U" tiny_mean_motion_line2))
    as [Hmm | [Hinc | (m & Hm & Hzero)]].
  - vm_compute; reflexivity.
  - vm_compute in Hmm. discriminate Hmm.
  - vm_compute in Hinc. discriminate Hinc.
  - vm_compute in Hm. injection Hm as <-. discriminate Hzero.
Qed.

(** C7, amended: the derivation never raises; it is absent exactly when the
    mean motion or the inclination does not parse or the arithmetic on the
    parsed values raises; that arithmetic raises [ZeroDivisionError] for a
    zero mean motion, and raises whatever squaring the period in seconds
    raises ([OverflowError] when the square exceeds the float range). *)
Theorem derivation_absent_on_parse_or_arithmetic_error
  (libm_pow : float -> float -> float) (line1 line2 : string) :
  (exists r,
     Starlink.extract_orbital_elements_from_tle libm_pow line1 line2 = Returns r)
  /\ (Starlink.extract_orbital_elements_from_tle libm_pow line1 line2 = Returns None
      <-> (raised (py_float (strip (slice 52 63 line2))) = true
           \/ raised (py_float (strip (slice 8 16 line2))) = true
           \/ exists m i,
                py_float (strip (slice 52 63 line2)) = Returns m
                /\ py_float (strip (slice 8 16 line2)) = Returns i
                /\ raised (Starlink.derive libm_pow m i) = true))
  /\ (forall m i, is_zero m = true ->
        Starlink.derive libm_pow m i = Raises ZeroDivisionError)
  /\ (forall m i e, is_zero m = false ->
        float_pow libm_pow (fmul (SFdiv prec emax f_1440 m) f_60) f_2 = Raises e ->
        Starlink.derive libm_pow m i = Raises e).
Proof.
  refine (conj _ (conj _ (conj _ _))).
  - apply extract_orbital_elements_returns.
  - unfold Starlink.extract_orbital_elements_from_tle.
    destruct (py_float (strip (slice 52 63 line2))) as [m|e]; cbn [bind].
    2:{ cbn. split; auto. }
    destruct (py_float (strip (slice 8 16 line2))) as [i|e]; cbn [bind].
    2:{ cbn. split; auto. }
    destruct (Starlink.derive libm_pow m i) as [elements|e] eqn:Hd; cbn.
    + split; [discriminate|].
      intros [H | [H | (m' & i' & [= <-] & [= <-] & H)]]; try discriminate.
      rewrite Hd in H. discriminate H.
    + split; [|reflexivity]. intros _. right; right.
      exists m, i. rewrite Hd. auto.
  - intros m i Hzero. rewrite derive_unfold. unfold fdiv. rewrite Hzero.
    reflexivity.
  - intros m i e Hnz Hsq. rewrite derive_unfold. unfold fdiv. rewrite Hnz.
    cbn [bind]. rewrite Hsq. reflexivity.
Qed.

Lemma derivation_absent_on_parse_or_arithmetic_error_witness :
  Starlink.extract_orbital_elements_from_tle Starlink.reference_pow
    "1 44713U" tiny_mean_motion_line2 = Returns None
  /\ Starlink.derive Starlink.reference_pow (float_of_decimal false 1 (-200))
       (float_of_decimal false 530541 (-4))
     = Raises OverflowError
  /\ Starlink.derive Starlink.reference_pow (S754_zero false)
       (float_of_decimal false 530541 (-4))
     = Raises ZeroDivisionError.
Proof.
  destruct (derivation_absent_on_parse_or_arithmetic_error Starlink.reference_pow
              "1 44713U" tiny_mean_motion_line2)
    as (_ & Hiff & Hzero & Hsquare).
  refine (conj _ (conj _ _)).
  - apply Hiff. right; right.
    exists (float_of_decimal false 1 (-200)), (float_of_decimal false 530541 (-4)).
    refine (conj _ (conj _ _)); vm_compute; reflexivity.
  - apply Hsquare; vm_compute; reflexivity.
  - apply Hzero. reflexivity.
Defined.

(** ** Exact binary64 computations *)

Section Binary64Facts.

Lemma digits_bounds (m : positive) :
  2 ^ (Zpos (digits2_pos m) - 1) <= Zpos m < 2 ^ Zpos (digits2_pos m).
Proof.
  induction m as [m IH | m IH |]; cbn [digits2_pos].
  - rewrite Pos2Z.inj_succ.
    replace (Z.succ (Zpos (digits2_pos m)) - 1)
      with (Z.succ (Zpos (digits2_pos m) - 1)) by lia.
    rewrite !Z.pow_succ_r by lia. lia.
  - rewrite Pos2Z.inj_succ.
    replace (Z.succ (Zpos (digits2_pos m)) - 1)
      with (Z.succ (Zpos (digits2_pos m) - 1)) by lia.
    rewrite !Z.pow_succ_r by lia. lia.
  - simpl. lia.
Qed.

Lemma digits_le (m : positive) (k : Z) :
  0 <= k -> Zpos m < 2 ^ k -> Zpos (digits2_pos m) <= k.
Proof.
  intros Hk Hlt.
  destruct (Z_le_gt_dec (Zpos (digits2_pos m)) k) as [|Hgt]; [assumption|].
  pose proof (digits_bounds m) as [Hlo _].
  assert (2 ^ k <= 2 ^ (Zpos (digits2_pos m) - 1))
    by (apply Z.pow_le_mono_r; lia).
  lia.
Qed.

Lemma pow2_le_inv (a b : Z) : 0 <= b -> 2 ^ a <= 2 ^ b -> a <= b.
Proof.
  intros Hb H. destruct (Z_le_gt_dec a b) as [|Hgt]; [assumption|].
  assert (2 ^ b < 2 ^ a) by (apply Z.pow_lt_mono_r; lia). lia.
Qed.

Lemma pow2_pos (a : Z) : 0 <= a -> 0 < 2 ^ a.
Proof. intros. apply Z.pow_pos_nonneg; lia. Qed.

Lemma pos_iter_xO_value (n p : positive) :
  Zpos (Pos.iter xO n p) = Zpos n * 2 ^ Zpos p.
Proof.
  induction p as [|p IH] using Pos.peano_ind.
  - simpl. lia.
  - rewrite Pos.iter_succ, Pos2Z.inj_succ, Z.pow_succ_r by lia.
    rewrite Pos2Z.inj_xO, IH. lia.
Qed.

Lemma pos_iter_xO_digits (n p : positive) :
  digits2_pos (Pos.iter xO n p) = (digits2_pos n + p)%positive.
Proof.
  induction p as [|p IH] using Pos.peano_ind.
  - simpl. lia.
  - rewrite Pos.iter_succ. cbn [digits2_pos]. rewrite IH. lia.
Qed.

Lemma iter_pos_nat {X : Type} (f : X -> X) (p : positive) (x : X) :
  SpecFloat.iter_pos f p x = Nat.iter (Pos.to_nat p) f x.
Proof.
  revert x; induction p as [p IH | p IH |]; intros x; cbn [SpecFloat.iter_pos].
  - rewrite !IH, Pos2Nat.inj_xI, <- Nat.iter_add, <- Nat.iter_succ_r.
    f_equal. lia.
  - rewrite !IH, Pos2Nat.inj_xO, <- Nat.iter_add. f_equal. lia.
  - reflexivity.
Qed.

Lemma shr_1_undoes_xO (k : nat) (n : positive) :
  Nat.iter k shr_1 (Build_shr_record (Zpos (Nat.iter k xO n)) false false)
  = Build_shr_record (Zpos n) false false.
Proof.
  induction k as [|k IH]; [reflexivity|].
  rewrite Nat.iter_succ_r. cbn [Nat.iter nat_rect shr_1 orb]. exact IH.
Qed.

Lemma shr_undoes_shl (n p : positive) :
  SpecFloat.iter_pos shr_1 p (Build_shr_record (Zpos (Pos.iter xO n p)) false false)
  = Build_shr_record (Zpos n) false false.
Proof.
  rewrite iter_pos_nat, Pos2Nat.inj_iter. apply shr_1_undoes_xO.
Qed.

(** The canonical exponent of binary64. *)
Lemma fexp_unfold (k : Z) : fexp prec emax k = Z.max (k - 53) (-1074).
Proof. reflexivity. Qed.

(** Rounding a canonical mantissa changes nothing. *)
Lemma binary_round_aux_canonical (s : bool) (m : positive) (e : Z) :
  canonical_mantissa prec emax m e = true ->
  e <= 971 ->
  binary_round_aux prec emax s (Zpos m) e loc_Exact = S754_finite s m e.
Proof.
  unfold canonical_mantissa. intros Hcanon%Z.eqb_eq Hmax.
  unfold binary_round_aux, shr_fexp. cbn [Zdigits2 shr_record_of_loc].
  rewrite Hcanon, Z.sub_diag.
  cbn [shr shr_m loc_of_shr_record round_nearest_even Zdigits2 shr_record_of_loc].
  rewrite Hcanon, Z.sub_diag. cbn [shr shr_m].
  change (emax - prec) with 971.
  apply Z.leb_le in Hmax. rewrite Hmax. reflexivity.
Qed.

(** [binary_round] is exact when the canonical exponent is not above the
    given one: it only shifts the mantissa left. *)
Lemma binary_round_exact (s : bool) (m : positive) (e : Z) :
  fexp prec emax (Zpos (digits2_pos m) + e) <= e ->
  fexp prec emax (Zpos (digits2_pos m) + e) <= 971 ->
  exists m',
    binary_round prec emax s m e
    = S754_finite s m' (fexp prec emax (Zpos (digits2_pos m) + e))
    /\ Zpos m' = Zpos m * 2 ^ (e - fexp prec emax (Zpos (digits2_pos m) + e))
    /\ canonical_mantissa prec emax m'
         (fexp prec emax (Zpos (digits2_pos m) + e)) = true.
Proof.
  set (e' := fexp prec emax (Zpos (digits2_pos m) + e)).
  intros Hle Hmax. unfold binary_round. fold e'. unfold shl_align.
  destruct (e' - e) as [|d|d] eqn:Hd; [| lia |].
  - assert (e' = e) by lia.
    exists m. replace (e - e') with 0 by lia.
    assert (Hcanon : canonical_mantissa prec emax m e' = true).
    { unfold canonical_mantissa. apply Z.eqb_eq. subst e'. congruence. }
    refine (conj _ (conj _ Hcanon)); [|simpl; lia].
    replace e with e' by assumption.
    apply binary_round_aux_canonical; assumption.
  - exists (Pos.iter xO m d).
    assert (Hcanon : canonical_mantissa prec emax (Pos.iter xO m d) e' = true).
    { unfold canonical_mantissa. apply Z.eqb_eq.
      rewrite pos_iter_xO_digits, Pos2Z.inj_add.
      replace (Zpos (digits2_pos m) + Zpos d + e')
        with (Zpos (digits2_pos m) + e) by lia.
      reflexivity. }
    refine (conj _ (conj _ Hcanon)).
    + apply binary_round_aux_canonical; assumption.
    + rewrite pos_iter_xO_value. f_equal. f_equal. lia.
Qed.

(** A normal mantissa shifted left, at exponent 0, rounds back to itself. *)
Lemma binary_round_shifted (s : bool) (m p : positive) :
  Zpos (digits2_pos m) = 53 ->
  Zpos p <= 971 ->
  binary_round prec emax s (Pos.iter xO m p) 0 = S754_finite s m (Zpos p).
Proof.
  intros Hdigits Hmax.
  assert (Hfexp : fexp prec emax (Zpos (digits2_pos (Pos.iter xO m p)) + 0) = Zpos p).
  { rewrite fexp_unfold, pos_iter_xO_digits, Pos2Z.inj_add, Hdigits. lia. }
  unfold binary_round. rewrite Hfexp. unfold shl_align.
  change (Zpos p - 0) with (Zpos p). cbv iota.
  unfold binary_round_aux, shr_fexp. cbn [Zdigits2 shr_record_of_loc].
  rewrite Hfexp. change (Zpos p - 0) with (Zpos p). cbn [shr].
  rewrite shr_undoes_shl.
  cbn [shr_m loc_of_shr_record round_nearest_even Zdigits2 shr_record_of_loc].
  replace (fexp prec emax (Zpos (digits2_pos m) + (0 + Zpos p)) - (0 + Zpos p))
    with 0 by (rewrite fexp_unfold, Hdigits; lia).
  cbn [shr shr_m]. change (emax - prec) with 971.
  replace (0 + Zpos p <=? 971) with true by (symmetry; apply Z.leb_le; lia).
  reflexivity.
Qed.

Lemma shl_align_value (m : positive) (e e' : Z) :
  e' <= e -> Zpos (fst (shl_align m e e')) = Zpos m * 2 ^ (e - e').
Proof.
  intros Hle. unfold shl_align.
  destruct (e' - e) as [|d|d] eqn:Hd; [| lia |]; cbn [fst].
  - replace (e - e') with 0 by lia. simpl. lia.
  - rewrite pos_iter_xO_value. f_equal. f_equal. lia.
Qed.

Lemma f_0_5_value : f_0_5 = S754_finite false 4503599627370496 (-53).
Proof. vm_compute. reflexivity. Qed.

(** A positive value [m * 2^e] of at most 1/2 has [digits m + e <= 0]. *)
Lemma half_exponent_sum (m : positive) (e : Z) :
  -1074 <= e ->
  Zpos m * 2 ^ (e + 1074) <= 2 ^ 1073 ->
  Zpos (digits2_pos m) + e <= 0.
Proof.
  intros He Hval.
  pose proof (digits_bounds m) as [Hlo _].
  set (d := Zpos (digits2_pos m)) in *.
  assert (Hd : 0 < d) by (subst d; lia).
  assert (H : 2 ^ (d - 1 + (e + 1074)) <= 2 ^ 1073).
  { rewrite Z.pow_add_r by lia.
    apply Z.le_trans with (Zpos m * 2 ^ (e + 1074)); [|assumption].
    apply Z.mul_le_mono_nonneg_r; [apply Z.pow_nonneg; lia | assumption]. }
  apply pow2_le_inv in H; [|lia].
  clear Hval Hlo. lia.
Qed.

Lemma half_mantissa (m : positive) :
  Zpos m * 2 ^ 1021 <= 2 ^ 1073 -> Zpos m <= 4503599627370496.
Proof.
  intros Hval.
  assert (Hsplit : 2 ^ 1073 = 2 ^ 52 * 2 ^ 1021).
  { rewrite <- Z.pow_add_r by lia. apply f_equal. reflexivity. }
  rewrite Hsplit in Hval.
  apply Z.mul_le_mono_pos_r in Hval; [exact Hval | apply pow2_pos; lia].
Qed.

Lemma compare_cont_le (m c : positive) :
  Zpos m <= Zpos c ->
  match Pos.compare_cont Eq m c with Lt | Eq => true | Gt => false end = true.
Proof.
  intros Hm.
  pose proof (Pos.compare_spec m c) as Hc. unfold Pos.compare in Hc.
  destruct Hc as [Hc | Hc | Hc]; [reflexivity | reflexivity | lia].
Qed.

(** A canonical float of value at most 1/2 compares [<= 0.5]. *)
Lemma canonical_le_half (m : positive) (e : Z) :
  canonical_mantissa prec emax m e = true ->
  Zpos m * 2 ^ (e + 1074) <= 2 ^ 1073 ->
  fleb (S754_finite false m e) f_0_5 = true.
Proof.
  unfold canonical_mantissa. rewrite fexp_unfold. intros Hcanon%Z.eqb_eq Hval.
  assert (Hmin : -1074 <= e) by lia.
  pose proof (half_exponent_sum m e Hmin Hval) as Hsum.
  rewrite f_0_5_value. unfold fleb, SFleb, SFcompare.
  destruct (Z.compare_spec e (-53)) as [Heq | Hlt | Hgt].
  - subst e. apply compare_cont_le. exact (half_mantissa m Hval).
  - reflexivity.
  - clear Hval. lia.
Qed.

(** The nearest integer is within half a unit: with [d = 2^(-e)],
    [|m - R * d| <= d / 2]. *)
Lemma round_half_even_close (m e : Z) :
  0 < m -> e < 0 ->
  0 <= round_half_even m e
  /\ 2 * Z.abs (m - round_half_even m e * 2 ^ (- e)) <= 2 ^ (- e).
Proof.
  intros Hm He. unfold round_half_even.
  replace (0 <=? e) with false by (symmetry; apply Z.leb_gt; lia).
  assert (Hd : 0 < 2 ^ (- e)) by (apply pow2_pos; lia).
  set (d := 2 ^ (- e)) in *.
  pose proof (Z.div_mod m d ltac:(lia)) as Hdm.
  pose proof (Z.mod_pos_bound m d Hd) as Hr.
  assert (Hq : 0 <= m / d) by (apply Z.div_pos; lia).
  destruct (Z.compare_spec (2 * (m mod d)) d) as [Heq | Hlt | Hgt].
  - destruct (Z.even (m / d)); split; try lia; nia.
  - split; [lia | nia].
  - split; [lia | nia].
Qed.

End Binary64Facts.

(** ** Rounding to the nearest integer with the default tolerance *)

Section NearestInteger.

Lemma half_value_bound (n : positive) (e : Z) :
  -1074 <= e <= 0 ->
  2 * Zpos n <= 2 ^ (- e) ->
  Zpos n * 2 ^ (e + 1074) <= 2 ^ 1073.
Proof.
  intros He Hval.
  assert (Hpow : 2 ^ (- e) * 2 ^ (e + 1074) = 2 * 2 ^ 1073).
  { rewrite <- Z.pow_add_r by lia.
    replace (- e + (e + 1074)) with (Z.succ 1073) by lia.
    apply Z.pow_succ_r. lia. }
  assert (Hpos : 0 < 2 ^ (e + 1074)) by (apply pow2_pos; lia).
  apply (Z.mul_le_mono_nonneg_r _ _ (2 ^ (e + 1074))) in Hval; [|lia].
  rewrite Hpow in Hval. lia.
Qed.

(** Rounding a positive value of at most 1/2 gives a float [<= 0.5]. *)
Lemma binary_round_le_half (s : bool) (n : positive) (e : Z) :
  -53 <= e <= 0 ->
  2 * Zpos n <= 2 ^ (- e) ->
  fleb (fabs (binary_round prec emax s n e)) f_0_5 = true.
Proof.
  intros He Hval.
  assert (Hdigits : Zpos (digits2_pos n) <= - e)
    by (apply digits_le; lia).
  pose proof (fexp_unfold (Zpos (digits2_pos n) + e)) as Hfexp.
  destruct (binary_round_exact s n e) as (m' & -> & Hm' & Hcanon); [lia | lia |].
  set (e' := fexp prec emax (Zpos (digits2_pos n) + e)) in *.
  cbn [fabs SFabs]. apply canonical_le_half; [exact Hcanon|].
  rewrite Hm', <- Z.mul_assoc, <- Z.pow_add_r by lia.
  replace (e - e' + (e' + 1074)) with (e + 1074) by lia.
  apply half_value_bound; [lia | assumption].
Qed.

(** Two floats of the same sign whose exact difference is at most 1/2 in
    magnitude subtract to a float of magnitude [<= 0.5]. *)
Lemma fsub_within_half (s : bool) (mx my : positive) (ex ey : Z) :
  -53 <= Z.min ex ey <= 0 ->
  2 * Z.abs (Zpos mx * 2 ^ (ex - Z.min ex ey) - Zpos my * 2 ^ (ey - Z.min ex ey))
  <= 2 ^ (- Z.min ex ey) ->
  fleb (fabs (fsub (S754_finite s mx ex) (S754_finite s my ey))) f_0_5 = true.
Proof.
  intros He Hclose. unfold fsub, SFsub.
  set (ez := Z.min ex ey) in *.
  rewrite !shl_align_value by lia.
  set (a := Zpos mx * 2 ^ (ex - ez)) in *.
  set (b := Zpos my * 2 ^ (ey - ez)) in *.
  replace (cond_Zopp s a - cond_Zopp s b) with (cond_Zopp s (a - b))
    by (destruct s; simpl; lia).
  assert (Habs : 2 * Z.abs (cond_Zopp s (a - b)) <= 2 ^ (- ez))
    by (destruct s; simpl; lia).
  destruct (cond_Zopp s (a - b)) as [|n|n]; unfold binary_normalize.
  - reflexivity.
  - apply binary_round_le_half; [assumption | lia].
  - apply binary_round_le_half; [assumption | lia].
Qed.

Lemma fsub_same (s : bool) (m : positive) (e : Z) :
  fsub (S754_finite s m e) (S754_finite s m e) = S754_zero false.
Proof.
  unfold fsub, SFsub, shl_align.
  rewrite Z.min_id, Z.sub_diag. reflexivity.
Qed.

Lemma float_of_Z_signed (s : bool) (n : positive) :
  float_of_Z (cond_Zopp s (Zpos n)) = binary_round prec emax s n 0.
Proof. destruct s; reflexivity. Qed.

(** What validity says about a finite binary64 number. *)
Lemma valid_finite (s : bool) (m : positive) (e : Z) :
  valid_binary prec emax (S754_finite s m e) = true ->
  canonical_mantissa prec emax m e = true
  /\ -1074 <= e <= 971
  /\ Zpos (digits2_pos m) <= 53
  /\ (0 <= e -> Zpos (digits2_pos m) = 53).
Proof.
  cbn [valid_binary]. unfold bounded. intros [Hcanon Hmax]%andb_prop.
  split; [assumption|].
  unfold canonical_mantissa in Hcanon. rewrite fexp_unfold in Hcanon.
  apply Z.eqb_eq in Hcanon. apply Z.leb_le in Hmax.
  change (emax - prec) with 971 in Hmax. lia.
Qed.

Lemma rounded_below (m R d B : Z) :
  2 <= d -> 0 < m < B -> 2 * Z.abs (m - R * d) <= d -> R < B.
Proof. intros Hd Hm Hclose. nia. Qed.

Lemma exponent_when_rounded_up (m R e : Z) :
  e < 0 -> 0 < m < 2 ^ 53 -> 0 < R ->
  2 * Z.abs (m - R * 2 ^ (- e)) <= 2 ^ (- e) ->
  -53 <= e.
Proof.
  intros He Hm HR Hclose.
  assert (Hd : 0 < 2 ^ (- e)) by (apply pow2_pos; lia).
  assert (Hle : 2 ^ (- e) <= 2 * m) by nia.
  destruct (Z_le_gt_dec (-53) e) as [|Hgt]; [assumption|].
  assert (Hbig : 2 ^ 54 <= 2 ^ (- e)) by (apply Z.pow_le_mono_r; lia).
  change (2 ^ 54) with (2 * 2 ^ 53) in Hbig. lia.
Qed.

(** A valid float with a non-negative exponent is an integer, and
    converting that integer back gives the same float. *)
Lemma float_of_round_integral (s : bool) (m : positive) (e : Z) :
  valid_binary prec emax (S754_finite s m e) = true ->
  0 <= e ->
  float_of_Z (cond_Zopp s (round_half_even (Zpos m) e)) = S754_finite s m e.
Proof.
  intros (Hcanon & He & _ & Hdigits)%valid_finite Hnonneg.
  specialize (Hdigits Hnonneg).
  unfold round_half_even.
  replace (0 <=? e) with true by (symmetry; apply Z.leb_le; assumption).
  destruct e as [|p|p]; [| | lia].
  - change (2 ^ 0) with 1. rewrite Z.mul_1_r, float_of_Z_signed.
    assert (Hfexp : fexp prec emax (Zpos (digits2_pos m) + 0) = 0)
      by (rewrite fexp_unfold; lia).
    destruct (binary_round_exact s m 0) as (m' & -> & Hm' & _);
      rewrite ?Hfexp; try lia.
    rewrite Hfexp in Hm'. change (2 ^ (0 - 0)) with 1 in Hm'.
    rewrite Z.mul_1_r in Hm'. injection Hm' as ->. reflexivity.
  - rewrite <- pos_iter_xO_value, float_of_Z_signed.
    apply binary_round_shifted; [assumption | lia].
Qed.

(** For every finite float, [abs(x - round(x)) <= 0.5] holds in float
    arithmetic. *)
Lemma within_half_of_rounded (x : float) :
  valid_binary prec emax x = true ->
  is_finite x = true ->
  exists n, round_int x = Returns n /\ within x n f_0_5 = Returns true.
Proof.
  intros Hvalid Hfinite. destruct x as [s | s | | s m e]; try discriminate.
  { exists 0. split; [reflexivity|]. destruct s; reflexivity. }
  exists (cond_Zopp s (round_half_even (Zpos m) e)).
  split; [reflexivity|]. unfold within, float_of_int.
  destruct (Z_le_gt_dec 0 e) as [Hnonneg | Hneg].
  { rewrite float_of_round_integral by assumption. cbn [is_inf bind].
    rewrite fsub_same. reflexivity. }
  destruct (valid_finite _ _ _ Hvalid) as (Hcanon & He & Hdigits & _).
  pose proof (digits_bounds m) as [_ Hm].
  assert (Hm53 : Zpos m < 2 ^ 53).
  { apply Z.lt_le_trans with (2 ^ Zpos (digits2_pos m)); [assumption|].
    apply Z.pow_le_mono_r; lia. }
  destruct (round_half_even_close (Zpos m) e) as [HR Hclose]; [lia | lia |].
  destruct (round_half_even (Zpos m) e) as [|R|R] eqn:HRdef; [| | lia].
  - (* the nearest integer is 0 *)
    replace (cond_Zopp s 0) with 0 by (destruct s; reflexivity).
    change (float_of_Z 0) with (S754_zero false). cbn [is_inf bind].
    change (fsub (S754_finite s m e) (S754_zero false)) with (S754_finite s m e).
    cbn [fabs SFabs]. f_equal.
    apply canonical_le_half; [assumption|].
    apply half_value_bound; [lia|].
    rewrite Z.mul_0_l, Z.sub_0_r in Hclose. lia.
  - (* the nearest integer is not 0 *)
    rewrite float_of_Z_signed.
    assert (Hd2 : 2 <= 2 ^ (- e)).
    { change 2 with (2 ^ 1) at 1. apply Z.pow_le_mono_r; lia. }
    assert (HR53 : Zpos R < 2 ^ 53)
      by (apply (rounded_below (Zpos m) (Zpos R) (2 ^ (- e))); lia).
    assert (HRdigits : Zpos (digits2_pos R) <= 53) by (apply digits_le; lia).
    assert (Hexp : -53 <= e)
      by (apply (exponent_when_rounded_up (Zpos m) (Zpos R)); lia).
    pose proof (fexp_unfold (Zpos (digits2_pos R) + 0)) as Hfexp.
    destruct (binary_round_exact s R 0) as (mr & -> & Hmr & _); [lia | lia |].
    set (er := fexp prec emax (Zpos (digits2_pos R) + 0)) in *.
    cbn [is_inf bind]. f_equal.
    assert (Her : -52 <= er <= 0) by lia.
    apply fsub_within_half; [lia|].
    set (ez := Z.min e er) in *.
    assert (Hez : -53 <= ez <= e /\ ez <= er) by lia.
    rewrite Hmr.
    assert (Hshift : 2 ^ (0 - er) * 2 ^ (er - ez) = 2 ^ (e - ez) * 2 ^ (- e)).
    { rewrite <- !Z.pow_add_r by lia. f_equal. lia. }
    assert (Htotal : 2 ^ (- ez) = 2 ^ (e - ez) * 2 ^ (- e)).
    { rewrite <- Z.pow_add_r by lia. f_equal. lia. }
    assert (Hpos : 0 < 2 ^ (e - ez)) by (apply pow2_pos; lia).
    rewrite <- Z.mul_assoc, Hshift, Htotal.
    replace (Zpos m * 2 ^ (e - ez) - Zpos R * (2 ^ (e - ez) * 2 ^ (- e)))
      with (2 ^ (e - ez) * (Zpos m - Zpos R * 2 ^ (- e))) by ring.
    rewrite Z.abs_mul, (Z.abs_eq (2 ^ (e - ez))) by lia.
    rewrite Z.mul_assoc, (Z.mul_comm 2), <- Z.mul_assoc.
    apply Z.mul_le_mono_nonneg_l; [lia | assumption].
Qed.

End NearestInteger.

(** C10: with the default tolerance of 0.5, the nearest-integer policy
    returns [round(x)], the nearest integer with ties to even, for every
    finite float: [abs(x - round(x)) <= 0.5] always holds, so the
    one-decimal-place branch is never taken. *)
Theorem nearest_integer_at_default_tolerance (x : float) :
  valid_binary prec emax x = true ->
  is_finite x = true ->
  exists n,
    round_int x = Returns n
    /\ within x n Iridium.default_tolerance = Returns true
    /\ Iridium.round_inclination x Iridium.default_tolerance = Returns (PInt n).
Proof.
  intros Hvalid Hfinite.
  destruct (within_half_of_rounded x Hvalid Hfinite) as (n & Hround & Hwithin).
  exists n. refine (conj Hround (conj Hwithin _)).
  unfold Iridium.round_inclination, Iridium.default_tolerance.
  rewrite Hround. cbn [bind]. rewrite Hwithin. reflexivity.
Qed.

(** [52.65] rounds to [53], and the tie [52.5] to the even [52]. *)
Lemma nearest_integer_at_default_tolerance_witness :
  (valid_binary prec emax (float_of_decimal false 5265 (-2)) = true
   /\ is_finite (float_of_decimal false 5265 (-2)) = true
   /\ Iridium.round_inclination (float_of_decimal false 5265 (-2))
        Iridium.default_tolerance
      = Returns (PInt 53))
  /\ (valid_binary prec emax (float_of_decimal false 525 (-1)) = true
      /\ is_finite (float_of_decimal false 525 (-1)) = true
      /\ Iridium.round_inclination (float_of_decimal false 525 (-1))
           Iridium.default_tolerance
         = Returns (PInt 52)).
Proof.
  assert (Hv1 : valid_binary prec emax (float_of_decimal false 5265 (-2)) = true)
    by (vm_compute; reflexivity).
  assert (Hf1 : is_finite (float_of_decimal false 5265 (-2)) = true)
    by (vm_compute; reflexivity).
  assert (Hv2 : valid_binary prec emax (float_of_decimal false 525 (-1)) = true)
    by (vm_compute; reflexivity).
  assert (Hf2 : is_finite (float_of_decimal false 525 (-1)) = true)
    by (vm_compute; reflexivity).
  destruct (nearest_integer_at_default_tolerance _ Hv1 Hf1) as (n1 & Hn1 & _ & Hr1).
  destruct (nearest_integer_at_default_tolerance _ Hv2 Hf2) as (n2 & Hn2 & _ & Hr2).
  vm_compute in Hn1. injection Hn1 as <-.
  vm_compute in Hn2. injection Hn2 as <-.
  exact (conj (conj Hv1 (conj Hf1 Hr1)) (conj Hv2 (conj Hf2 Hr2))).
Defined.

(** * Further properties *)

(** ** The cache *)







(** X5: after a fetch that stored at least one record, any call within the
    next 24 hours returns the same records, even if the service then fails
    or answers something else. *)
Theorem download_tle_repeats_from_cache (w : world) (satellite_group text : string)
  (elapsed : Z) (http_get' : string -> http_result) :
  data_dir_ready w = true ->
  cache_hit w satellite_group = false ->
  http_get w (url_of satellite_group) = Response 200 text ->
  writable w = true ->
  parse_tle text <> [] ->
  0 <= elapsed < 86400 ->
  fst (download_tle (later (snd (download_tle w satellite_group)) elapsed http_get')
         satellite_group)
  = fst (download_tle w satellite_group).
Proof.
  intros Hready Hmiss Hget Hw Hrecords Helapsed.
  destruct (download_tle_fetched w satellite_group text Hready Hmiss Hget)
    as [Hr Hf].
  destruct (download_tle_world w satellite_group Hready) as (_ & _ & Hnow & _).
  rewrite Hw in Hf. rewrite Hr.
  destruct (parse_tle text) as [|sat sats] eqn:Hparse; [congruence|].
  refine (proj1 (download_tle_hit _ satellite_group (now w) (now w) sat sats _ _)).
  - change (files (later ?w0 elapsed http_get')) with (files w0).
    rewrite Hf. apply lookup_insert_eq.
  - change (now (later ?w0 elapsed http_get')) with (now w0 + elapsed).
    rewrite Hnow. lia.
Qed.

(** An hour after the fetch the network is down: the records still come
    back. *)
Lemma download_tle_repeats_from_cache_witness :
  fst (download_tle
         (later (snd (download_tle serving_world "starlink")) 3600
            (fun _ => NetworkError))
         "starlink")
  = fst (download_tle serving_world "starlink").
Proof.
  apply (download_tle_repeats_from_cache serving_world "starlink" sample_catalog).
  - reflexivity.
  - reflexivity.
  - reflexivity.
  - reflexivity.
  - discriminate.
  - lia.
Defined.

(** ** Parsing catalog text *)

Section StripFacts.

Variable p : ascii -> bool.

Lemma lstrip_head (s : string) :
  lstrip_with p s = ""
  \/ exists c r, lstrip_with p s = String c r /\ p c = false.
Proof.
  induction s as [|c s IH]; cbn [lstrip_with]; [left; reflexivity|].
  destruct (p c) eqn:Hc; [exact IH|]. right. eauto.
Qed.

Lemma lstrip_of_head (c : ascii) (s : string) :
  p c = false -> lstrip_with p (String c s) = String c s.
Proof. intros Hc. cbn [lstrip_with]. rewrite Hc. reflexivity. Qed.

Lemma rstrip_cons (c : ascii) (s : string) :
  rstrip_with p s <> "" ->
  rstrip_with p (String c s) = String c (rstrip_with p s).
Proof.
  intros Hne. cbn [rstrip_with]. destruct (rstrip_with p s); [congruence|].
  reflexivity.
Qed.

Lemma rstrip_idempotent (s : string) :
  rstrip_with p (rstrip_with p s) = rstrip_with p s.
Proof.
  induction s as [|c s IH]; [reflexivity|]. cbn [rstrip_with].
  destruct (rstrip_with p s) as [|c' r] eqn:Hr.
  - destruct (p c) eqn:Hc; [reflexivity|]. cbn [rstrip_with]. rewrite Hc.
    reflexivity.
  - rewrite rstrip_cons; rewrite IH; [reflexivity | discriminate].
Qed.

(** The first character survives [rstrip] when it is not white space. *)
Lemma rstrip_keeps_head (c : ascii) (s : string) :
  p c = false -> exists r, rstrip_with p (String c s) = String c r.
Proof.
  intros Hc. cbn [rstrip_with]. destruct (rstrip_with p s); [|eauto].
  rewrite Hc. eauto.
Qed.

Lemma strip_idempotent (s : string) :
  strip_with p (strip_with p s) = strip_with p s.
Proof.
  unfold strip_with.
  destruct (lstrip_head s) as [-> | (c & r & -> & Hc)]; [reflexivity|].
  destruct (rstrip_keeps_head c r Hc) as [r' Hr']. rewrite Hr'.
  rewrite lstrip_of_head by assumption. rewrite <- Hr'.
  apply rstrip_idempotent.
Qed.

Lemma rstrip_app (a b : string) :
  rstrip_with p b <> "" ->
  rstrip_with p (a ++ b) = a ++ rstrip_with p b.
Proof.
  intros Hb. induction a as [|c a IH]; [reflexivity|].
  change (String c a ++ b) with (String c (a ++ b)).
  change (String c a ++ rstrip_with p b) with (String c (a ++ rstrip_with p b)).
  rewrite rstrip_cons; rewrite IH; [reflexivity|].
  destruct a; [assumption | discriminate].
Qed.

Lemma all_chars_lstrip (q : ascii -> bool) (s : string) :
  all_chars q s = true -> all_chars q (lstrip_with p s) = true.
Proof.
  induction s as [|c s IH]; [auto|]. cbn [lstrip_with all_chars].
  intros [Hc Hs]%andb_prop. destruct (p c); [auto|].
  cbn [all_chars]. rewrite Hc, Hs. reflexivity.
Qed.

Lemma all_chars_rstrip (q : ascii -> bool) (s : string) :
  all_chars q s = true -> all_chars q (rstrip_with p s) = true.
Proof.
  induction s as [|c s IH]; [auto|]. cbn [rstrip_with all_chars].
  intros [Hc Hs]%andb_prop. specialize (IH Hs).
  destruct (rstrip_with p s).
  - destruct (p c); cbn [all_chars]; rewrite ?Hc; reflexivity.
  - cbn [all_chars] in *. rewrite Hc, IH. reflexivity.
Qed.

End StripFacts.

Section SplitFacts.

Lemma split_nonempty (sep : ascii) (s : string) : split sep s <> [].
Proof.
  induction s as [|c s IH]; cbn [split]; [discriminate|].
  destruct (Ascii.eqb c sep); [discriminate|].
  destruct (split sep s); discriminate.
Qed.

Lemma split_no_separator (s : string) :
  no_newline s = true -> split newline s = [s].
Proof.
  unfold no_newline. induction s as [|c s IH]; [reflexivity|].
  cbn [all_chars split]. intros [Hc Hs]%andb_prop.
  apply negb_true_iff in Hc. rewrite Hc, IH by assumption. reflexivity.
Qed.

Lemma split_app (a b : string) :
  no_newline a = true ->
  split newline (a ++ String newline b) = a :: split newline b.
Proof.
  unfold no_newline. induction a as [|c a IH]; cbn [all_chars].
  - intros _. change ("" ++ String newline b) with (String newline b).
    cbn [split]. rewrite Ascii.eqb_refl. reflexivity.
  - intros [Hc Ha]%andb_prop. apply negb_true_iff in Hc.
    change (String c a ++ String newline b)
      with (String c (a ++ String newline b)).
    cbn [split]. rewrite Hc, IH by assumption. reflexivity.
Qed.

(** Every piece of a split is free of the separator. *)
Lemma split_pieces (s : string) :
  Forall (fun l => no_newline l = true) (split newline s).
Proof.
  induction s as [|c s IH]; cbn [split].
  - constructor; [reflexivity | constructor].
  - destruct (Ascii.eqb c newline) eqn:Hc.
    + constructor; [reflexivity | assumption].
    + destruct (split newline s) as [|hd tl]; inversion IH; subst.
      * constructor; [|constructor]. unfold no_newline. cbn [all_chars].
        rewrite Hc. reflexivity.
      * constructor; [|assumption]. unfold no_newline in *. cbn [all_chars].
        rewrite Hc. assumption.
Qed.

Lemma split_join (lines : list string) :
  lines <> [] ->
  Forall (fun l => no_newline l = true) lines ->
  split newline (join_lines lines) = lines.
Proof.
  induction lines as [|l [|l2 rest] IH]; intros Hne Hall; [congruence | |].
  - inversion Hall; subst. apply split_no_separator; assumption.
  - inversion Hall; subst.
    change (join_lines (l :: l2 :: rest))
      with (l ++ String newline (join_lines (l2 :: rest))).
    rewrite split_app by assumption. f_equal. apply IH; [discriminate | assumption].
Qed.

End SplitFacts.

Section RoundTrip.

Lemma clean_field_shape (s : string) :
  s <> "" -> strip s = s ->
  (exists c r, s = String c r /\ is_space c = false)
  /\ rstrip_with is_space s = s.
Proof.
  intros Hne Hstrip. unfold strip, strip_with in Hstrip.
  destruct (lstrip_head is_space s) as [Hl | (c & r & Hl & Hc)].
  - rewrite Hl in Hstrip. cbn in Hstrip. congruence.
  - rewrite Hl in Hstrip.
    destruct (rstrip_keeps_head is_space c r Hc) as [r' Hr'].
    assert (Hs : s = String c r') by congruence.
    split; [eauto|].
    rewrite Hs in Hl. rewrite lstrip_of_head in Hl by assumption.
    injection Hl as <-. congruence.
Qed.

Lemma rstrip_join (lines : list string) :
  lines <> [] ->
  Forall (fun l => l <> "" /\ rstrip_with is_space l = l) lines ->
  rstrip_with is_space (join_lines lines) = join_lines lines
  /\ join_lines lines <> "".
Proof.
  induction lines as [|l [|l2 rest] IH]; intros Hne Hall; [congruence | |].
  - inversion Hall as [|? ? [Hl Hr] _]; subst. cbn [join_lines]. auto.
  - inversion Hall as [|? ? [Hl Hr] Hrest]; subst.
    destruct IH as [IHr IHne]; [discriminate | assumption |].
    change (join_lines (l :: l2 :: rest))
      with (l ++ String newline (join_lines (l2 :: rest))).
    set (J := join_lines (l2 :: rest)) in *.
    assert (Htail : rstrip_with is_space (String newline J) = String newline J).
    { rewrite rstrip_cons; rewrite IHr; [reflexivity | assumption]. }
    split.
    + rewrite rstrip_app; rewrite Htail; [reflexivity | discriminate].
    + destruct l; [congruence | discriminate].
Qed.

Lemma join_head (l : string) (rest : list string) (c : ascii) (r : string) :
  l = String c r -> exists r', join_lines (l :: rest) = String c r'.
Proof.
  intros ->. destruct rest; cbn [join_lines]; [eauto|].
  change (String c r ++ String newline (join_lines (s :: rest)))
    with (String c (r ++ String newline (join_lines (s :: rest)))).
  eauto.
Qed.

Lemma strip_join (lines : list string) :
  lines <> [] ->
  Forall (fun l => l <> "" /\ strip l = l) lines ->
  strip (join_lines lines) = join_lines lines.
Proof.
  intros Hne Hall.
  assert (Hshape : Forall (fun l => l <> "" /\ rstrip_with is_space l = l) lines).
  { eapply Forall_impl; [exact Hall|]. cbn. intros l [Hl Hs].
    split; [assumption|]. apply clean_field_shape; assumption. }
  destruct (rstrip_join lines Hne Hshape) as [Hr _].
  destruct lines as [|l rest]; [congruence|].
  inversion Hall as [|? ? [Hl Hs] _]; subst.
  destruct (clean_field_shape l Hl Hs) as [(c & r & Hlc & Hc) _].
  destruct (join_head l rest c r Hlc) as [r' Hj].
  unfold strip, strip_with. rewrite Hj, lstrip_of_head, <- Hj by assumption.
  exact Hr.
Qed.

Lemma group_lines_three (a b c : string) (rest : list string) :
  group_lines (a :: b :: c :: rest)
  = Satellite (strip a) (strip b) (strip c) :: group_lines rest.
Proof.
  rewrite !group_lines_spec.
  replace (length (a :: b :: c :: rest) / 3)%nat with (S (length rest / 3)).
  2:{ cbn [length].
      replace (S (S (S (length rest)))) with (1 * 3 + length rest)%nat by lia.
      rewrite Nat.div_add_l by lia. lia. }
  rewrite <- cons_seq, <- seq_shift. cbn [map]. rewrite map_map.
  f_equal. apply map_ext. intros k. unfold record_at.
  replace (3 * S k)%nat with (S (S (S (3 * k)))) by lia. reflexivity.
Qed.

Lemma group_lines_of_records (records : list satellite) :
  Forall (fun r => strip (name r) = name r /\ strip (line1 r) = line1 r
                   /\ strip (line2 r) = line2 r) records ->
  group_lines (flat_map (fun r => [name r; line1 r; line2 r]) records) = records.
Proof.
  induction 1 as [|r records (Hn & H1 & H2) _ IH]; [reflexivity|].
  cbn [flat_map app]. rewrite group_lines_three, IH, Hn, H1, H2.
  destruct r; reflexivity.
Qed.

Lemma clean_lines (records : list satellite) :
  Forall clean_record records ->
  Forall clean_field (flat_map (fun r => [name r; line1 r; line2 r]) records).
Proof.
  induction 1 as [|r records (Hn & H1 & H2) _ IH]; cbn [flat_map app];
    [constructor|].
  repeat (constructor; [assumption|]). assumption.
Qed.

End RoundTrip.

(** X6: parsing inverts the TLE layout: for records whose fields are not
    empty, carry no white space at either end and hold no newline, parsing
    the text that prints them three lines per record gives the records
    back. *)
Theorem parse_tle_of_rendered (records : list satellite) :
  Forall clean_record records ->
  parse_tle (render_tle records) = records.
Proof.
  intros Hclean. unfold parse_tle, render_tle.
  destruct records as [|r records]; [reflexivity|].
  set (lines := flat_map (fun r => [name r; line1 r; line2 r]) (r :: records)).
  assert (Hne : lines <> []) by discriminate.
  assert (Hfields : Forall clean_field lines) by (apply clean_lines; assumption).
  rewrite strip_join, split_join.
  - apply group_lines_of_records.
    eapply Forall_impl; [exact Hclean|]. cbn.
    intros r' ((_ & Hn & _) & (_ & H1 & _) & (_ & H2 & _)). auto.
  - assumption.
  - eapply Forall_impl; [exact Hfields|]. cbn. intros l (_ & _ & H). exact H.
  - assumption.
  - eapply Forall_impl; [exact Hfields|]. cbn. intros l (Hl & Hs & _). auto.
Qed.

Lemma parse_tle_of_rendered_witness :
  Forall clean_record (parse_tle sample_catalog)
  /\ parse_tle (render_tle (parse_tle sample_catalog)) = parse_tle sample_catalog.
Proof.
  assert (H : Forall clean_record (parse_tle sample_catalog)).
  { repeat constructor; discriminate. }
  exact (conj H (parse_tle_of_rendered _ H)).
Defined.

Lemma strip_no_newline (s : string) :
  no_newline s = true -> no_newline (strip s) = true.
Proof.
  unfold no_newline, strip, strip_with. intros H.
  apply all_chars_rstrip, all_chars_lstrip, H.
Qed.

(** X7: every field of every parsed record is trimmed (stripping it again
    changes nothing) and holds no newline. *)
Theorem parsed_fields_are_trimmed (text : string) (r : satellite) :
  In r (parse_tle text) ->
  (strip (name r) = name r /\ strip (line1 r) = line1 r
   /\ strip (line2 r) = line2 r)
  /\ (no_newline (name r) = true /\ no_newline (line1 r) = true
      /\ no_newline (line2 r) = true).
Proof.
  unfold parse_tle. rewrite group_lines_spec.
  intros (k & <- & _)%in_map_iff. unfold record_at. cbn [name line1 line2].
  assert (Hpiece : forall i,
             no_newline (strip (nth i (split newline (strip text)) "")) = true).
  { intros i. apply strip_no_newline.
    destruct (nth_in_or_default i (split newline (strip text)) "") as [Hin | ->];
      [|reflexivity].
    pose proof (split_pieces (strip text)) as Hall.
    rewrite List.Forall_forall in Hall. apply (Hall _ Hin). }
  split; [|auto].
  refine (conj _ (conj _ _)); apply (strip_idempotent is_space).
Qed.

Lemma parsed_fields_are_trimmed_witness :
  In (Satellite "STARLINK-1008" "1 44714U 19074B" "2 44714  53.0541")
     (parse_tle sample_catalog)
  /\ strip "STARLINK-1008" = "STARLINK-1008".
Proof.
  assert (H : In (Satellite "STARLINK-1008" "1 44714U 19074B" "2 44714  53.0541")
                 (parse_tle sample_catalog)) by (left; reflexivity).
  exact (conj H (proj1 (proj1 (parsed_fields_are_trimmed _ _ H)))).
Defined.

(** ** Catalogs with CR LF line ends *)

Section CrLf.

Lemma rstrip_blank_end (p : ascii -> bool) (a b : string) :
  all_chars p b = true ->
  rstrip_with p (a ++ b) = rstrip_with p a.
Proof.
  intros Hb. induction a as [|c a IH].
  - change ("" ++ b) with b. cbn [rstrip_with].
    induction b as [|c b IHb]; [reflexivity|].
    cbn [all_chars] in Hb. apply andb_prop in Hb as [Hc Hb].
    cbn [rstrip_with]. rewrite (IHb Hb), Hc. reflexivity.
  - change (String c a ++ b) with (String c (a ++ b)).
    cbn [rstrip_with]. rewrite IH. reflexivity.
Qed.

Lemma strip_carriage_return (l : string) :
  l <> "" -> strip l = l -> strip (l ++ String carriage_return "") = l.
Proof.
  intros Hne Hs.
  destruct (clean_field_shape l Hne Hs) as [(c & r & -> & Hc) Hr].
  unfold strip, strip_with.
  change (String c r ++ String carriage_return "")
    with (String c (r ++ String carriage_return "")).
  rewrite lstrip_of_head by assumption.
  change (String c (r ++ String carriage_return ""))
    with (String c r ++ String carriage_return "").
  rewrite rstrip_blank_end by reflexivity. exact Hr.
Qed.

Lemma app_assoc_string (a b c : string) : (a ++ b) ++ c = a ++ (b ++ c).
Proof.
  induction a as [|x a IH]; [reflexivity|].
  change (String x a ++ b) with (String x (a ++ b)).
  change (String x (a ++ b) ++ c) with (String x ((a ++ b) ++ c)).
  rewrite IH. reflexivity.
Qed.

Lemma crlf_pieces_nonempty (l : string) (rest : list string) :
  crlf_pieces (l :: rest) <> [].
Proof. destruct rest; discriminate. Qed.

Lemma join_cons (l : string) (lines : list string) :
  lines <> [] ->
  join_lines (l :: lines) = l ++ String newline (join_lines lines).
Proof. destruct lines; [congruence | reflexivity]. Qed.

(** Stripping the end of a CR LF text removes the last line end only. *)
Lemma rstrip_crlf (lines : list string) :
  lines <> [] ->
  Forall (fun l => l <> "" /\ rstrip_with is_space l = l) lines ->
  rstrip_with is_space (crlf_lines lines) = join_lines (crlf_pieces lines)
  /\ join_lines (crlf_pieces lines) <> "".
Proof.
  induction lines as [|l [|l2 rest] IH]; intros Hne Hall; [congruence | |].
  - inversion Hall as [|? ? [Hl Hr] _]; subst.
    cbn [crlf_lines crlf_pieces join_lines].
    rewrite rstrip_blank_end by reflexivity. rewrite Hr. auto.
  - inversion Hall as [|? ? [Hl Hr] Hrest]; subst.
    destruct IH as [IHr IHne]; [discriminate | assumption |].
    change (crlf_lines (l :: l2 :: rest))
      with (l ++ String carriage_return
                   (String newline (crlf_lines (l2 :: rest)))).
    change (crlf_pieces (l :: l2 :: rest))
      with ((l ++ String carriage_return "") :: crlf_pieces (l2 :: rest)).
    rewrite join_cons by apply crlf_pieces_nonempty.
    set (T := crlf_lines (l2 :: rest)) in *.
    set (J := join_lines (crlf_pieces (l2 :: rest))) in *.
    assert (Htail : rstrip_with is_space (String carriage_return (String newline T))
                    = String carriage_return (String newline J)).
    { rewrite rstrip_cons.
      - rewrite rstrip_cons; rewrite IHr; [reflexivity | assumption].
      - rewrite rstrip_cons; rewrite IHr; [discriminate | assumption]. }
    split.
    + rewrite rstrip_app; rewrite Htail; [|discriminate].
      rewrite app_assoc_string. reflexivity.
    + destruct l; [congruence | discriminate].
Qed.

Lemma crlf_head (l : string) (rest : list string) (c : ascii) (r : string) :
  l = String c r -> exists r', crlf_lines (l :: rest) = String c r'.
Proof.
  intros ->. cbn [crlf_lines].
  change (String c r ++ ?x) with (String c (r ++ x)). eauto.
Qed.

Lemma strip_crlf (lines : list string) :
  lines <> [] ->
  Forall clean_field lines ->
  strip (crlf_lines lines) = join_lines (crlf_pieces lines).
Proof.
  intros Hne Hall.
  assert (Hshape : Forall (fun l => l <> "" /\ rstrip_with is_space l = l) lines).
  { eapply Forall_impl; [exact Hall|]. cbn. intros l (Hl & Hs & _).
    split; [assumption|]. apply clean_field_shape; assumption. }
  destruct (rstrip_crlf lines Hne Hshape) as [Hr _].
  destruct lines as [|l rest]; [congruence|].
  inversion Hall as [|? ? (Hl & Hs & _) _]; subst.
  destruct (clean_field_shape l Hl Hs) as [(c & r & Hlc & Hc) _].
  destruct (crlf_head l rest c r Hlc) as [r' Hj].
  unfold strip, strip_with. rewrite Hj, lstrip_of_head, <- Hj by assumption.
  exact Hr.
Qed.

Lemma no_newline_app (a b : string) :
  no_newline a = true -> no_newline b = true -> no_newline (a ++ b) = true.
Proof.
  unfold no_newline. induction a as [|c a IH]; [auto|].
  change (String c a ++ b) with (String c (a ++ b)). cbn [all_chars].
  intros [Hc Ha]%andb_prop Hb. rewrite Hc, IH by assumption. reflexivity.
Qed.

Lemma crlf_pieces_no_newline (lines : list string) :
  Forall (fun l => no_newline l = true) lines ->
  Forall (fun l => no_newline l = true) (crlf_pieces lines).
Proof.
  induction lines as [|l [|l2 rest] IH]; intros Hall; [constructor | assumption|].
  inversion Hall; subst.
  change (crlf_pieces (l :: l2 :: rest))
    with ((l ++ String carriage_return "") :: crlf_pieces (l2 :: rest)).
  constructor; [|auto]. apply no_newline_app; [assumption | reflexivity].
Qed.

Lemma group_lines_crlf (records : list satellite) :
  Forall clean_record records ->
  group_lines (crlf_pieces (flat_map (fun r => [name r; line1 r; line2 r]) records))
  = records.
Proof.
  induction 1 as [|r records ((Hn & Hns & _) & (H1 & H1s & _) & (H2 & H2s & _)) _ IH];
    [reflexivity|].
  cbn [flat_map app].
  set (F := flat_map (fun r => [name r; line1 r; line2 r]) records) in *.
  assert (Hshape : exists c,
            crlf_pieces (name r :: line1 r :: line2 r :: F)
            = (name r ++ String carriage_return "")
                :: (line1 r ++ String carriage_return "")
                :: c :: crlf_pieces F
            /\ strip c = line2 r).
  { destruct F as [|f F'].
    - exists (line2 r). split; [reflexivity | assumption].
    - exists (line2 r ++ String carriage_return ""). split; [reflexivity|].
      apply strip_carriage_return; assumption. }
  destruct Hshape as (c & -> & Hc).
  rewrite group_lines_three, IH, Hc, !strip_carriage_return by assumption.
  destruct r; reflexivity.
Qed.

End CrLf.

(** X8: a catalog served with CR LF line ends parses to the same records:
    for records whose fields are not empty, carry no white space at either
    end and hold no newline, parsing the text that prints each field
    followed by a carriage return and a newline gives the records back,
    without any carriage return left in a field. *)
Theorem parse_tle_of_crlf_text (records : list satellite) :
  Forall clean_record records ->
  parse_tle (render_tle_crlf records) = records.
Proof.
  intros Hclean. unfold parse_tle, render_tle_crlf.
  destruct records as [|r records]; [reflexivity|].
  set (lines := flat_map (fun r => [name r; line1 r; line2 r]) (r :: records)).
  assert (Hne : lines <> []) by discriminate.
  assert (Hfields : Forall clean_field lines) by (apply clean_lines; assumption).
  rewrite strip_crlf by assumption. rewrite split_join.
  - apply group_lines_crlf. assumption.
  - subst lines. cbn [flat_map app]. apply crlf_pieces_nonempty.
  - apply crlf_pieces_no_newline.
    eapply Forall_impl; [exact Hfields|]. cbn. intros l (_ & _ & H). exact H.
Qed.

Lemma parse_tle_of_crlf_text_witness :
  parse_tle (render_tle_crlf sample_records) = sample_records.
Proof.
  apply parse_tle_of_crlf_text.
  repeat constructor; discriminate.
Defined.

(** ** Texts made of lines *)

Section LinesOfText.

Lemma lstrip_blank_start (p : ascii -> bool) (a b : string) :
  all_chars p a = true -> lstrip_with p (a ++ b) = lstrip_with p b.
Proof.
  induction a as [|c a IH]; [reflexivity|]. cbn [all_chars].
  intros [Hc Ha]%andb_prop.
  change (String c a ++ b) with (String c (a ++ b)).
  cbn [lstrip_with]. rewrite Hc. auto.
Qed.

Lemma lstrip_app (p : ascii -> bool) (a b : string) :
  lstrip_with p a <> "" -> lstrip_with p (a ++ b) = lstrip_with p a ++ b.
Proof.
  induction a as [|c a IH]; [cbn; congruence|].
  change (String c a ++ b) with (String c (a ++ b)).
  cbn [lstrip_with]. destruct (p c); [exact IH | reflexivity].
Qed.

Lemma lstrip_with_skip (p : ascii -> bool) (c : ascii) (s : string) :
  p c = true -> lstrip_with p (String c s) = lstrip_with p s.
Proof. intros Hc. cbn [lstrip_with]. rewrite Hc. reflexivity. Qed.

Lemma lstrip_empty (p : ascii -> bool) (s : string) :
  lstrip_with p s = "" -> all_chars p s = true.
Proof.
  induction s as [|c s IH]; [reflexivity|]. cbn [lstrip_with all_chars].
  destruct (p c); [exact IH | discriminate].
Qed.

Lemma lstrip_rstrip (p : ascii -> bool) (s : string) :
  lstrip_with p (rstrip_with p s) = rstrip_with p (lstrip_with p s).
Proof.
  induction s as [|c s IH]; [reflexivity|].
  destruct (p c) eqn:Hc.
  - cbn [lstrip_with]. rewrite Hc, <- IH. cbn [rstrip_with].
    destruct (rstrip_with p s) as [|c' r]; [rewrite Hc; reflexivity|].
    rewrite (lstrip_with_skip p c (String c' r) Hc). reflexivity.
  - rewrite (lstrip_of_head p c s Hc).
    destruct (rstrip_keeps_head p c s Hc) as [r Hr]. rewrite Hr.
    apply lstrip_of_head. exact Hc.
Qed.

Lemma lstrip_idempotent (p : ascii -> bool) (s : string) :
  lstrip_with p (lstrip_with p s) = lstrip_with p s.
Proof.
  destruct (lstrip_head p s) as [-> | (c & r & -> & Hc)]; [reflexivity|].
  apply lstrip_of_head. exact Hc.
Qed.

Lemma strip_lstrip (s : string) : strip (lstrip_with is_space s) = strip s.
Proof. unfold strip, strip_with. rewrite lstrip_idempotent. reflexivity. Qed.

Lemma strip_rstrip (s : string) : strip (rstrip_with is_space s) = strip s.
Proof.
  unfold strip, strip_with. rewrite lstrip_rstrip, rstrip_idempotent.
  reflexivity.
Qed.

Lemma not_blank_left (s : string) :
  strip s <> "" -> lstrip_with is_space s <> "".
Proof. unfold strip, strip_with. intros H E. rewrite E in H. auto. Qed.

Lemma not_blank_right (s : string) :
  strip s <> "" -> rstrip_with is_space s <> "".
Proof.
  unfold strip, strip_with. rewrite <- lstrip_rstrip. intros H E.
  rewrite E in H. auto.
Qed.

(** Blank padding around a text does not survive [strip]. *)
Lemma strip_between_blanks (pre body post : string) :
  all_chars is_space pre = true ->
  all_chars is_space post = true ->
  strip (pre ++ body ++ post) = strip body.
Proof.
  intros Hpre Hpost. unfold strip, strip_with.
  rewrite lstrip_blank_start by assumption.
  destruct (lstrip_with is_space body) as [|c r] eqn:Hbody.
  - rewrite lstrip_blank_start by (apply lstrip_empty; assumption).
    rewrite lstrip_all by assumption. reflexivity.
  - rewrite lstrip_app by (rewrite Hbody; discriminate).
    rewrite Hbody. apply rstrip_blank_end. assumption.
Qed.

Lemma lstrip_join (first : string) (rest : list string) :
  lstrip_with is_space first <> "" ->
  lstrip_with is_space (join_lines (first :: rest))
  = join_lines (lstrip_with is_space first :: rest).
Proof.
  intros Hfirst. destruct rest as [|l rest]; [reflexivity|].
  change (join_lines (first :: l :: rest))
    with (first ++ String newline (join_lines (l :: rest))).
  rewrite lstrip_app by assumption. reflexivity.
Qed.

(** [rstrip] of a text whose last line is not blank trims that line only. *)
Lemma rstrip_join_last (lines : list string) :
  lines <> [] ->
  rstrip_with is_space (List.last lines "") <> "" ->
  exists lines',
    rstrip_with is_space (join_lines lines) = join_lines lines'
    /\ map strip lines' = map strip lines
    /\ (Forall (fun l => no_newline l = true) lines ->
        Forall (fun l => no_newline l = true) lines')
    /\ lines' <> []
    /\ join_lines lines' <> "".
Proof.
  induction lines as [|l [|l2 rest] IH]; intros Hne Hlast; [congruence | |].
  - exists [rstrip_with is_space l]. cbn [join_lines map List.last] in *.
    rewrite strip_rstrip. repeat split; try assumption; try discriminate.
    intros Hall. inversion Hall; subst. constructor; [|constructor].
    apply all_chars_rstrip. assumption.
  - destruct IH as (lines' & Hr & Hmap & Hnl & Hne' & Hj);
      [discriminate | exact Hlast |].
    exists (l :: lines').
    change (join_lines (l :: l2 :: rest))
      with (l ++ String newline (join_lines (l2 :: rest))).
    assert (Htail : rstrip_with is_space (String newline (join_lines (l2 :: rest)))
                    = String newline (join_lines lines')).
    { rewrite rstrip_cons; rewrite Hr; [reflexivity | assumption]. }
    split.
    { rewrite rstrip_app; rewrite Htail; [|discriminate].
      destruct lines'; [congruence | reflexivity]. }
    split; [cbn [map] in *; rewrite Hmap; reflexivity|].
    split.
    { intros Hall. inversion Hall; subst. constructor; auto. }
    split; [discriminate|].
    destruct lines' as [|l' lines'']; [congruence|].
    change (join_lines (l :: l' :: lines''))
      with (l ++ String newline (join_lines (l' :: lines''))).
    destruct l; discriminate.
Qed.

(** The lines [split] finds in the stripped text are the lines the text
    was made of, up to the white space at their ends. *)
Lemma lines_of_text (pre post : string) (lines : list string) :
  all_chars is_space pre = true ->
  all_chars is_space post = true ->
  lines <> [] ->
  Forall (fun l => no_newline l = true) lines ->
  strip (hd "" lines) <> "" ->
  strip (List.last lines "") <> "" ->
  map strip (split newline (strip (pre ++ join_lines lines ++ post)))
  = map strip lines.
Proof.
  intros Hpre Hpost Hne Hall Hfirst Hlast.
  rewrite strip_between_blanks by assumption.
  destruct lines as [|first rest]; [congruence|]. cbn [hd] in Hfirst.
  unfold strip at 2, strip_with.
  rewrite lstrip_join by (apply not_blank_left; assumption).
  destruct (rstrip_join_last (lstrip_with is_space first :: rest))
    as (lines' & -> & Hmap & Hnl & Hne' & _).
  - discriminate.
  - destruct rest as [|l rest].
    + cbn [List.last]. exact Hfirst.
    + change (List.last (lstrip_with is_space first :: l :: rest) "")
        with (List.last (first :: l :: rest) "").
      apply not_blank_right. assumption.
  - rewrite split_join; [| assumption |].
    + rewrite Hmap. cbn [map]. rewrite strip_lstrip. reflexivity.
    + apply Hnl. inversion Hall; subst. constructor; [|assumption].
      apply all_chars_lstrip. assumption.
Qed.

(** The grouping loop sees its lines through [strip] only. *)
Lemma group_lines_strip (lines lines' : list string) :
  map strip lines' = map strip lines ->
  group_lines lines' = group_lines lines.
Proof.
  intros Hmap. rewrite !group_lines_spec.
  assert (Hlen : length lines' = length lines).
  { rewrite <- (length_map strip lines'), Hmap. apply length_map. }
  rewrite Hlen. apply map_ext. intros k. unfold record_at.
  assert (Hnth : forall i, strip (nth i lines' "") = strip (nth i lines "")).
  { intros i.
    rewrite <- (map_nth strip lines' "" i), <- (map_nth strip lines "" i), Hmap.
    reflexivity. }
  rewrite !Hnth. reflexivity.
Qed.

End LinesOfText.

(** C4: for a catalog text made of the lines [lines] joined by newlines
    (no line holding a newline, the first and the last one not blank),
    possibly between blank padding such as a final newline, parsing yields
    exactly [floor(lineCount / 3)] records; record [k] holds the trimmed
    lines [3k], [3k+1] and [3k+2]; the lines of an incomplete trailing group
    appear in no record. *)
Theorem parse_tle_groups_of_three (pre post : string) (lines : list string) :
  all_chars is_space pre = true ->
  all_chars is_space post = true ->
  lines <> [] ->
  Forall (fun l => no_newline l = true) lines ->
  strip (hd "" lines) <> "" ->
  strip (List.last lines "") <> "" ->
  let text := pre ++ join_lines lines ++ post in
  parse_tle text = map (record_at lines) (seq 0 (length lines / 3))
  /\ length (parse_tle text) = (length lines / 3)%nat
  /\ (forall k, (k < length lines / 3)%nat ->
        nth_error (parse_tle text) k
        = Some (Satellite (strip (nth (3 * k) lines ""))
                          (strip (nth (3 * k + 1) lines ""))
                          (strip (nth (3 * k + 2) lines "")))).
Proof.
  intros Hpre Hpost Hne Hall Hfirst Hlast text.
  assert (Hparse : parse_tle text
                   = map (record_at lines) (seq 0 (length lines / 3))).
  { unfold parse_tle, text.
    rewrite (group_lines_strip lines)
      by (apply lines_of_text; assumption).
    apply group_lines_spec. }
  rewrite Hparse. split; [reflexivity|]. split.
  - rewrite length_map, length_seq. reflexivity.
  - intros k Hk.
    rewrite nth_error_map, nth_error_nth' with (d := 0%nat)
      by (rewrite length_seq; assumption).
    rewrite seq_nth by assumption. reflexivity.
Qed.

(** [sample_catalog] is [sample_lines] between two newlines: its eight
    lines give two records, and the last two lines none. *)
Lemma parse_tle_groups_of_three_witness :
  sample_catalog = String newline "" ++ join_lines sample_lines ++ String newline ""
  /\ parse_tle sample_catalog
     = map (record_at sample_lines) (seq 0 (length sample_lines / 3))
  /\ length (parse_tle sample_catalog) = 2%nat.
Proof.
  split; [reflexivity|].
  destruct (parse_tle_groups_of_three (String newline "") (String newline "")
              sample_lines) as (Hparse & Hlen & _).
  - reflexivity.
  - reflexivity.
  - discriminate.
  - repeat constructor.
  - vm_compute. discriminate.
  - vm_compute. discriminate.
  - exact (conj Hparse Hlen).
Defined.

(** ** Decimal fields *)

Section DecimalFields.

Lemma all_chars_app (q : ascii -> bool) (a b : string) :
  all_chars q (a ++ b) = all_chars q a && all_chars q b.
Proof.
  induction a as [|c a IH]; [reflexivity|].
  change (String c a ++ b) with (String c (a ++ b)). cbn [all_chars].
  rewrite IH, andb_assoc. reflexivity.
Qed.

Lemma digit_differs (c x : ascii) :
  is_digit c = true -> is_digit x = false -> Ascii.eqb c x = false.
Proof.
  intros Hc Hx. destruct (Ascii.eqb c x) eqn:E; [|reflexivity].
  apply Ascii.eqb_eq in E. congruence.
Qed.

Lemma lower_digit (c : ascii) : is_digit c = true -> lower c = c.
Proof.
  unfold is_digit, lower. intros [H1 H2]%andb_prop.
  apply Nat.leb_le in H1, H2.
  replace (65 <=? nat_of_ascii c)%nat with false
    by (symmetry; apply Nat.leb_gt; lia).
  reflexivity.
Qed.

Lemma span_digits_app (a : string) (c : ascii) (r : string) :
  all_chars is_digit a = true -> is_digit c = false ->
  span_digits (a ++ String c r) = (a, String c r).
Proof.
  intros Ha Hc. induction a as [|d a IH].
  - change ("" ++ String c r) with (String c r). cbn [span_digits].
    rewrite Hc. reflexivity.
  - cbn [all_chars] in Ha. apply andb_prop in Ha as [Hd Ha].
    change (String d a ++ String c r) with (String d (a ++ String c r)).
    cbn [span_digits]. rewrite Hd, IH by assumption. reflexivity.
Qed.

Lemma lspaces_strip (pad s : string) :
  all_chars is_space pad = true ->
  lstrip_with is_space (pad ++ s) = lstrip_with is_space s.
Proof.
  induction pad as [|c pad IH]; [reflexivity|].
  cbn [all_chars]. intros [Hc Hpad]%andb_prop.
  change (String c pad ++ s) with (String c (pad ++ s)).
  cbn [lstrip_with]. rewrite Hc. auto.
Qed.

(** [float] of digits, a point and digits is the decimal number written. *)
Lemma py_float_decimal (a b : string) :
  a <> "" ->
  all_chars is_digit a = true ->
  all_chars is_digit b = true ->
  py_float (a ++ "." ++ b)
  = Returns (float_of_decimal false (digits_value (a ++ b))
               (- Z.of_nat (String.length b))).
Proof.
  intros Hne Ha Hb. destruct a as [|c a]; [congruence|].
  cbn [all_chars] in Ha. apply andb_prop in Ha as [Hc Ha].
  set (t := String c a ++ "." ++ b).
  assert (Ht : t = String c (a ++ String "." b)) by reflexivity.
  assert (Hclean : forall q : ascii -> bool,
             (forall x, is_digit x = true -> q x = true) -> q "."%char = true ->
             all_chars q t = true).
  { intros q Hq Hdot. rewrite Ht. cbn [all_chars].
    rewrite (Hq c Hc), all_chars_app. cbn [all_chars andb].
    rewrite Hdot, (all_chars_impl is_digit q a Hq Ha),
      (all_chars_impl is_digit q b Hq Hb). reflexivity. }
  unfold py_float.
  assert (Hstrip : strip_with is_float_space t = t).
  { unfold strip_with. rewrite lstrip_keeps, rstrip_keeps; try reflexivity;
      apply Hclean; try reflexivity; apply digit_not_float_space. }
  rewrite Hstrip, remove_underscores_none;
    [| reflexivity | apply Hclean; [apply digit_not_underscore | reflexivity]].
  unfold parse_float_literal. rewrite Ht.
  unfold parse_sign.
  rewrite (digit_differs c "-" Hc eq_refl), (digit_differs c "+" Hc eq_refl).
  cbn [lower_str String.eqb]. rewrite (lower_digit c Hc).
  rewrite (digit_differs c "i" Hc eq_refl), (digit_differs c "n" Hc eq_refl).
  cbn [orb].
  change (String c (a ++ String "." b)) with (String c a ++ String "." b).
  rewrite span_digits_app by (cbn [all_chars]; rewrite ?Hc, ?Ha; reflexivity).
  rewrite Ascii.eqb_refl, span_digits_all by assumption.
  change (String.eqb (String c a ++ b) "") with false. cbv iota.
  change (parse_exponent "") with (@None (Z * string)). cbv iota.
  reflexivity.
Qed.

Lemma strip_padded (pad t : string) :
  all_chars is_space pad = true ->
  all_chars (fun c => negb (is_space c)) t = true ->
  strip (pad ++ t) = t.
Proof.
  intros Hpad Ht. unfold strip, strip_with.
  rewrite lspaces_strip, lstrip_keeps, rstrip_keeps by assumption.
  reflexivity.
Qed.

Lemma decimal_not_space (a b : string) :
  all_chars is_digit a = true -> all_chars is_digit b = true ->
  all_chars (fun c => negb (is_space c)) (a ++ "." ++ b) = true.
Proof.
  intros Ha Hb. rewrite all_chars_app.
  change ("." ++ b) with (String "." b). cbn [all_chars].
  rewrite (all_chars_impl is_digit _ a digit_not_space Ha),
    (all_chars_impl is_digit _ b digit_not_space Hb).
  reflexivity.
Qed.

Lemma slice_middle (p f r : string) :
  slice (String.length p) (String.length p + String.length f) (p ++ f ++ r) = f.
Proof.
  unfold slice.
  replace (String.length p + String.length f - String.length p)%nat
    with (String.length f) by lia.
  induction p as [|c p IH]; [|exact IH].
  change ("" ++ f ++ r) with (f ++ r). cbn [String.length drop].
  induction f as [|c f IH]; [reflexivity|].
  change (String c f ++ r) with (String c (f ++ r)).
  cbn [String.length take]. rewrite IH. reflexivity.
Qed.

End DecimalFields.

(** X9: a field made of blanks, digits [a], a point and digits [b] is read
    as the decimal number [a.b] (the nearest float), by the inclination
    extractor on columns [8:16) and by the mean motion extractor on columns
    [52:63). *)
Theorem extractors_read_decimal_fields (line2 pad a b : string) :
  all_chars is_space pad = true ->
  a <> "" ->
  all_chars is_digit a = true ->
  all_chars is_digit b = true ->
  (slice 8 16 line2 = pad ++ a ++ "." ++ b ->
   Iridium.extract_inclination_from_tle line2
   = Returns (Some (float_of_decimal false (digits_value (a ++ b))
                      (- Z.of_nat (String.length b)))))
  /\ (slice 52 63 line2 = pad ++ a ++ "." ++ b ->
      Iridium.extract_mean_motion_from_tle line2
      = Returns (Some (float_of_decimal false (digits_value (a ++ b))
                         (- Z.of_nat (String.length b))))).
Proof.
  intros Hpad Hne Ha Hb.
  assert (Hfield : py_float (strip (pad ++ a ++ "." ++ b))
                   = Returns (float_of_decimal false (digits_value (a ++ b))
                                (- Z.of_nat (String.length b)))).
  { rewrite strip_padded by (auto using decimal_not_space).
    apply py_float_decimal; assumption. }
  split; intros Hslice.
  - unfold Iridium.extract_inclination_from_tle. rewrite Hslice, Hfield.
    reflexivity.
  - unfold Iridium.extract_mean_motion_from_tle. rewrite Hslice, Hfield.
    reflexivity.
Qed.

Lemma extractors_read_decimal_fields_witness :
  Iridium.extract_inclination_from_tle sample_line2
  = Returns (Some (float_of_decimal false 530541 (-4)))
  /\ Iridium.extract_mean_motion_from_tle sample_line2
     = Returns (Some (float_of_decimal false 1506391223 (-8))).
Proof.
  split.
  - apply (proj1 (extractors_read_decimal_fields sample_line2 " " "53" "0541"
                    eq_refl ltac:(discriminate) eq_refl eq_refl)).
    reflexivity.
  - apply (proj2 (extractors_read_decimal_fields sample_line2 "" "15" "06391223"
                    eq_refl ltac:(discriminate) eq_refl eq_refl)).
    reflexivity.
Defined.

(** X10: each extractor reads its own columns only: replacing what stands
    before and after columns [8:16), [26:33) or [52:63) leaves the
    inclination, the eccentricity or the mean motion unchanged. *)
Theorem extractors_read_their_columns_only (p p' f r r' : string) :
  String.length p = String.length p' ->
  (String.length p = 8%nat -> String.length f = 8%nat ->
   Iridium.extract_inclination_from_tle (p ++ f ++ r)
   = Iridium.extract_inclination_from_tle (p' ++ f ++ r'))
  /\ (String.length p = 26%nat -> String.length f = 7%nat ->
      Iridium.extract_eccentricity_from_tle (p ++ f ++ r)
      = Iridium.extract_eccentricity_from_tle (p' ++ f ++ r'))
  /\ (String.length p = 52%nat -> String.length f = 11%nat ->
      Iridium.extract_mean_motion_from_tle (p ++ f ++ r)
      = Iridium.extract_mean_motion_from_tle (p' ++ f ++ r')).
Proof.
  intros Hlen.
  pose proof (slice_middle p f r) as H. pose proof (slice_middle p' f r') as H'.
  rewrite <- Hlen in H'.
  refine (conj _ (conj _ _)); intros Hp Hf; rewrite Hp, Hf in H, H';
    simpl Nat.add in H, H'.
  - unfold Iridium.extract_inclination_from_tle. rewrite H, H'. reflexivity.
  - unfold Iridium.extract_eccentricity_from_tle. rewrite H, H'. reflexivity.
  - unfold Iridium.extract_mean_motion_from_tle. rewrite H, H'. reflexivity.
Qed.

Lemma extractors_read_their_columns_only_witness :
  Iridium.extract_inclination_from_tle ("2 44713 " ++ " 53.0541" ++ " 123.4567")
  = Iridium.extract_inclination_from_tle ("2 99999 " ++ " 53.0541" ++ "")
  /\ Iridium.extract_inclination_from_tle ("2 99999 " ++ " 53.0541" ++ "")
     = Returns (Some (float_of_decimal false 530541 (-4))).
Proof.
  split; [|reflexivity].
  apply (proj1 (extractors_read_their_columns_only
                  "2 44713 " "2 99999 " " 53.0541" " 123.4567" "" eq_refl));
    reflexivity.
Defined.

(** ** The two scripts read the same fields *)

(** X11: the Starlink derivation reads inclination and mean motion exactly
    as the Iridium extractors do: the elements it returns carry their
    values, it is absent whenever one of them is absent, and line 1 plays no
    part. *)
Theorem derivation_agrees_with_extractors
  (libm_pow : float -> float -> float) (line1 line2 : string) :
  (forall elements,
     Starlink.extract_orbital_elements_from_tle libm_pow line1 line2
     = Returns (Some elements) ->
     Iridium.extract_inclination_from_tle line2
     = Returns (Some (Starlink.inclination elements))
     /\ Iridium.extract_mean_motion_from_tle line2
        = Returns (Some (Starlink.mean_motion elements)))
  /\ (Iridium.extract_inclination_from_tle line2 = Returns None
      \/ Iridium.extract_mean_motion_from_tle line2 = Returns None ->
      Starlink.extract_orbital_elements_from_tle libm_pow line1 line2
      = Returns None)
  /\ (forall line1',
        Starlink.extract_orbital_elements_from_tle libm_pow line1' line2
        = Starlink.extract_orbital_elements_from_tle libm_pow line1 line2).
Proof.
  refine (conj _ (conj _ (fun _ => eq_refl))).
  - intros elements Hex.
    destruct (extract_orbital_elements_some _ _ _ _ Hex) as (m & i & Hm & Hi & Hd).
    destruct (derive_returns _ _ _ _ Hd) as (_ & Hinc & Hmean & _).
    unfold Iridium.extract_inclination_from_tle,
      Iridium.extract_mean_motion_from_tle.
    rewrite Hm, Hi, Hinc, Hmean. split; reflexivity.
  - unfold Iridium.extract_inclination_from_tle,
      Iridium.extract_mean_motion_from_tle,
      Starlink.extract_orbital_elements_from_tle.
    destruct (py_float (strip (slice 52 63 line2))) as [m|e];
      destruct (py_float (strip (slice 8 16 line2))) as [i|e'];
      cbn; intros [H | H]; try discriminate; reflexivity.
Qed.

Lemma derivation_agrees_with_extractors_witness :
  Starlink.extract_orbital_elements_from_tle Starlink.reference_pow
    "1 44713U" sample_line2 = Returns (Some sample_elements)
  /\ Iridium.extract_inclination_from_tle sample_line2
     = Returns (Some (Starlink.inclination sample_elements))
  /\ Iridium.extract_mean_motion_from_tle sample_line2
     = Returns (Some (Starlink.mean_motion sample_elements)).
Proof.
  assert (Hex : Starlink.extract_orbital_elements_from_tle Starlink.reference_pow
                  "1 44713U" sample_line2 = Returns (Some sample_elements))
    by (vm_compute; reflexivity).
  exact (conj Hex
           (proj1 (derivation_agrees_with_extractors Starlink.reference_pow
                     "1 44713U" sample_line2) sample_elements Hex)).
Defined.

(** ** The Iridium tally *)

Section TallyFacts.

(** One step of the tally loop, as [tally_inclinations] folds it. *)
Let tally_step (acc : outcome (list float * list (pynum * nat))) (sat : satellite)
  : outcome (list float * list (pynum * nat)) :=
  bind acc (fun '(inclinations, inclination_counts) =>
  bind (Iridium.extract_inclination_from_tle (line2 sat)) (fun inclination =>
    match inclination with
    | Some inclination =>
        bind (Iridium.round_inclination inclination Iridium.default_tolerance)
          (fun rounded_inc =>
             Returns ((inclinations ++ [inclination])%list,
                      Iridium.increment rounded_inc inclination_counts))
    | None => Returns (inclinations, inclination_counts)
    end)).

Lemma tally_unfold (subset : list satellite) :
  Iridium.tally_inclinations subset = fold_left tally_step subset (Returns ([], [])).
Proof. reflexivity. Qed.

Lemma tally_step_raises (e : exn) (sat : satellite) :
  tally_step (Raises e) sat = Raises e.
Proof. reflexivity. Qed.

Lemma tally_fold_raises (subset : list satellite) (e : exn) :
  fold_left tally_step subset (Raises e) = Raises e.
Proof. induction subset as [|sat sats IH]; [reflexivity | exact IH]. Qed.

(** An invariant of the loop state holds at the end if every iteration
    keeps it. *)
Lemma tally_invariant (P : list float * list (pynum * nat) -> Prop)
  (subset : list satellite) :
  (forall incs counts x k,
     P (incs, counts) ->
     Iridium.round_inclination x Iridium.default_tolerance = Returns k ->
     P ((incs ++ [x])%list, Iridium.increment k counts)) ->
  forall st0 st,
    P st0 ->
    fold_left tally_step subset (Returns st0) = Returns st ->
    P st.
Proof.
  intros Hstep. induction subset as [|sat sats IH]; intros st0 st H0; cbn [fold_left].
  - intros [= <-]. exact H0.
  - destruct st0 as [incs counts]. unfold tally_step at 2. cbn [bind].
    destruct (Iridium.extract_inclination_from_tle (line2 sat)) as [[x|]|e];
      cbn [bind].
    + destruct (Iridium.round_inclination x Iridium.default_tolerance)
        as [k|e] eqn:Hk; cbn [bind].
      * apply IH. apply Hstep; assumption.
      * rewrite tally_fold_raises. discriminate.
    + apply IH. exact H0.
    + rewrite tally_fold_raises. discriminate.
Qed.

Lemma round_inclination_error (x tolerance : float) (e : exn) :
  Iridium.round_inclination x tolerance = Raises e ->
  e = ValueError \/ e = OverflowError.
Proof.
  unfold Iridium.round_inclination, within, float_of_int.
  destruct x as [s | s | | s m ex]; cbn [round_int bind];
    try (intros [= <-]; auto; fail);
    destruct (is_inf (float_of_Z _)); cbn [bind];
    try destruct (fleb _ _); intros [= <-]; auto.
Qed.

Lemma round_inclination_not_finite (x tolerance : float) :
  is_finite x = false ->
  exists e, Iridium.round_inclination x tolerance = Raises e.
Proof.
  destruct x; try discriminate; intros _; cbn; eauto.
Qed.

(** The loop raises only what rounding raises. *)
Lemma tally_error (subset : list satellite) :
  forall st0 e,
    fold_left tally_step subset (Returns st0) = Raises e ->
    e = ValueError \/ e = OverflowError.
Proof.
  induction subset as [|sat sats IH]; intros st0 e; cbn [fold_left];
    [discriminate|].
  destruct st0 as [incs counts]. unfold tally_step at 2. cbn [bind].
  destruct (extractor_total (py_float (strip (slice 8 16 (line2 sat)))))
    as [r Hr].
  unfold Iridium.extract_inclination_from_tle. rewrite Hr. cbn [bind].
  destruct r as [x|].
  - destruct (Iridium.round_inclination x Iridium.default_tolerance)
      as [k|e'] eqn:Hk; cbn [bind].
    + apply IH.
    + rewrite tally_fold_raises. intros [= <-].
      exact (round_inclination_error _ _ _ Hk).
  - apply IH.
Qed.

(** A record whose inclination is not finite stops the loop. *)
Lemma tally_stops (subset : list satellite) (sat : satellite) (x : float) :
  In sat subset ->
  Iridium.extract_inclination_from_tle (line2 sat) = Returns (Some x) ->
  is_finite x = false ->
  forall acc, exists e, fold_left tally_step subset acc = Raises e.
Proof.
  intros Hin Hx Hnf. induction subset as [|s sats IH]; [destruct Hin|].
  intros acc. cbn [fold_left]. destruct Hin as [-> | Hin]; [|apply IH, Hin].
  destruct acc as [[incs counts]|e].
  - unfold tally_step at 2. cbn [bind]. rewrite Hx. cbn [bind].
    destruct (round_inclination_not_finite x Iridium.default_tolerance Hnf)
      as [e ->].
    cbn [bind]. rewrite tally_fold_raises. eauto.
  - rewrite tally_step_raises, tally_fold_raises. eauto.
Qed.

(** The loop runs to its end when every inclination it meets rounds to an
    [int], and then every key is an [int]. *)
Lemma tally_returns (subset : list satellite) :
  (forall sat x,
     In sat subset ->
     Iridium.extract_inclination_from_tle (line2 sat) = Returns (Some x) ->
     exists n,
       Iridium.round_inclination x Iridium.default_tolerance = Returns (PInt n)) ->
  forall st0,
    Forall (fun kc => exists n, fst kc = PInt n) (snd st0) ->
    exists st,
      fold_left tally_step subset (Returns st0) = Returns st
      /\ Forall (fun kc => exists n, fst kc = PInt n) (snd st).
Proof.
  induction subset as [|sat sats IH]; intros Hall st0 H0; cbn [fold_left].
  - exists st0. split; [reflexivity | exact H0].
  - assert (Hrest : forall sat' x,
              In sat' sats ->
              Iridium.extract_inclination_from_tle (line2 sat') = Returns (Some x) ->
              exists n,
                Iridium.round_inclination x Iridium.default_tolerance
                = Returns (PInt n)).
    { intros sat' x Hin. apply Hall. right. exact Hin. }
    destruct st0 as [incs counts]. unfold tally_step at 2. cbn [bind].
    destruct (extractor_total (py_float (strip (slice 8 16 (line2 sat)))))
      as [r Hr].
    pose proof (Hall sat) as Hsat.
    unfold Iridium.extract_inclination_from_tle in Hsat |- *.
    rewrite Hr in Hsat |- *. cbn [bind]. destruct r as [x|].
    + destruct (Hsat x (or_introl eq_refl) eq_refl) as [n ->]. cbn [bind].
      apply (IH Hrest). cbn [snd] in *.
      induction H0 as [|[k' c] rest Hk Hrest' IHc]; cbn [Iridium.increment].
      * repeat constructor. exists n. reflexivity.
      * destruct (Iridium.key_eqb k' (PInt n)); constructor; assumption.
    + apply (IH Hrest). exact H0.
Qed.

Lemma tally_inclinations_returns (subset : list satellite) :
  (forall sat x,
     In sat subset ->
     Iridium.extract_inclination_from_tle (line2 sat) = Returns (Some x) ->
     exists n,
       Iridium.round_inclination x Iridium.default_tolerance = Returns (PInt n)) ->
  exists incs counts,
    Iridium.tally_inclinations subset = Returns (incs, counts)
    /\ Forall (fun kc => exists n, fst kc = PInt n) counts.
Proof.
  intros Hall.
  destruct (tally_returns subset Hall ([], []) (List.Forall_nil _))
    as ([incs counts] & Hst & Hkeys).
  exists incs, counts. split; assumption.
Qed.

Lemma tally_inclinations_error (subset : list satellite) (e : exn) :
  Iridium.tally_inclinations subset = Raises e ->
  e = ValueError \/ e = OverflowError.
Proof. apply tally_error. Qed.

Lemma tally_inclinations_stops (subset : list satellite) (sat : satellite)
  (x : float) :
  In sat subset ->
  Iridium.extract_inclination_from_tle (line2 sat) = Returns (Some x) ->
  is_finite x = false ->
  exists e, Iridium.tally_inclinations subset = Raises e.
Proof. intros Hin Hx Hnf. exact (tally_stops subset sat x Hin Hx Hnf _). Qed.

Lemma tally_inclinations_invariant
  (P : list float * list (pynum * nat) -> Prop) (subset : list satellite)
  (st : list float * list (pynum * nat)) :
  (forall incs counts x k,
     P (incs, counts) ->
     Iridium.round_inclination x Iridium.default_tolerance = Returns k ->
     P ((incs ++ [x])%list, Iridium.increment k counts)) ->
  P ([], []) ->
  Iridium.tally_inclinations subset = Returns st ->
  P st.
Proof. intros Hstep H0. exact (tally_invariant P subset Hstep _ _ H0). Qed.

End TallyFacts.

Section ReportFacts.

Lemma in_classified (satellites : list satellite) (sat : satellite) :
  In sat satellites ->
  In sat (List.filter (fun sat => negb (is_dtc sat)) satellites)
  \/ In sat (List.filter is_dtc satellites).
Proof.
  intros Hin. destruct (is_dtc sat) eqn:Hd; [right | left];
    apply List.filter_In; split; try assumption. now rewrite Hd.
Qed.

(** The tally of an empty subset, which is also what the report holds for
    the DTC subset when the loop over it is skipped. *)
Lemma tally_or_skip (dtc : list satellite) :
  match dtc with
  | [] => Returns ([], [])
  | _ => Iridium.tally_inclinations dtc
  end = Iridium.tally_inclinations dtc.
Proof. destruct dtc; reflexivity. Qed.

Lemma analyze_unfold (float_sum : list float -> float)
  (sat : satellite) (sats : list satellite) :
  Iridium.analyze_iridium_inclinations float_sum (sat :: sats)
  = let main := List.filter (fun sat => negb (is_dtc sat)) (sat :: sats) in
    let dtc := List.filter is_dtc (sat :: sats) in
    let eccs := parsed Iridium.extract_eccentricity_from_tle main in
    let mms := parsed Iridium.extract_mean_motion_from_tle main in
    bind (Iridium.tally_inclinations main) (fun '(main_inc, main_counts) =>
    bind (Iridium.tally_inclinations dtc) (fun '(dtc_inc, dtc_counts) =>
    bind (Iridium.average_period float_sum mms) (fun avg_period =>
      Returns (Some (Iridium.Report (length (sat :: sats)) main dtc
                       main_inc main_counts dtc_inc dtc_counts eccs mms
                       avg_period))))).
Proof.
  unfold Iridium.analyze_iridium_inclinations.
  rewrite classify_spec, tally_or_skip. cbv zeta.
  destruct (Iridium.tally_inclinations _) as [[main_inc main_counts]|e];
    [|reflexivity].
  cbn [bind].
  destruct (Iridium.tally_inclinations _) as [[dtc_inc dtc_counts]|e];
    [|reflexivity].
  cbn [bind]. rewrite collect_parameters_spec. reflexivity.
Qed.

(** The average period: absent without mean motions, a division error on a
    zero mean. *)
Lemma average_period_spec (float_sum : list float -> float)
  (mean_motions : list float) (mean : float) :
  mean_motions <> [] ->
  mean_of float_sum mean_motions = Returns (PFloat mean) ->
  Iridium.average_period float_sum mean_motions
  = if is_zero mean then Raises ZeroDivisionError
    else Returns (Some (PFloat (SFdiv prec emax f_1440 mean))).
Proof.
  intros Hne Hmean. unfold Iridium.average_period.
  destruct mean_motions as [|m ms]; [congruence|].
  fold (mean_of float_sum (m :: ms)). rewrite Hmean. cbn [bind].
  unfold num_div, as_float, float_of_int.
  change (is_inf (float_of_Z (24 * 60))) with false.
  change (float_of_Z (24 * 60)) with f_1440.
  cbn [bind]. destruct (is_zero mean); reflexivity.
Qed.

Lemma increment_counted (k : pynum) (counts : list (pynum * nat)) :
  counted (Iridium.increment k counts) = S (counted counts).
Proof.
  unfold counted. induction counts as [|[k' n] rest IH]; [reflexivity|].
  cbn [Iridium.increment]. destruct (Iridium.key_eqb k' k); simpl.
  - reflexivity.
  - simpl in IH. rewrite IH. lia.
Qed.

Lemma increment_positive (k : pynum) (counts : list (pynum * nat)) :
  Forall (fun kc => (1 <= snd kc)%nat) counts ->
  Forall (fun kc => (1 <= snd kc)%nat) (Iridium.increment k counts).
Proof.
  induction 1 as [|[k' n] rest Hn Hrest IH]; cbn [Iridium.increment].
  - repeat constructor.
  - destruct (Iridium.key_eqb k' k); constructor; cbn [snd] in *;
      try assumption; lia.
Qed.

Lemma increment_keys (P : pynum -> Prop) (k : pynum)
  (counts : list (pynum * nat)) :
  P k ->
  Forall (fun kc => P (fst kc)) counts ->
  Forall (fun kc => P (fst kc)) (Iridium.increment k counts).
Proof.
  intros Hk. induction 1 as [|[k' n] rest Hn Hrest IH]; cbn [Iridium.increment].
  - repeat constructor. exact Hk.
  - destruct (Iridium.key_eqb k' k); constructor; assumption.
Qed.

Lemma parsed_length (extract : string -> outcome (option float))
  (subset : list satellite) :
  (length (parsed extract subset) <= length subset)%nat.
Proof.
  unfold parsed. induction subset as [|sat sats IH]; [reflexivity|].
  cbn [flat_map]. rewrite length_app. cbn [length].
  destruct (extract (line2 sat)) as [[f|]|e]; cbn [length]; lia.
Qed.

(** What the loop keeps true of one subset's tally. *)
Lemma tally_counts (subset : list satellite) (incs : list float)
  (counts : list (pynum * nat)) :
  Iridium.tally_inclinations subset = Returns (incs, counts) ->
  counted counts = length incs
  /\ (length incs <= length subset)%nat
  /\ Forall (fun kc => (1 <= snd kc)%nat) counts.
Proof.
  intros H. refine (conj _ (conj _ _)).
  - refine (tally_inclinations_invariant
              (fun st => counted (snd st) = length (fst st)) subset _ _ _ H).
    + intros incs' counts' x k Hst _. cbn [fst snd] in *.
      rewrite increment_counted, Hst, length_app. cbn [length]. lia.
    + reflexivity.
  - rewrite (tally_inclinations_spec _ _ _ H). apply parsed_length.
  - refine (tally_inclinations_invariant
              (fun st => Forall (fun kc => (1 <= snd kc)%nat) (snd st))
              subset _ _ _ H).
    + intros incs' counts' x k Hst _. cbn [fst snd] in *.
      now apply increment_positive.
    + constructor.
Qed.

Lemma rounds_to_int (x : float) :
  valid_binary prec emax x = true ->
  is_finite x = true ->
  exists n, Iridium.round_inclination x Iridium.default_tolerance = Returns (PInt n).
Proof.
  intros Hvalid Hfinite.
  destruct (within_half_of_rounded x Hvalid Hfinite) as (n & Hround & Hwithin).
  exists n. unfold Iridium.round_inclination, Iridium.default_tolerance.
  rewrite Hround. cbn [bind]. rewrite Hwithin. reflexivity.
Qed.

End ReportFacts.

(** X12: a record whose inclination field parses to a NaN or an infinity
    (the field reads [nan] or [inf], say) makes
    [analyze_iridium_inclinations] end in the [ValueError] or
    [OverflowError] that [round] raises on it: the error is not caught, and
    no report is produced, wherever the record stands in the catalog. *)
Theorem analysis_stops_on_non_finite_inclination
  (float_sum : list float -> float)
  (satellites : list satellite) (sat : satellite) (x : float) :
  In sat satellites ->
  Iridium.extract_inclination_from_tle (line2 sat) = Returns (Some x) ->
  is_finite x = false ->
  exists e,
    Iridium.analyze_iridium_inclinations float_sum satellites = Raises e
    /\ (e = ValueError \/ e = OverflowError).
Proof.
  intros Hin Hx Hnf. destruct satellites as [|s sats]; [destruct Hin|].
  rewrite analyze_unfold. cbv zeta.
  destruct (Iridium.tally_inclinations
              (List.filter (fun sat => negb (is_dtc sat)) (s :: sats)))
    as [[main_inc main_counts]|e] eqn:Hmain; cbn [bind].
  - destruct (in_classified _ _ Hin) as [Hm | Hd].
    + destruct (tally_inclinations_stops _ _ _ Hm Hx Hnf) as [e He].
      rewrite He in Hmain. discriminate.
    + destruct (tally_inclinations_stops _ _ _ Hd Hx Hnf) as [e He].
      exists e. rewrite He. split; [reflexivity|].
      exact (tally_inclinations_error _ _ He).
  - exists e. split; [reflexivity|]. exact (tally_inclinations_error _ _ Hmain).
Qed.

Lemma analysis_stops_on_non_finite_inclination_witness :
  exists e,
    Iridium.analyze_iridium_inclinations Iridium.reference_sum
      [Satellite "IRIDIUM 106" "1 41917U" sample_line2;
       Satellite "IRIDIUM 9 [DTC]" "1 60000U" nan_inclination_line2]
    = Raises e
    /\ (e = ValueError \/ e = OverflowError).
Proof.
  apply (analysis_stops_on_non_finite_inclination _ _
           (Satellite "IRIDIUM 9 [DTC]" "1 60000U" nan_inclination_line2)
           S754_nan).
  - right. left. reflexivity.
  - vm_compute. reflexivity.
  - reflexivity.
Defined.

(** X13: when the catalog is not empty and every inclination that parses
    is a finite float, both tallies of [analyze_iridium_inclinations]
    complete.  The analysis then runs to its end, every key of the two
    count tables being an [int] (at the default tolerance no bucket is
    labelled with a one-decimal float), when no mean motion was collected
    or the mean of the mean motions is not zero; and it ends in the
    [ZeroDivisionError] of the average period when that mean is zero. *)
Theorem analysis_buckets_are_integers (float_sum : list float -> float)
  (satellites : list satellite) :
  satellites <> [] ->
  (forall sat x,
     In sat satellites ->
     Iridium.extract_inclination_from_tle (line2 sat) = Returns (Some x) ->
     valid_binary prec emax x = true /\ is_finite x = true) ->
  let mean_motions :=
    parsed Iridium.extract_mean_motion_from_tle
      (List.filter (fun sat => negb (is_dtc sat)) satellites) in
  let completes :=
    exists r,
      Iridium.analyze_iridium_inclinations float_sum satellites = Returns (Some r)
      /\ Forall (fun kc => exists n, fst kc = PInt n)
           (Iridium.main_inclination_counts r)
      /\ Forall (fun kc => exists n, fst kc = PInt n)
           (Iridium.dtc_inclination_counts r) in
  (mean_motions = [] -> completes)
  /\ (forall mean,
        mean_of float_sum mean_motions = Returns (PFloat mean) ->
        is_zero mean = false ->
        completes)
  /\ (forall mean,
        mean_motions <> [] ->
        mean_of float_sum mean_motions = Returns (PFloat mean) ->
        is_zero mean = true ->
        Iridium.analyze_iridium_inclinations float_sum satellites
        = Raises ZeroDivisionError).
Proof.
  intros Hne Hfin mean_motions completes.
  destruct satellites as [|s sats]; [contradiction|].
  assert (Htally : forall subset,
            (forall sat, In sat subset -> In sat (s :: sats)) ->
            exists incs counts,
              Iridium.tally_inclinations subset = Returns (incs, counts)
              /\ Forall (fun kc => exists n, fst kc = PInt n) counts).
  { intros subset Hsub. apply tally_inclinations_returns.
    intros sat x Hin Hx. destruct (Hfin sat x (Hsub sat Hin) Hx) as [Hv Hf].
    exact (rounds_to_int x Hv Hf). }
  destruct (Htally (List.filter (fun sat => negb (is_dtc sat)) (s :: sats)))
    as (main_inc & main_counts & Hmain & Hmain_keys).
  { intros sat Hin. apply List.filter_In in Hin. tauto. }
  destruct (Htally (List.filter is_dtc (s :: sats)))
    as (dtc_inc & dtc_counts & Hdtc & Hdtc_keys).
  { intros sat Hin. apply List.filter_In in Hin. tauto. }
  assert (Hrun : forall period,
            Iridium.average_period float_sum mean_motions = Returns period ->
            completes).
  { intros period Hperiod. unfold completes.
    rewrite analyze_unfold. cbv zeta. rewrite Hmain. cbn [bind].
    rewrite Hdtc. cbn [bind]. fold mean_motions. rewrite Hperiod. cbn [bind].
    eexists. split; [reflexivity|]. split; assumption. }
  refine (conj _ (conj _ _)).
  - intros Hnone. apply (Hrun None). rewrite Hnone. reflexivity.
  - intros mean Hmean Hnz.
    destruct mean_motions as [|m ms] eqn:Hmms.
    + apply (Hrun None). reflexivity.
    + apply (Hrun (Some (PFloat (SFdiv prec emax f_1440 mean)))).
      rewrite (average_period_spec float_sum (m :: ms) mean), Hnz;
        [reflexivity | discriminate | assumption].
  - intros mean Hsome Hmean Hz.
    rewrite analyze_unfold. cbv zeta. rewrite Hmain. cbn [bind].
    rewrite Hdtc. cbn [bind]. fold mean_motions.
    rewrite (average_period_spec float_sum mean_motions mean), Hz by assumption.
    reflexivity.
Qed.

(** Over [sample_run], whose one mean motion is [15.06391223], the
    analysis completes; over a catalog whose one mean motion is zero it
    ends in the division error. *)
Lemma analysis_buckets_are_integers_witness :
  (exists r,
     Iridium.analyze_iridium_inclinations Iridium.reference_sum sample_run
     = Returns (Some r)
     /\ Forall (fun kc => exists n, fst kc = PInt n)
          (Iridium.main_inclination_counts r)
     /\ Forall (fun kc => exists n, fst kc = PInt n)
          (Iridium.dtc_inclination_counts r))
  /\ Iridium.analyze_iridium_inclinations Iridium.reference_sum
       [Satellite "IRIDIUM 106" "1 41917U" zero_mean_motion_line2]
     = Raises ZeroDivisionError.
Proof.
  split.
  - refine (proj1 (proj2 (analysis_buckets_are_integers Iridium.reference_sum
                            sample_run _ _))
              (float_of_decimal false 1506391223 (-8)) _ _).
    + discriminate.
    + intros sat x [<- | [<- | [<- | []]]] Hx; vm_compute in Hx;
        try discriminate; injection Hx as <-; split; reflexivity.
    + vm_compute. reflexivity.
    + reflexivity.
  - refine (proj2 (proj2 (analysis_buckets_are_integers Iridium.reference_sum
                            [Satellite "IRIDIUM 106" "1 41917U"
                               zero_mean_motion_line2] _ _))
              (S754_zero false) _ _ _).
    + discriminate.
    + intros sat x [<- | []] Hx; vm_compute in Hx;
        injection Hx as <-; split; reflexivity.
    + vm_compute. discriminate.
    + vm_compute. reflexivity.
    + reflexivity.
Defined.

(** X14: in a report of [analyze_iridium_inclinations] the counts of each
    table add up to the number of inclinations collected for that subset,
    which is at most the size of the subset, so the printed percentages add
    up to at most 100; and no table row has a count of zero. *)
Theorem report_counts_add_up (float_sum : list float -> float)
  (satellites : list satellite) (r : Iridium.report) :
  Iridium.analyze_iridium_inclinations float_sum satellites = Returns (Some r) ->
  (counted (Iridium.main_inclination_counts r) = length (Iridium.main_inclinations r)
   /\ (length (Iridium.main_inclinations r) <= length (Iridium.main_satellites r))%nat
   /\ Forall (fun kc => (1 <= snd kc)%nat) (Iridium.main_inclination_counts r))
  /\ (counted (Iridium.dtc_inclination_counts r) = length (Iridium.dtc_inclinations r)
      /\ (length (Iridium.dtc_inclinations r) <= length (Iridium.dtc_satellites r))%nat
      /\ Forall (fun kc => (1 <= snd kc)%nat) (Iridium.dtc_inclination_counts r)).
Proof.
  destruct satellites as [|s sats]; [discriminate|].
  rewrite analyze_unfold. cbv zeta.
  destruct (Iridium.tally_inclinations
              (List.filter (fun sat => negb (is_dtc sat)) (s :: sats)))
    as [[main_inc main_counts]|e] eqn:Hmain; cbn [bind]; [|discriminate].
  destruct (Iridium.tally_inclinations (List.filter is_dtc (s :: sats)))
    as [[dtc_inc dtc_counts]|e] eqn:Hdtc; cbn [bind]; [|discriminate].
  destruct (Iridium.average_period float_sum _) as [period|e]; cbn [bind];
    [|discriminate].
  intros [= <-].
  cbn [Iridium.main_inclination_counts Iridium.main_inclinations
       Iridium.main_satellites Iridium.dtc_inclination_counts
       Iridium.dtc_inclinations Iridium.dtc_satellites].
  split; [exact (tally_counts _ _ _ Hmain) | exact (tally_counts _ _ _ Hdtc)].
Qed.

Lemma report_counts_add_up_witness :
  (counted (Iridium.main_inclination_counts sample_report)
   = length (Iridium.main_inclinations sample_report)
   /\ (length (Iridium.main_inclinations sample_report)
       <= length (Iridium.main_satellites sample_report))%nat
   /\ Forall (fun kc => (1 <= snd kc)%nat)
        (Iridium.main_inclination_counts sample_report))
  /\ (counted (Iridium.dtc_inclination_counts sample_report)
      = length (Iridium.dtc_inclinations sample_report)
      /\ (length (Iridium.dtc_inclinations sample_report)
          <= length (Iridium.dtc_satellites sample_report))%nat
      /\ Forall (fun kc => (1 <= snd kc)%nat)
           (Iridium.dtc_inclination_counts sample_report)).
Proof.
  apply (report_counts_add_up Iridium.reference_sum sample_run sample_report).
  vm_compute. reflexivity.
Defined.

(** ** The rows of a count table *)

Section CountRows.

Lemma increment_distinct (k : pynum) (counts : list (pynum * nat)) :
  ForallOrdPairs (fun a b => Iridium.key_eqb (fst a) (fst b) = false) counts ->
  ForallOrdPairs (fun a b => Iridium.key_eqb (fst a) (fst b) = false)
    (Iridium.increment k counts).
Proof.
  induction 1 as [|[k' n] rest Hhead Hrest IH]; cbn [Iridium.increment].
  - repeat constructor.
  - destruct (Iridium.key_eqb k' k) eqn:Hk; constructor; try assumption.
    apply (increment_keys (fun key => Iridium.key_eqb k' key = false));
      assumption.
Qed.

Lemma increment_origin (Q : pynum -> Prop) (k : pynum)
  (counts : list (pynum * nat)) :
  Q k ->
  Forall (fun kc => Q (fst kc)) counts ->
  Forall (fun kc => Q (fst kc)) (Iridium.increment k counts).
Proof. apply increment_keys. Qed.

Lemma tally_rows (subset : list satellite) (incs : list float)
  (counts : list (pynum * nat)) :
  Iridium.tally_inclinations subset = Returns (incs, counts) ->
  ForallOrdPairs (fun a b => Iridium.key_eqb (fst a) (fst b) = false) counts
  /\ Forall (fun kc =>
               exists x,
                 In x incs
                 /\ Iridium.round_inclination x Iridium.default_tolerance
                    = Returns (fst kc)) counts.
Proof.
  intros H. split.
  - refine (tally_inclinations_invariant
              (fun st => ForallOrdPairs
                           (fun a b => Iridium.key_eqb (fst a) (fst b) = false)
                           (snd st)) subset _ _ _ H).
    + intros incs' counts' x k Hst _. cbn [snd] in *.
      now apply increment_distinct.
    + constructor.
  - refine (tally_inclinations_invariant
              (fun st => Forall (fun kc =>
                           exists x,
                             In x (fst st)
                             /\ Iridium.round_inclination x Iridium.default_tolerance
                                = Returns (fst kc)) (snd st)) subset _ _ _ H).
    + intros incs' counts' x k Hst Hk. cbn [fst snd] in *.
      apply (increment_origin
               (fun key => exists y,
                    In y (incs' ++ [x])%list
                    /\ Iridium.round_inclination y Iridium.default_tolerance
                       = Returns key)).
      * exists x. split; [apply in_or_app; right; left; reflexivity | exact Hk].
      * eapply List.Forall_impl; [|exact Hst]. cbv beta.
        intros kc (y & Hy & Hr). exists y.
        split; [apply in_or_app; left; exact Hy | exact Hr].
    + constructor.
Qed.

End CountRows.

(** X15: in a report of [analyze_iridium_inclinations] no two rows of a
    count table have equal keys (an [int] and a [float] of the same value
    being equal), and the key of every row is the rounded value of one of
    the inclinations collected for that subset. *)
Theorem count_rows_are_distinct (float_sum : list float -> float)
  (satellites : list satellite) (r : Iridium.report) :
  Iridium.analyze_iridium_inclinations float_sum satellites = Returns (Some r) ->
  (ForallOrdPairs (fun a b => Iridium.key_eqb (fst a) (fst b) = false)
     (Iridium.main_inclination_counts r)
   /\ Forall (fun kc =>
                exists x,
                  In x (Iridium.main_inclinations r)
                  /\ Iridium.round_inclination x Iridium.default_tolerance
                     = Returns (fst kc)) (Iridium.main_inclination_counts r))
  /\ (ForallOrdPairs (fun a b => Iridium.key_eqb (fst a) (fst b) = false)
        (Iridium.dtc_inclination_counts r)
      /\ Forall (fun kc =>
                   exists x,
                     In x (Iridium.dtc_inclinations r)
                     /\ Iridium.round_inclination x Iridium.default_tolerance
                        = Returns (fst kc)) (Iridium.dtc_inclination_counts r)).
Proof.
  destruct satellites as [|s sats]; [discriminate|].
  rewrite analyze_unfold. cbv zeta.
  destruct (Iridium.tally_inclinations
              (List.filter (fun sat => negb (is_dtc sat)) (s :: sats)))
    as [[main_inc main_counts]|e] eqn:Hmain; cbn [bind]; [|discriminate].
  destruct (Iridium.tally_inclinations (List.filter is_dtc (s :: sats)))
    as [[dtc_inc dtc_counts]|e] eqn:Hdtc; cbn [bind]; [|discriminate].
  destruct (Iridium.average_period float_sum _) as [period|e]; cbn [bind];
    [|discriminate].
  intros [= <-].
  cbn [Iridium.main_inclination_counts Iridium.main_inclinations
       Iridium.dtc_inclination_counts Iridium.dtc_inclinations].
  split; [exact (tally_rows _ _ _ Hmain) | exact (tally_rows _ _ _ Hdtc)].
Qed.

Lemma count_rows_are_distinct_witness :
  ForallOrdPairs (fun a b => Iridium.key_eqb (fst a) (fst b) = false)
    (Iridium.main_inclination_counts sample_report)
  /\ Forall (fun kc =>
               exists x,
                 In x (Iridium.main_inclinations sample_report)
                 /\ Iridium.round_inclination x Iridium.default_tolerance
                    = Returns (fst kc))
       (Iridium.main_inclination_counts sample_report).
Proof.
  apply (count_rows_are_distinct Iridium.reference_sum sample_run sample_report).
  vm_compute. reflexivity.
Defined.

(** ** Mean motions that are not finite *)

Section NonFinite.

Variable libm_pow : float -> float -> float.

Lemma period_of_infinite (s : bool) :
  SFdiv prec emax f_1440 (S754_infinity s) = S754_zero s.
Proof. destruct s; reflexivity. Qed.

Lemma seconds_of_zero (s : bool) : fmul (S754_zero s) f_60 = S754_zero s.
Proof. destruct s; reflexivity. Qed.

Lemma square_of_zero (s : bool) :
  float_pow libm_pow (S754_zero s) f_2 = Returns (PFloat f_0).
Proof. destruct s; reflexivity. Qed.

Lemma square_of_nan : float_pow libm_pow S754_nan f_2 = Returns (PFloat S754_nan).
Proof. reflexivity. Qed.

Lemma cube_root_of_zero (s : bool) :
  float_pow libm_pow (S754_zero s) one_third = Returns (PFloat f_0).
Proof. destruct s; reflexivity. Qed.

Lemma cube_root_of_nan :
  float_pow libm_pow S754_nan one_third = Returns (PFloat S754_nan).
Proof. reflexivity. Qed.

Lemma zero_over (d : float) :
  is_zero d = false -> is_nan d = false ->
  exists s, SFdiv prec emax (fmul f_0 Starlink.MU) d = S754_zero s.
Proof.
  change (fmul f_0 Starlink.MU) with f_0.
  destruct d as [sd | sd | | sd md ed]; try discriminate; intros _ _;
    eexists; reflexivity.
Qed.

Lemma nan_over (d : float) :
  SFdiv prec emax (fmul S754_nan Starlink.MU) d = S754_nan.
Proof. reflexivity. Qed.

Lemma derive_non_finite (mean_motion inclination pi_squared : float) :
  is_finite mean_motion = false ->
  float_pow libm_pow Starlink.PI_LITERAL f_2 = Returns (PFloat pi_squared) ->
  is_zero (fmul f_4 pi_squared) = false ->
  is_nan (fmul f_4 pi_squared) = false ->
  exists elements,
    Starlink.derive libm_pow mean_motion inclination = Returns elements
    /\ Starlink.altitude elements
       = PFloat (if is_nan mean_motion then S754_nan
                 else fneg Starlink.EARTH_RADIUS).
Proof.
  intros Hnf Hpi Hnz Hnn. rewrite derive_unfold.
  destruct mean_motion as [s | s | | s m e]; try discriminate Hnf;
    unfold fdiv; cbn [is_zero bind].
  - rewrite period_of_infinite, seconds_of_zero, square_of_zero. cbn [bind].
    rewrite num_mul_floats. cbn [bind]. rewrite Hpi. cbn [bind].
    rewrite num_mul_4. cbn [bind]. rewrite num_div_floats, Hnz. cbn [bind].
    destruct (zero_over _ Hnz Hnn) as [sz ->].
    rewrite num_pow_floats, cube_root_of_zero. cbn [bind].
    eexists. split; reflexivity.
  - change (SFdiv prec emax f_1440 S754_nan) with S754_nan.
    change (fmul S754_nan f_60) with S754_nan.
    rewrite square_of_nan. cbn [bind].
    rewrite num_mul_floats. cbn [bind]. rewrite Hpi. cbn [bind].
    rewrite num_mul_4. cbn [bind]. rewrite num_div_floats, Hnz. cbn [bind].
    rewrite nan_over, num_pow_floats, cube_root_of_nan. cbn [bind].
    eexists. split; reflexivity.
Qed.

End NonFinite.

(** X16: a mean motion field that reads [nan] or [inf] is a valid float,
    and no step of the derivation raises on it: provided the platform's
    [pow] squares the pi literal to a number that is not NaN and whose
    fourfold is not zero, [extract_orbital_elements_from_tle] returns
    elements rather than [None], with a NaN altitude for a NaN mean motion
    and the altitude [-6378.137] for an infinite one. *)
Theorem non_finite_mean_motion_is_accepted (libm_pow : float -> float -> float)
  (line1 line2 : string) (mean_motion inclination pi_squared : float) :
  py_float (strip (slice 52 63 line2)) = Returns mean_motion ->
  py_float (strip (slice 8 16 line2)) = Returns inclination ->
  is_finite mean_motion = false ->
  float_pow libm_pow Starlink.PI_LITERAL f_2 = Returns (PFloat pi_squared) ->
  is_zero (fmul f_4 pi_squared) = false ->
  is_nan (fmul f_4 pi_squared) = false ->
  exists elements,
    Starlink.extract_orbital_elements_from_tle libm_pow line1 line2
    = Returns (Some elements)
    /\ Starlink.altitude elements
       = PFloat (if is_nan mean_motion then S754_nan
                 else fneg Starlink.EARTH_RADIUS).
Proof.
  intros Hm Hi Hnf Hpi Hnz Hnn.
  destruct (derive_non_finite libm_pow mean_motion inclination pi_squared
              Hnf Hpi Hnz Hnn) as (elements & Hd & Halt).
  exists elements. split; [|exact Halt].
  unfold Starlink.extract_orbital_elements_from_tle.
  rewrite Hm, Hi. cbn [bind]. rewrite Hd. reflexivity.
Qed.

Lemma non_finite_mean_motion_is_accepted_witness :
  exists elements,
    Starlink.extract_orbital_elements_from_tle Starlink.reference_pow
      "1 44713U" nan_mean_motion_line2
    = Returns (Some elements)
    /\ Starlink.altitude elements = PFloat S754_nan.
Proof.
  apply (non_finite_mean_motion_is_accepted Starlink.reference_pow
           "1 44713U" nan_mean_motion_line2 S754_nan
           (float_of_decimal false 530541 (-4))
           (fmul Starlink.PI_LITERAL Starlink.PI_LITERAL));
    vm_compute; reflexivity.
Defined.

(** ** Snapping to the known inclinations *)

Section SnapFacts.

Lemma snap_first (x tolerance : float) (known : list Z) :
  Forall (fun k => is_inf (float_of_Z k) = false) known ->
  (exists before k after,
     known = (before ++ k :: after)%list
     /\ Starlink.snap x tolerance known = Returns (Some k)
     /\ within_tolerance x tolerance k = true
     /\ Forall (fun j => within_tolerance x tolerance j = false) before)
  \/ (Starlink.snap x tolerance known = Returns None
      /\ Forall (fun j => within_tolerance x tolerance j = false) known).
Proof.
  induction 1 as [|k known Hk Hknown IH].
  - right. split; [reflexivity | constructor].
  - cbn [Starlink.snap]. unfold within, float_of_int. rewrite Hk. cbn [bind].
    fold (within_tolerance x tolerance k).
    destruct (within_tolerance x tolerance k) eqn:Hclose.
    + left. exists [], k, known. repeat split; try assumption. constructor.
    + destruct IH as [(before & k' & after & -> & Hsnap & Hk' & Hbefore)
                     | [Hsnap Hnone]].
      * left. exists (k :: before), k', after.
        repeat split; try assumption. constructor; assumption.
      * right. split; [assumption|]. constructor; assumption.
Qed.

Lemma known_are_floats :
  Forall (fun k => is_inf (float_of_Z k) = false) Starlink.known_inclinations.
Proof. repeat constructor. Qed.

End SnapFacts.

(** X17: the Starlink [round_inclination] never raises, whatever the
    inclination and the tolerance (NaN and infinities included).  It returns
    either a member of the known list that is within the tolerance, every
    member before it in the list being outside the tolerance, or, when no
    member is within the tolerance, the inclination rounded to one decimal
    place. *)
Theorem snap_returns_first_member_within (x tolerance : float) :
  exists v,
    Starlink.round_inclination x tolerance = Returns v
    /\ ((exists before k after,
           Starlink.known_inclinations = (before ++ k :: after)%list
           /\ v = PInt k
           /\ within_tolerance x tolerance k = true
           /\ Forall (fun j => within_tolerance x tolerance j = false) before)
        \/ (v = PFloat (round_ndigits x 1)
            /\ Forall (fun j => within_tolerance x tolerance j = false)
                 Starlink.known_inclinations)).
Proof.
  unfold Starlink.round_inclination.
  destruct (snap_first x tolerance _ known_are_floats)
    as [(before & k & after & Hsplit & -> & Hk & Hbefore) | [-> Hnone]];
    cbn [bind]; eexists; (split; [reflexivity|]).
  - left. exists before, k, after. auto.
  - right. auto.
Qed.

(** ** The groups of the altitude histogram *)

Section GroupFacts.

Variable libm_pow : float -> float -> float.

Lemma visit_cases (g g' : Starlink.groups) (sat : satellite) :
  Starlink.visit libm_pow g sat = Returns g' ->
  (altitude_of libm_pow sat = [] /\ g' = g)
  \/ exists altitude,
       altitude_of libm_pow sat = [altitude]
       /\ if is_dtc sat
          then g' = Starlink.Groups (Starlink.main_satellites g)
                      (Starlink.dtc_satellites g ++ [sat])%list
                      (Starlink.main_altitudes g)
                      (Starlink.dtc_altitudes g ++ [altitude])%list
                      (Starlink.main_by_inclination g)
          else g' = Starlink.Groups (Starlink.main_satellites g ++ [sat])%list
                      (Starlink.dtc_satellites g)
                      (Starlink.main_altitudes g ++ [altitude])%list
                      (Starlink.dtc_altitudes g)
                      (match bucket_of libm_pow sat with
                       | Some z =>
                           match Starlink.main_by_inclination g !! z with
                           | Some altitudes =>
                               <[z := (altitudes ++ [altitude])%list]>
                                 (Starlink.main_by_inclination g)
                           | None => Starlink.main_by_inclination g
                           end
                       | None => Starlink.main_by_inclination g
                       end).
Proof.
  unfold Starlink.visit, altitude_of, bucket_of, is_dtc.
  destruct (Starlink.extract_orbital_elements_from_tle libm_pow (line1 sat) (line2 sat))
    as [[elements|]|e]; cbn [bind]; try discriminate.
  - destruct (starlink_round_inclination_returns
                (Starlink.inclination elements) Starlink.default_tolerance)
      as [v ->].
    cbn [bind]. unfold Starlink.append_if_present.
    destruct (contains "[DTC]" (name sat)); intros [= <-]; right;
      exists (Starlink.altitude elements); split; reflexivity.
  - intros [= <-]. left. split; reflexivity.
Qed.

Lemma visit_all_invariant (P : Starlink.groups -> Prop)
  (satellites : list satellite) (g : Starlink.groups) :
  P Starlink.no_groups ->
  (forall g sat g', P g -> Starlink.visit libm_pow g sat = Returns g' -> P g') ->
  Starlink.visit_all libm_pow satellites = Returns g ->
  P g.
Proof.
  intros H0 Hstep. unfold Starlink.visit_all.
  generalize dependent Starlink.no_groups.
  induction satellites as [|sat sats IH]; intros g0 H0; cbn [fold_left].
  - intros [= <-]. exact H0.
  - cbn [bind]. destruct (Starlink.visit libm_pow g0 sat) as [g1|e] eqn:Hv.
    + apply IH. exact (Hstep _ _ _ H0 Hv).
    + rewrite fold_bind_raises. discriminate.
Qed.

End GroupFacts.

Section Buckets.

Variable libm_pow : float -> float -> float.

Lemma no_groups_keys (k : Z) :
  Starlink.main_by_inclination Starlink.no_groups !! k
  = if in_dec Z.eq_dec k Starlink.known_inclinations then Some [] else None.
Proof.
  cbn [Starlink.main_by_inclination Starlink.no_groups].
  destruct (in_dec Z.eq_dec k Starlink.known_inclinations) as [Hin | Hout].
  - destruct Hin as [<- | [<- | [<- | [<- | []]]]]; reflexivity.
  - rewrite !lookup_insert_ne, lookup_empty; [reflexivity|..];
      intros <-; apply Hout; cbn; tauto.
Qed.

(** The dict keeps its four keys, and bucket [k] holds the altitudes of the
    main records whose rounded inclination selects [k]. *)
Lemma buckets_invariant (satellites : list satellite) (g : Starlink.groups) :
  Starlink.visit_all libm_pow satellites = Returns g ->
  forall k,
    Starlink.main_by_inclination g !! k
    = if in_dec Z.eq_dec k Starlink.known_inclinations
      then Some (flat_map (altitude_of libm_pow)
                   (List.filter (in_bucket libm_pow k) (Starlink.main_satellites g)))
      else None.
Proof.
  apply (visit_all_invariant libm_pow
           (fun g => forall k,
              Starlink.main_by_inclination g !! k
              = if in_dec Z.eq_dec k Starlink.known_inclinations
                then Some (flat_map (altitude_of libm_pow)
                             (List.filter (in_bucket libm_pow k)
                                (Starlink.main_satellites g)))
                else None)).
  - intros k. rewrite no_groups_keys. reflexivity.
  - clear g. intros g sat g' Hg Hvisit k.
    destruct (visit_cases libm_pow g g' sat Hvisit)
      as [[_ ->] | (altitude & Halt & Hg')]; [apply Hg|].
    destruct (is_dtc sat); subst g';
      cbn [Starlink.main_by_inclination Starlink.main_satellites];
      [apply Hg|].
    rewrite List.filter_app, flat_map_app. cbn [List.filter].
    unfold in_bucket at 2.
    destruct (bucket_of libm_pow sat) as [z|].
    + pose proof (Hg z) as Hz.
      destruct (in_dec Z.eq_dec z Starlink.known_inclinations) as [Hzin | Hzout];
        rewrite Hz.
      * destruct (Z.eqb_spec z k) as [-> | Hne].
        -- rewrite lookup_insert_eq.
           destruct (in_dec Z.eq_dec k Starlink.known_inclinations);
             [|contradiction].
           cbn [flat_map]. rewrite Halt, app_nil_r. reflexivity.
        -- rewrite lookup_insert_ne by exact Hne. rewrite (Hg k).
           cbn [flat_map]. rewrite app_nil_r. reflexivity.
      * rewrite (Hg k).
        destruct (in_dec Z.eq_dec k Starlink.known_inclinations) as [Hkin | Hkout];
          [|reflexivity].
        destruct (Z.eqb_spec z k) as [-> | Hne]; [contradiction|].
        cbn [flat_map]. rewrite app_nil_r. reflexivity.
    + rewrite (Hg k). cbn [flat_map]. rewrite app_nil_r. reflexivity.
Qed.

(** The altitude lists grow in step with the satellite lists. *)
Lemma altitudes_invariant (satellites : list satellite) (g : Starlink.groups) :
  Starlink.visit_all libm_pow satellites = Returns g ->
  List.Forall2 (fun sat altitude => altitude_of libm_pow sat = [altitude])
    (Starlink.main_satellites g) (Starlink.main_altitudes g)
  /\ List.Forall2 (fun sat altitude => altitude_of libm_pow sat = [altitude])
       (Starlink.dtc_satellites g) (Starlink.dtc_altitudes g).
Proof.
  apply (visit_all_invariant libm_pow
           (fun g =>
              List.Forall2 (fun sat altitude => altitude_of libm_pow sat = [altitude])
                (Starlink.main_satellites g) (Starlink.main_altitudes g)
              /\ List.Forall2
                   (fun sat altitude => altitude_of libm_pow sat = [altitude])
                   (Starlink.dtc_satellites g) (Starlink.dtc_altitudes g))).
  - split; constructor.
  - clear g. intros g sat g' [Hmain Hdtc] Hvisit.
    destruct (visit_cases libm_pow g g' sat Hvisit)
      as [[_ ->] | (altitude & Halt & Hg')]; [split; assumption|].
    destruct (is_dtc sat); subst g';
      cbn [Starlink.main_satellites Starlink.main_altitudes
           Starlink.dtc_satellites Starlink.dtc_altitudes];
      split; try assumption;
      apply List.Forall2_app; try assumption; repeat constructor; exact Halt.
Qed.

End Buckets.

(** X18: the main loop of [create_altitude_histogram] keeps the dict
    [main_by_inclination] on its four keys 43, 53, 70 and 97, and at the end
    the list under a key holds the altitudes of exactly the main (non-DTC)
    records whose rounded inclination equals that key, in catalog order; a
    record that is DTC, whose elements are not derived, or whose rounded
    inclination is no key is in no list. *)
Theorem inclination_buckets (libm_pow : float -> float -> float)
  (satellites : list satellite) :
  exists g,
    Starlink.visit_all libm_pow satellites = Returns g
    /\ (forall k,
          In k Starlink.known_inclinations ->
          Starlink.main_by_inclination g !! k
          = Some (flat_map (altitude_of libm_pow)
                    (List.filter (in_bucket libm_pow k)
                       (List.filter
                          (fun sat => derivable libm_pow sat && negb (is_dtc sat))
                          satellites))))
    /\ (forall k,
          ~ In k Starlink.known_inclinations ->
          Starlink.main_by_inclination g !! k = None).
Proof.
  destruct (visit_all_spec libm_pow satellites) as (g & Hg & Hmain & _).
  exists g. split; [exact Hg|].
  pose proof (buckets_invariant libm_pow satellites g Hg) as Hk.
  rewrite Hmain in Hk.
  split; intros k Hin; rewrite Hk;
    destruct (in_dec Z.eq_dec k Starlink.known_inclinations);
    try reflexivity; contradiction.
Qed.

(** X19: after the main loop of [create_altitude_histogram] the altitude
    lists line up with the satellite lists: the i-th entry of
    [main_altitudes] is the altitude derived from the i-th record of
    [main_satellites], and likewise for the DTC lists. *)
Theorem altitude_lists_follow_satellites (libm_pow : float -> float -> float)
  (satellites : list satellite) :
  exists g,
    Starlink.visit_all libm_pow satellites = Returns g
    /\ List.Forall2 (fun sat altitude => altitude_of libm_pow sat = [altitude])
         (Starlink.main_satellites g) (Starlink.main_altitudes g)
    /\ List.Forall2 (fun sat altitude => altitude_of libm_pow sat = [altitude])
         (Starlink.dtc_satellites g) (Starlink.dtc_altitudes g).
Proof.
  destruct (visit_all_spec libm_pow satellites) as (g & Hg & _).
  exists g. split; [exact Hg|].
  exact (altitudes_invariant libm_pow satellites g Hg).
Qed.

(** ** The order of the floats *)

Section FloatOrder.

Lemma compare_by_key (x y : float) :
  match SFcompare x y with
  | Some Lt =>
      exists a b, order_key x = Some a /\ order_key y = Some b /\ key_lt a b
  | Some Eq => exists a, order_key x = Some a /\ order_key y = Some a
  | Some Gt =>
      exists a b, order_key x = Some a /\ order_key y = Some b /\ key_lt b a
  | None => order_key x = None \/ order_key y = None
  end.
Proof.
  destruct x as [sx | sx | | sx mx ex], y as [sy | sy | | sy my ey];
    try destruct sx; try destruct sy; cbn [SFcompare order_key];
    try (left; reflexivity); try (right; reflexivity);
    try (eexists; split; reflexivity);
    try (eexists; eexists; refine (conj eq_refl (conj eq_refl _));
         unfold key_lt; lia).
  - destruct (Z.compare_spec ex ey) as [He | He | He].
    + subst ey. change (Pos.compare_cont Eq mx my) with (Pos.compare mx my).
      destruct (Pos.compare_spec mx my) as [Hm | Hm | Hm]; cbn [CompOpp].
      * subst my. eexists; split; reflexivity.
      * eexists; eexists; refine (conj eq_refl (conj eq_refl _)).
        unfold key_lt. lia.
      * eexists; eexists; refine (conj eq_refl (conj eq_refl _)).
        unfold key_lt. lia.
    + eexists; eexists; refine (conj eq_refl (conj eq_refl _)).
      unfold key_lt. lia.
    + eexists; eexists; refine (conj eq_refl (conj eq_refl _)).
      unfold key_lt. lia.
  - destruct (Z.compare_spec ex ey) as [He | He | He].
    + subst ey. change (Pos.compare_cont Eq mx my) with (Pos.compare mx my).
      destruct (Pos.compare_spec mx my) as [Hm | Hm | Hm].
      * subst my. eexists; split; reflexivity.
      * eexists; eexists; refine (conj eq_refl (conj eq_refl _)).
        unfold key_lt. lia.
      * eexists; eexists; refine (conj eq_refl (conj eq_refl _)).
        unfold key_lt. lia.
    + eexists; eexists; refine (conj eq_refl (conj eq_refl _)).
      unfold key_lt. lia.
    + eexists; eexists; refine (conj eq_refl (conj eq_refl _)).
      unfold key_lt. lia.
Qed.

Lemma key_lt_irrefl (a : Z * Z * Z) : ~ key_lt a a.
Proof. destruct a as [[a1 a2] a3]. unfold key_lt. lia. Qed.

Lemma key_lt_asym (a b : Z * Z * Z) : key_lt a b -> ~ key_lt b a.
Proof.
  destruct a as [[a1 a2] a3], b as [[b1 b2] b3]. unfold key_lt. lia.
Qed.

Lemma key_lt_trans (a b c : Z * Z * Z) : key_lt a b -> key_lt b c -> key_lt a c.
Proof.
  destruct a as [[a1 a2] a3], b as [[b1 b2] b3], c as [[c1 c2] c3].
  unfold key_lt. lia.
Qed.

Lemma key_total (a b : Z * Z * Z) : key_lt a b \/ a = b \/ key_lt b a.
Proof.
  destruct a as [[a1 a2] a3], b as [[b1 b2] b3]. unfold key_lt.
  destruct (Z.lt_trichotomy a1 b1) as [H1 | [H1 | H1]];
    destruct (Z.lt_trichotomy a2 b2) as [H2 | [H2 | H2]];
    destruct (Z.lt_trichotomy a3 b3) as [H3 | [H3 | H3]];
    subst; try (right; left; reflexivity); try (left; lia); right; right; lia.
Qed.

Lemma fltb_key (x y : float) :
  fltb x y = true
  <-> exists a b, order_key x = Some a /\ order_key y = Some b /\ key_lt a b.
Proof.
  unfold fltb, SFltb. pose proof (compare_by_key x y) as H.
  destruct (SFcompare x y) as [[ | | ]|]; split; try discriminate;
    try (intros _; exact H); try reflexivity.
  - intros (a & b & Ha & Hb & Hlt). destruct H as (c & Hc & Hc').
    rewrite Ha in Hc. rewrite Hb in Hc'. injection Hc as <-. injection Hc' as <-.
    destruct (key_lt_irrefl _ Hlt).
  - intros (a & b & Ha & Hb & Hlt). destruct H as (c & d & Hc & Hd & Hgt).
    rewrite Ha in Hc. rewrite Hb in Hd. injection Hc as <-. injection Hd as <-.
    destruct (key_lt_asym _ _ Hlt Hgt).
  - intros (a & b & Ha & Hb & Hlt). destruct H as [H | H]; congruence.
Qed.

Lemma fleb_key (x y : float) :
  fleb x y = true
  <-> exists a b, order_key x = Some a /\ order_key y = Some b
                  /\ (key_lt a b \/ a = b).
Proof.
  unfold fleb, SFleb. pose proof (compare_by_key x y) as H.
  destruct (SFcompare x y) as [[ | | ]|]; split; try discriminate;
    try reflexivity.
  - intros _. destruct H as (a & Ha & Hb). exists a, a. auto.
  - intros _. destruct H as (a & b & Ha & Hb & Hlt). exists a, b. auto.
  - intros (a & b & Ha & Hb & Hle). destruct H as (c & d & Hc & Hd & Hgt).
    rewrite Ha in Hc. rewrite Hb in Hd. injection Hc as <-. injection Hd as <-.
    destruct Hle as [Hlt | ->].
    + destruct (key_lt_asym _ _ Hlt Hgt).
    + destruct (key_lt_irrefl _ Hgt).
  - intros (a & b & Ha & Hb & Hle). destruct H as [H | H]; congruence.
Qed.

(** [lo <= x < hi] splits at any [mid] between the bounds: [x] is in
    exactly one of the two halves when it is in the whole, and in neither
    otherwise. *)
Lemma range_split (lo mid hi x : float) :
  fltb lo mid = true ->
  fltb mid hi = true ->
  (fleb lo x && fltb x hi
   = (fleb lo x && fltb x mid) || (fleb mid x && fltb x hi))
  /\ (fleb lo x && fltb x mid) && (fleb mid x && fltb x hi) = false.
Proof.
  intros Hlm Hmh.
  apply fltb_key in Hlm. destruct Hlm as (kl & km & Hkl & Hkm & Hlm).
  apply fltb_key in Hmh. destruct Hmh as (km' & kh & Hkm' & Hkh & Hmh).
  rewrite Hkm in Hkm'. injection Hkm' as <-.
  assert (Hlt : forall a b ka kb,
            order_key a = Some ka -> order_key b = Some kb ->
            fltb a b = true <-> key_lt ka kb).
  { intros a b ka kb Ha Hb. rewrite fltb_key. split.
    - intros (ka' & kb' & Ha' & Hb' & H). congruence.
    - intros H. exists ka, kb. auto. }
  assert (Hle : forall a b ka kb,
            order_key a = Some ka -> order_key b = Some kb ->
            fleb a b = true <-> (key_lt ka kb \/ ka = kb)).
  { intros a b ka kb Ha Hb. rewrite fleb_key. split.
    - intros (ka' & kb' & Ha' & Hb' & H). congruence.
    - intros H. exists ka, kb. auto. }
  destruct (order_key x) as [kx|] eqn:Hkx.
  - pose proof (Hle lo x _ _ Hkl Hkx) as H1.
    pose proof (Hle mid x _ _ Hkm Hkx) as H2.
    pose proof (Hlt x mid _ _ Hkx Hkm) as H3.
    pose proof (Hlt x hi _ _ Hkx Hkh) as H4.
    pose proof (key_total kx km) as Htot.
    pose proof (key_lt_trans kl km kx Hlm) as T1.
    pose proof (key_lt_trans kx km kh) as T2.
    pose proof (key_lt_asym kx km) as A1.
    pose proof (key_lt_irrefl km) as I1.
    destruct (fleb lo x), (fleb mid x), (fltb x mid), (fltb x hi);
      cbn [andb orb]; split; try reflexivity; exfalso;
      repeat match goal with
             | H : true = true <-> _ |- _ =>
                 pose proof (proj1 H eq_refl); clear H
             | H : false = true <-> _ |- _ =>
                 assert (~ _) by (intros Hc; apply H in Hc; discriminate Hc);
                 clear H
             end;
      intuition (subst; eauto).
  - assert (Hn : forall b, fleb b x = false).
    { intros b. destruct (fleb b x) eqn:E; [|reflexivity].
      apply fleb_key in E. destruct E as (? & ? & _ & E & _). congruence. }
    rewrite !Hn. split; reflexivity.
Qed.

End FloatOrder.

(** ** The altitude range table *)

Section RangeTable.

Lemma count_in_range_floats (lo hi : Z) (xs : list float) :
  count_in_range lo hi (map PFloat xs) = Some (hits lo hi xs).
Proof.
  unfold hits. induction xs as [|x xs IH]; [reflexivity|].
  cbn [map count_in_range in_range List.filter]. rewrite IH.
  destruct (fleb (float_of_Z lo) x && fltb x (float_of_Z hi)); reflexivity.
Qed.

Lemma hits_app (lo hi : Z) (xs ys : list float) :
  hits lo hi (xs ++ ys) = (hits lo hi xs + hits lo hi ys)%nat.
Proof. unfold hits. rewrite List.filter_app, length_app. reflexivity. Qed.

Lemma hits_le (lo hi : Z) (xs : list float) :
  (hits lo hi xs <= length xs)%nat.
Proof. unfold hits. apply List.filter_length_le. Qed.

Lemma hits_split (lo mid hi : Z) (xs : list float) :
  fltb (float_of_Z lo) (float_of_Z mid) = true ->
  fltb (float_of_Z mid) (float_of_Z hi) = true ->
  hits lo hi xs = (hits lo mid xs + hits mid hi xs)%nat.
Proof.
  intros Hlm Hmh. unfold hits. induction xs as [|x xs IH]; [reflexivity|].
  cbn [List.filter].
  destruct (range_split _ _ _ x Hlm Hmh) as [Hor Hand]. rewrite Hor.
  destruct (fleb (float_of_Z lo) x && fltb x (float_of_Z mid)),
           (fleb (float_of_Z mid) x && fltb x (float_of_Z hi));
    try discriminate; cbn [orb length]; lia.
Qed.

(** Over float altitudes the loop prints the ranges that hold a satellite,
    in order, each with its two counts. *)
Lemma range_table_floats (ranges : list (Z * Z)) (main dtc : list float) :
  exists rows,
    range_table ranges (map PFloat main) (map PFloat dtc) = Some rows
    /\ list_sum (map total_count rows)
       = list_sum (map (fun '(lo, hi) => hits lo hi (main ++ dtc)) ranges)
    /\ sublist (map (fun row => (low row, high row)) rows) ranges
    /\ Forall (fun row =>
                 In (low row, high row) ranges
                 /\ main_count row = hits (low row) (high row) main
                 /\ dtc_count row = hits (low row) (high row) dtc
                 /\ total_count row = (main_count row + dtc_count row)%nat
                 /\ (0 < total_count row)%nat) rows.
Proof.
  induction ranges as [|[lo hi] ranges IH].
  - exists []. repeat split; constructor.
  - destruct IH as (rows & Hrows & Hsum & Horder & Hall).
    cbn [range_table]. rewrite !count_in_range_floats, Hrows.
    eexists. split; [reflexivity|].
    change (list_sum (map (fun '(lo, hi) => hits lo hi (main ++ dtc))
                        ((lo, hi) :: ranges)))
      with (hits lo hi (main ++ dtc)
            + list_sum (map (fun '(lo, hi) => hits lo hi (main ++ dtc)) ranges))%nat.
    rewrite hits_app, <- Hsum.
    assert (Hall' : Forall (fun row =>
                 In (low row, high row) ((lo, hi) :: ranges)
                 /\ main_count row = hits (low row) (high row) main
                 /\ dtc_count row = hits (low row) (high row) dtc
                 /\ total_count row = (main_count row + dtc_count row)%nat
                 /\ (0 < total_count row)%nat) rows).
    { eapply List.Forall_impl; [|exact Hall]. cbv beta.
      intros row (Hin & H). split; [right; exact Hin | exact H]. }
    destruct (0 <? hits lo hi main + hits lo hi dtc)%nat eqn:Hpos.
    + split; [reflexivity|]. split; [apply sublist_skip; exact Horder|].
      constructor; [|exact Hall'].
      cbn [low high main_count dtc_count total_count].
      apply Nat.ltb_lt in Hpos. repeat split; try assumption. left. reflexivity.
    + apply Nat.ltb_ge in Hpos. split; [lia|].
      split; [apply sublist_cons; exact Horder | exact Hall'].
Qed.

End RangeTable.

(** X20: over float altitudes the altitude range table never raises; it
    prints, in the order of the list, the ranges that hold at least one
    satellite, each with the number of main and DTC altitudes
    [low <= alt < high]; and the seven ranges split [[0, 2000)] without
    overlap, so the printed totals add up to the number of altitudes in
    [[0, 2000)]: an altitude below 0, at or above 2000, or NaN is in no row,
    and no altitude is in two. *)
Theorem range_table_partitions (main_altitudes dtc_altitudes : list float) :
  exists rows,
    range_table altitude_ranges (map PFloat main_altitudes) (map PFloat dtc_altitudes)
    = Some rows
    /\ list_sum (map total_count rows)
       = hits 0 2000 (main_altitudes ++ dtc_altitudes)
    /\ (list_sum (map total_count rows)
        <= length main_altitudes + length dtc_altitudes)%nat
    /\ sublist (map (fun row => (low row, high row)) rows) altitude_ranges
    /\ Forall (fun row =>
                 In (low row, high row) altitude_ranges
                 /\ main_count row = hits (low row) (high row) main_altitudes
                 /\ dtc_count row = hits (low row) (high row) dtc_altitudes
                 /\ total_count row = (main_count row + dtc_count row)%nat
                 /\ (0 < total_count row)%nat) rows.
Proof.
  destruct (range_table_floats altitude_ranges main_altitudes dtc_altitudes)
    as (rows & Hrows & Hsum & Horder & Hall).
  exists rows. split; [exact Hrows|].
  assert (Htotal : list_sum (map total_count rows)
                   = hits 0 2000 (main_altitudes ++ dtc_altitudes)).
  { rewrite Hsum. unfold altitude_ranges.
    change (list_sum
              (map (fun '(lo, hi) => hits lo hi (main_altitudes ++ dtc_altitudes))
                 [(0, 400); (400, 450); (450, 500); (500, 550); (550, 600);
                  (600, 1000); (1000, 2000)]))
      with (hits 0 400 (main_altitudes ++ dtc_altitudes)
            + (hits 400 450 (main_altitudes ++ dtc_altitudes)
               + (hits 450 500 (main_altitudes ++ dtc_altitudes)
                  + (hits 500 550 (main_altitudes ++ dtc_altitudes)
                     + (hits 550 600 (main_altitudes ++ dtc_altitudes)
                        + (hits 600 1000 (main_altitudes ++ dtc_altitudes)
                           + (hits 1000 2000 (main_altitudes ++ dtc_altitudes)
                              + 0)))))))%nat.
    rewrite (hits_split 0 400 2000), (hits_split 400 450 2000),
      (hits_split 450 500 2000), (hits_split 500 550 2000),
      (hits_split 550 600 2000), (hits_split 600 1000 2000)
      by (vm_compute; reflexivity).
    lia. }
  split; [exact Htotal|]. split; [|exact (conj Horder Hall)].
  rewrite Htotal, <- length_app. apply hits_le.
Qed.
